(** * xiaomi_miot_raw: the light and sensor platforms

    A shallow embedding of [custom_components/xiaomi_miot_raw/light.py] and
    [custom_components/xiaomi_miot_raw/sensor.py].

    Layout:
    - exceptions, fallible results and a state-and-exception monad;
    - [Py]      Python numbers: int and float arithmetic over an interface of
                float operations, with IEEE binary64 and exact rationals as
                instances, and the standard model of rounding;
    - [PyVal]   Python values with [==], [*] and [round(x, 3)];
    - [Miot]    what the device library and the configuration hand over;
    - [Light]   [MiotLight]: [convert_value], [async_turn_on], [async_update],
                and the platform set-up;
    - [Sensor]  [MiotSensor]: [async_update] and the platform set-up;
    - [SensorFacts], [LightFacts], [RoundTrip]: lemmas about the two
      entities and about the brightness conversion;
    - [Binary64Model]: IEEE binary64 follows the standard model of rounding;
    - [Frame], [MiotFacts], [LightMore], [SensorMore], [SensorValues],
      [LightSent]: invariants of the method bodies, the values a poll
      stores and the parameters a call sends;
    - the specification, claim by claim, and further properties of the code
      at the end of the file. *)

From Stdlib Require Import ZArith QArith Qround Qabs Qpower Lia Lqa Psatz.
From Stdlib Require Import Floats.PrimFloat Floats.FloatOps Floats.SpecFloat.
From Stdlib Require Import Floats.FloatAxioms.
From stdpp Require Import gmap strings list.

Local Open Scope Z_scope.

(** ** Exceptions and fallible results *)

Inductive exn :=
  | KeyError | IndexError | TypeError | ValueError
  | ZeroDivisionError | OverflowError
  | DeviceException          (* miio.exceptions.DeviceException *)
  | PlatformNotReady.        (* homeassistant.exceptions.PlatformNotReady *)

#[global] Instance exn_eq_dec : EqDecision exn.
Proof. solve_decision. Defined.

Inductive result (A : Type) :=
  | Ok (a : A)
  | Raise (e : exn).
Arguments Ok {A} a.
Arguments Raise {A} e.

Definition rbind {A B} (r : result A) (k : A -> result B) : result B :=
  match r with Ok a => k a | Raise e => Raise e end.

Notation "x <~ r ;; k" := (rbind r (fun x => k))
  (at level 100, r at next level, right associativity, only parsing).

(** [try: body except KeyError: handler] on results. *)
Definition except_KeyError {A} (body : result A) (handler : result A) : result A :=
  match body with
  | Raise KeyError => handler
  | r => r
  end.

(** ** Python numbers *)

Module Py.

(** The float operations Python is built on.  [val] is the exact value of a
    finite float; it is [None] on an infinity or a NaN. *)
Record float_arith := FloatArith {
  F : Type;
  of_int : Z -> F;               (* float(n), to nearest *)
  int_truediv : Z -> Z -> F;     (* a / b on ints: the quotient, to nearest *)
  fmul : F -> F -> F;
  fdiv : F -> F -> F;
  val : F -> option Q;
  is_nan : F -> bool;
}.

(** round-half-to-even and truncation of an exact value, as [round(x)] and
    [int(x)] compute them *)
Definition round_half_even (q : Q) : Z :=
  let f := Qfloor q in
  match Qcompare (q - inject_Z f) (1 # 2) with
  | Lt => f
  | Gt => f + 1
  | Eq => if Z.even f then f else f + 1
  end.

Definition truncate (q : Q) : Z :=
  if Qle_bool 0 q then Qfloor q else Qceiling q.

Section Numbers.
Variable A : float_arith.

Inductive num :=
  | NInt (z : Z)
  | NFloat (f : F A).

(** conversion of an operand to float for mixed arithmetic *)
Definition to_float (x : num) : result (F A) :=
  match x with
  | NFloat f => Ok f
  | NInt z =>
      let f := of_int A z in
      match val A f with
      | Some _ => Ok f
      | None => Raise OverflowError
      end
  end.

Definition is_zero (f : F A) : bool :=
  match val A f with
  | Some q => Qeq_bool q 0
  | None => false
  end.

(** [x / y] *)
Definition py_truediv (x y : num) : result num :=
  match x, y with
  | NInt a, NInt b =>
      if b =? 0 then Raise ZeroDivisionError
      else
        let f := int_truediv A a b in
        match val A f with
        | Some _ => Ok (NFloat f)
        | None => Raise OverflowError
        end
  | _, _ =>
      fx <~ to_float x ;;
      fy <~ to_float y ;;
      if is_zero fy then Raise ZeroDivisionError
      else Ok (NFloat (fdiv A fx fy))
  end.

(** [x * y] *)
Definition py_mul (x y : num) : result num :=
  match x, y with
  | NInt a, NInt b => Ok (NInt (a * b))
  | _, _ =>
      fx <~ to_float x ;;
      fy <~ to_float y ;;
      Ok (NFloat (fmul A fx fy))
  end.

Definition float_to_int (conv : Q -> Z) (f : F A) : result Z :=
  match val A f with
  | Some q => Ok (conv q)
  | None => Raise (if is_nan A f then ValueError else OverflowError)
  end.

(** [round(x)], without [ndigits]: an int *)
Definition py_round (x : num) : result Z :=
  match x with
  | NInt z => Ok z
  | NFloat f => float_to_int round_half_even f
  end.

(** [int(x)] *)
Definition py_int (x : num) : result Z :=
  match x with
  | NInt z => Ok z
  | NFloat f => float_to_int truncate f
  end.
End Numbers.

Arguments NInt {A} z.
Arguments NFloat {A} f.

(** *** IEEE 754 binary64, the float of CPython *)

Definition sf_of_Z (z : Z) : spec_float :=
  match z with
  | Z0 => S754_zero false
  | Zpos p => S754_finite false p 0
  | Zneg p => S754_finite true p 0
  end.

Definition b64_of_int (z : Z) : float :=
  SF2Prim (binary_normalize prec emax z 0 false).

Definition b64_int_truediv (a b : Z) : float :=
  SF2Prim (SFdiv prec emax (sf_of_Z a) (sf_of_Z b)).

Definition pow2Q (e : Z) : Q :=
  match e with
  | Z0 => 1%Q
  | Zpos p => inject_Z (Z.pow_pos 2 p)
  | Zneg p => (1 # Pos.pow 2 p)%Q
  end.

Definition b64_val (f : float) : option Q :=
  match Prim2SF f with
  | S754_zero _ => Some 0%Q
  | S754_finite s m e =>
      Some ((inject_Z (if s then Zneg m else Zpos m)) * pow2Q e)%Q
  | S754_infinity _ | S754_nan => None
  end.

Definition binary64 : float_arith :=
  {| F := float;
     of_int := b64_of_int;
     int_truediv := b64_int_truediv;
     fmul := PrimFloat.mul;
     fdiv := PrimFloat.div;
     val := b64_val;
     is_nan := PrimFloat.is_nan |}.

(** *** Exact rational arithmetic: every operation without rounding error *)

Definition exact : float_arith :=
  {| F := Q;
     of_int := inject_Z;
     int_truediv := fun a b => (inject_Z a / inject_Z b)%Q;
     fmul := Qmult;
     fdiv := Qdiv;
     val := Some;
     is_nan := fun _ => false |}.

(** *** The standard model of floating-point arithmetic

    An arithmetic follows the standard model when each operation returns its
    exact result with a relative error of at most [eps], as long as that
    result is zero or has a magnitude within [[1/omega, omega]] (no
    underflow, no overflow).  IEEE 754 binary64 with rounding to nearest is
    an instance with [eps = 2^-52] and [omega = 2^1000]
    ([Binary64Model.binary64_std_model]); [exact] is the instance without
    error. *)

Definition in_range (omega x : Q) : Prop :=
  (x == 0 \/ (1 / omega <= Qabs x /\ Qabs x <= omega))%Q.

Definition rounds_to (eps x q : Q) : Prop :=
  (Qabs (q - x) <= eps * Qabs x)%Q.

Record std_model (A : float_arith) (eps omega : Q) : Prop := {
  eps_small : (0 <= eps /\ eps <= 1 # 1000000)%Q;
  omega_large : (1000 <= omega)%Q;
  of_int_std : forall z,
    in_range omega (inject_Z z) ->
    exists q, val A (of_int A z) = Some q /\ rounds_to eps (inject_Z z) q;
  int_truediv_std : forall a b,
    b <> 0 ->
    in_range omega (inject_Z a / inject_Z b) ->
    exists q, val A (int_truediv A a b) = Some q /\
              rounds_to eps (inject_Z a / inject_Z b) q;
  fmul_std : forall x y qx qy,
    val A x = Some qx -> val A y = Some qy ->
    in_range omega (qx * qy) ->
    exists q, val A (fmul A x y) = Some q /\ rounds_to eps (qx * qy) q;
  fdiv_std : forall x y qx qy,
    val A x = Some qx -> val A y = Some qy ->
    ~ (qy == 0)%Q ->
    in_range omega (qx / qy) ->
    exists q, val A (fdiv A x y) = Some q /\ rounds_to eps (qx / qy) q;
}.

(** the error bound and the range binary64 is shown to follow the standard
    model with *)
Definition b64_eps : Q := 1 # (2 ^ 52).
Definition b64_omega : Q := inject_Z (2 ^ 1000).

(** the value of a [spec_float], of which [b64_val] is the value on the
    primitive floats, and a sign as a factor *)
Definition SFval (x : spec_float) : option Q :=
  match x with
  | S754_zero _ => Some 0%Q
  | S754_finite s m e =>
      Some ((inject_Z (if s then Zneg m else Zpos m)) * pow2Q e)%Q
  | S754_infinity _ | S754_nan => None
  end.

Definition sgn (s : bool) : Q := if s then (-1)%Q else 1%Q.

End Py.

(** ** Python values *)

Module PyVal.
Import Py.

Inductive pyval :=
  | VNone
  | VBool (b : bool)
  | VInt (z : Z)
  | VFloat (f : float)
  | VStr (s : string).

(** bool is a subclass of int: [True] counts as 1 in arithmetic and in [==] *)
Definition as_num (v : pyval) : option (num binary64) :=
  match v with
  | VBool b => Some (NInt (Z.b2z b))
  | VInt z => Some (NInt z)
  | VFloat f => Some (@NFloat binary64 f)
  | VNone | VStr _ => None
  end.

Definition of_num (x : num binary64) : pyval :=
  match x with
  | NInt z => VInt z
  | NFloat f => VFloat f
  end.

(** an operand that must be a number: otherwise the operator raises TypeError *)
Definition number (v : pyval) : result (num binary64) :=
  match as_num v with
  | Some x => Ok x
  | None => Raise TypeError
  end.

Definition num_eq (x y : num binary64) : bool :=
  match x, y with
  | NInt a, NInt b => a =? b
  | NInt a, NFloat f | NFloat f, NInt a =>
      match b64_val f with
      | Some q => Qeq_bool q (inject_Z a)
      | None => false
      end
  | NFloat f, NFloat g => PrimFloat.eqb f g
  end.

(** [x == y] *)
Definition py_eq (x y : pyval) : bool :=
  match x, y with
  | VNone, VNone => true
  | VStr s, VStr t => String.eqb s t
  | _, _ =>
      match as_num x, as_num y with
      | Some a, Some b => num_eq a b
      | _, _ => false
      end
  end.

Fixpoint str_repeat (s : string) (n : nat) : string :=
  match n with
  | O => EmptyString
  | S n' => String.append s (str_repeat s n')
  end.

(** [x * y]: numbers multiply, a str is repeated by an int, anything else is
    a TypeError *)
Definition py_mul_val (x y : pyval) : result pyval :=
  match x, y with
  | VStr s, _ =>
      match as_num y with
      | Some (NInt n) => Ok (VStr (str_repeat s (Z.to_nat n)))
      | _ => Raise TypeError
      end
  | _, VStr s =>
      match as_num x with
      | Some (NInt n) => Ok (VStr (str_repeat s (Z.to_nat n)))
      | _ => Raise TypeError
      end
  | _, _ =>
      match as_num x, as_num y with
      | Some a, Some b => r <~ py_mul binary64 a b ;; Ok (of_num r)
      | _, _ => Raise TypeError
      end
  end.

(** [round(f, 3)] on a float: the float nearest to the decimal with three
    places nearest to [f] (ties to even); infinities and NaN are returned as
    they are. *)
Definition float_round3 (f : float) : float :=
  match b64_val f with
  | None => f
  | Some q =>
      let m := round_half_even (q * 1000) in
      if m =? 0 then (if PrimFloat.get_sign f then neg_zero else zero)
      else b64_int_truediv m 1000
  end.

(** [round(x, 3)] *)
Definition py_round3 (x : pyval) : result pyval :=
  match x with
  | VInt z => Ok (VInt z)
  | VBool b => Ok (VInt (Z.b2z b))
  | VFloat f => Ok (VFloat (float_round3 f))
  | VNone | VStr _ => Raise TypeError
  end.

(** the key a value denotes in a dict with int keys: [1], [True] and [1.0]
    hash and compare alike *)
Definition as_int_key (v : pyval) : option Z :=
  match v with
  | VInt z => Some z
  | VBool b => Some (Z.b2z b)
  | VFloat f =>
      match b64_val f with
      | Some q => if Qeq_bool q (inject_Z (Qfloor q)) then Some (Qfloor q) else None
      | None => None
      end
  | VNone | VStr _ => None
  end.

(** ** [round(x, 3)] in the words of the Python reference

    "Values are rounded to the closest multiple of 10 to the power minus
    ndigits; if two multiples are equally close, rounding is done toward the
    even choice."  [m / 1000] is that multiple for the exact value [q]: *)
Definition nearest_thousandth (q : Q) (m : Z) : Prop :=
  (Qabs (inject_Z m - q * 1000) <= 1 # 2)%Q /\
  ((Qabs (inject_Z m - q * 1000) == 1 # 2)%Q -> Z.even m = true).

(** [y] is [x] rounded to three places: an int (or a bool, as an int) is
    its own rounding; a finite float goes to a float next to the nearest
    multiple [m / 1000] of a thousandth, at a relative distance of at most
    [2^-52] from it (for magnitudes up to [2^1000]); an infinity or a NaN
    stays as it is.  Nothing else can be rounded. *)
Definition rounded_to_3 (x y : pyval) : Prop :=
  match x with
  | VInt z => y = VInt z
  | VBool b => y = VInt (Z.b2z b)
  | VFloat fx =>
      match b64_val fx with
      | None => y = VFloat fx
      | Some q =>
          exists m fy, y = VFloat fy /\ nearest_thousandth q m /\
            (in_range b64_omega (inject_Z m / 1000) ->
             exists qy, b64_val fy = Some qy /\
                        rounds_to b64_eps (inject_Z m / 1000) qy)
      end
  | VNone | VStr _ => False
  end.

End PyVal.

(** ** State and exceptions

    A method body is a function from the entity before to a result and the
    entity after: an assignment made before an exception is raised stays. *)

Definition M (S A : Type) : Type := S -> result A * S.

Definition ret {S A} (a : A) : M S A := fun s => (Ok a, s).

Definition bind {S A B} (m : M S A) (k : A -> M S B) : M S B :=
  fun s =>
    match m s with
    | (Ok a, s') => k a s'
    | (Raise e, s') => (Raise e, s')
    end.

Definition lift {S A} (r : result A) : M S A := fun s => (r, s).
Definition gets {S A} (f : S -> A) : M S A := fun s => (Ok (f s), s).
Definition modify {S} (f : S -> S) : M S unit := fun s => (Ok tt, f s).

(** [try: body except E: handler], for the exceptions [E] that [catches]
    accepts *)
Definition try_except {S A} (body : M S A) (catches : exn -> bool)
    (handler : M S A) : M S A :=
  fun s =>
    match body s with
    | (Raise e, s') => if catches e then handler s' else (Raise e, s')
    | r => r
    end.

Notation "x <-- m ;; k" := (bind m (fun x => k))
  (at level 100, m at next level, right associativity, only parsing).
Notation "m >> k" := (bind m (fun _ => k))
  (at level 100, k at level 200, right associativity, only parsing).

(** a body keeps the relation [R] between the entity before and after,
    whatever it returns or raises *)
Definition keeps {S A} (R : S -> S -> Prop) (m : M S A) : Prop :=
  forall s, R s (snd (m s)).

Definition is_KeyError (e : exn) : bool := bool_decide (e = KeyError).
Definition is_DeviceException (e : exn) : bool := bool_decide (e = DeviceException).
Definition any_exception (e : exn) : bool := true.

(** ** What the device library and the configuration hand over *)

Module Miot.
Import PyVal.

(** one element of the list [get_properties_for_mapping] returns: the
    property, its result code and, when the device sent one, its value *)
Record entry := Entry {
  did : string;
  code : Z;
  value : option pyval;
}.

(** one mapping of the configuration: the service and property ids *)
Record mapping_entry := { siid : Z; piid : Z }.

(** the configured mapping, a dict in insertion order *)
Abbreviation mapping := (list (string * mapping_entry)).

(** [d[k]] on a dict kept as a list of items *)
Fixpoint getitem {K V} `{EqDecision K} (d : list (K * V)) (k : K) : result V :=
  match d with
  | [] => Raise KeyError
  | (k', v) :: d' => if decide (k = k') then Ok v else getitem d' k
  end.

(** [d[k]] on a dict with string keys *)
Definition getattr {V} (d : gmap string V) (k : string) : result V :=
  match d !! k with
  | Some v => Ok v
  | None => Raise KeyError
  end.

(** a dict entry that may be missing: reading it then raises KeyError *)
Definition required {V} (o : option V) : result V :=
  match o with
  | Some v => Ok v
  | None => Raise KeyError
  end.

(** [l[i]] *)
Definition index {V} (l : list V) (i : nat) : result V :=
  match l !! i with
  | Some v => Ok v
  | None => Raise IndexError
  end.

(** [l.index(x)]: the first position of [x] *)
Fixpoint list_index {V} `{EqDecision V} (x : V) (l : list V) : result nat :=
  match l with
  | [] => Raise ValueError
  | y :: l' => if decide (y = x) then Ok O else i <~ list_index x l' ;; Ok (S i)
  end.

(** [d.keys()[i]]: a dict view cannot be subscripted *)
Definition keys_subscript {K V} (d : list (K * V)) (i : nat) : result K :=
  Raise TypeError.

(** the platform configuration after schema validation *)
Record config := {
  conf_host : string;
  conf_token : string;
  conf_name : string;
  conf_update_instant : option bool;
  conf_mapping : mapping;
  conf_sensor_property : option string;
}.

(** what the set-up writes: [hass.data[DATA_KEY]] (absent at first) and the
    entities handed to [async_add_devices] *)
Record hass (E : Type) := {
  data : option (gmap string E);
  added : list E;
}.
Arguments data {E}.
Arguments added {E}.

Definition ensure_data {E} (h : hass E) : hass E :=
  {| data := Some (default ∅ (data h)); added := added h |}.

Definition set_data_item {E} (host : string) (device : E) (h : hass E) : hass E :=
  {| data := Some (<[host := device]> (default ∅ (data h))); added := added h |}.

Definition add_devices {E} (devices : list E) (h : hass E) : hass E :=
  {| data := data h; added := added h ++ devices |}.

(** the extra attributes hold nothing but the keys a poll has written *)
Definition overwritten_wholesale (written : list string)
    (attrs : gmap string pyval) : Prop :=
  forall k, is_Some (attrs !! k) -> k ∈ written.

(** no key of [attrs] is missing from [attrs'] *)
Definition keys_kept (attrs attrs' : gmap string pyval) : Prop :=
  forall k, is_Some (attrs !! k) -> is_Some (attrs' !! k).

End Miot.

(** * light.py *)

Module Light.
Import Py PyVal Miot.

(** ** The control parameters of a light

    [params] is a dict of dicts: ['switch_status'] holds the on and off
    sentinels, ['brightness'] and ['color_temperature'] hold a
    ['value_range'] [[lo, hi, step]], ['mode'] maps mode codes to effect
    labels.  A key that is missing is [None] here, and reading it raises
    KeyError. *)

Record switch_params := {
  power_on : option pyval;
  power_off : option pyval;
}.

Record range_params := {
  value_range : option (list Z);
}.

Record ctrl_params := {
  switch_status : option switch_params;
  ranged : gmap string range_params;
  mode : option (list (Z * string));
}.

(** [self._ctrl_params[param]['value_range']] *)
Definition get_value_range (cp : ctrl_params) (param : string) : result (list Z) :=
  p <~ getattr (ranged cp) param ;;
  required (value_range p).

(** [self._ctrl_params['switch_status']['power_on']] *)
Definition get_power_on (cp : ctrl_params) : result pyval :=
  p <~ required (switch_status cp) ;;
  required (power_on p).

Definition get_power_off (cp : ctrl_params) : result pyval :=
  p <~ required (switch_status cp) ;;
  required (power_off p).

(** ** MiotLight.convert_value *)

Section ConvertValue.
Variable A : float_arith.

(** an operand of [/]: a value that is no number raises TypeError there *)
Definition operand (value : option (num A)) : result (num A) :=
  match value with
  | Some x => Ok x
  | None => Raise TypeError
  end.

Definition convert_value (cp : ctrl_params) (value : option (num A))
    (param : string) (dir : bool) : result Z :=
  valuerange <~ get_value_range cp param ;;
  if dir then
    v <~ operand value ;;
    x <~ py_truediv A v (NInt 255) ;;
    x <~ py_mul A x (NInt 100) ;;
    slider_value <~ py_round A x ;;
    y <~ py_truediv A (NInt slider_value) (NInt 100) ;;
    hi <~ index valuerange 1 ;;
    lo <~ index valuerange 0 ;;
    y <~ py_mul A y (NInt (hi - lo + 1)) ;;
    step <~ index valuerange 2 ;;
    y <~ py_truediv A y (NInt step) ;;
    n <~ py_int A y ;;
    step <~ index valuerange 2 ;;
    Ok (n * step)
  else
    hi <~ index valuerange 1 ;;
    lo <~ index valuerange 0 ;;
    v <~ operand value ;;
    x <~ py_truediv A v (NInt (hi - lo + 1)) ;;
    x <~ py_mul A x (NInt 255) ;;
    py_round A x.
End ConvertValue.

(** ** The entity *)

Record light := {
  _mapping : mapping;
  _ctrl_params : ctrl_params;
  _update_instant : option bool;
  _skip_update : bool;
  _available : bool;
  _state : pyval;
  _state_attrs : gmap string pyval;
  _brightness : pyval;
  _color_temp : pyval;
  _effect : pyval;
}.

Definition set_skip_update (b : bool) (s : light) : light :=
  {| _mapping := _mapping s; _ctrl_params := _ctrl_params s;
     _update_instant := _update_instant s; _skip_update := b;
     _available := _available s; _state := _state s;
     _state_attrs := _state_attrs s; _brightness := _brightness s;
     _color_temp := _color_temp s; _effect := _effect s |}.

Definition set_available (b : bool) (s : light) : light :=
  {| _mapping := _mapping s; _ctrl_params := _ctrl_params s;
     _update_instant := _update_instant s; _skip_update := _skip_update s;
     _available := b; _state := _state s;
     _state_attrs := _state_attrs s; _brightness := _brightness s;
     _color_temp := _color_temp s; _effect := _effect s |}.

Definition set_state (v : pyval) (s : light) : light :=
  {| _mapping := _mapping s; _ctrl_params := _ctrl_params s;
     _update_instant := _update_instant s; _skip_update := _skip_update s;
     _available := _available s; _state := v;
     _state_attrs := _state_attrs s; _brightness := _brightness s;
     _color_temp := _color_temp s; _effect := _effect s |}.

(** [self._state_attrs.update(d)] *)
Definition update_state_attrs (d : gmap string pyval) (s : light) : light :=
  {| _mapping := _mapping s; _ctrl_params := _ctrl_params s;
     _update_instant := _update_instant s; _skip_update := _skip_update s;
     _available := _available s; _state := _state s;
     _state_attrs := d ∪ _state_attrs s; _brightness := _brightness s;
     _color_temp := _color_temp s; _effect := _effect s |}.

Definition set_brightness (v : pyval) (s : light) : light :=
  {| _mapping := _mapping s; _ctrl_params := _ctrl_params s;
     _update_instant := _update_instant s; _skip_update := _skip_update s;
     _available := _available s; _state := _state s;
     _state_attrs := _state_attrs s; _brightness := v;
     _color_temp := _color_temp s; _effect := _effect s |}.

Definition set_color_temp (v : pyval) (s : light) : light :=
  {| _mapping := _mapping s; _ctrl_params := _ctrl_params s;
     _update_instant := _update_instant s; _skip_update := _skip_update s;
     _available := _available s; _state := _state s;
     _state_attrs := _state_attrs s; _brightness := _brightness s;
     _color_temp := v; _effect := _effect s |}.

Definition set_effect (v : pyval) (s : light) : light :=
  {| _mapping := _mapping s; _ctrl_params := _ctrl_params s;
     _update_instant := _update_instant s; _skip_update := _skip_update s;
     _available := _available s; _state := _state s;
     _state_attrs := _state_attrs s; _brightness := _brightness s;
     _color_temp := _color_temp s; _effect := v |}.

(** ** MiotLight.async_turn_on *)

(** what the caller asks for: the keyword arguments that are present *)
Record kwargs := {
  ATTR_BRIGHTNESS : option Z;
  ATTR_COLOR_TEMP : option Z;
  ATTR_EFFECT : option string;
}.

(** [{'did': d, 'value': v, **mapping_entry}] *)
Record parameter := {
  p_did : string;
  p_value : pyval;
  p_siid : Z;
  p_piid : Z;
}.

Definition make_parameter (d : string) (v : pyval) (m : mapping_entry) : parameter :=
  {| p_did := d; p_value := v; p_siid := siid m; p_piid := piid m |}.

(** [list(modes.keys())[list(modes.values()).index(label)]] *)
Definition effect_to_code (modes : list (Z * string)) (label : string) : result Z :=
  i <~ list_index label (modes.*2) ;;
  index (modes.*1) i.

(** [modes[code]] *)
Definition code_to_effect (modes : list (Z * string)) (v : pyval) : result string :=
  match as_int_key v with
  | Some k => getitem modes k
  | None => Raise KeyError
  end.

(** [ct = lo if ct < lo else hi if ct > hi else ct] on [valuerange] *)
Definition clamp_color_temp (valuerange : list Z) (ct : Z) : result Z :=
  lo <~ index valuerange 0 ;;
  if ct <? lo then index valuerange 0
  else
    hi <~ index valuerange 1 ;;
    if ct >? hi then index valuerange 1 else Ok ct.

Section WithHomeAssistant.
(** [homeassistant.util.color] *)
Variable color_temperature_mired_to_kelvin : Z -> result Z.
Variable color_temperature_kelvin_to_mired : pyval -> result pyval.

(** The method returns nothing; the result here is the parameter list it
    hands to [_try_command], whose answer is [try_command]. *)
Definition async_turn_on (kw : kwargs) (try_command : list parameter -> bool)
    : M light (list parameter) :=
  cp <-- gets _ctrl_params ;;
  mp <-- gets _mapping ;;
  on <-- lift (get_power_on cp) ;;
  m <-- lift (getitem mp "switch_status") ;;
  let parameters := [make_parameter "switch_status" on m] in
  parameters <--
    match ATTR_EFFECT kw with
    | Some effect =>
        modes <-- lift (required (mode cp)) ;;
        k <-- lift (effect_to_code modes effect) ;;
        m <-- lift (getitem mp "mode") ;;
        ret (parameters ++ [make_parameter "mode" (VInt k) m])
    | None =>
        parameters <--
          match ATTR_BRIGHTNESS kw with
          | Some b =>
              modify (set_effect VNone) >>
              v <-- lift (convert_value binary64 cp (Some (NInt b)) "brightness" true) ;;
              m <-- lift (getitem mp "brightness") ;;
              ret (parameters ++ [make_parameter "brightness" (VInt v) m])
          | None => ret parameters
          end ;;
        match ATTR_COLOR_TEMP kw with
        | Some mired =>
            modify (set_effect VNone) >>
            valuerange <-- lift (get_value_range cp "color_temperature") ;;
            ct <-- lift (color_temperature_mired_to_kelvin mired) ;;
            ct <-- lift (clamp_color_temp valuerange ct) ;;
            m <-- lift (getitem mp "color_temperature") ;;
            ret (parameters ++ [make_parameter "color_temperature" (VInt ct) m])
        | None => ret parameters
        end
    end ;;
  (if try_command parameters
   then modify (set_state (VBool true)) >> modify (set_skip_update true)
   else ret tt) >>
  ret parameters.

(** ** MiotLight.async_update *)

Definition skips (s : light) : bool :=
  match _update_instant s with
  | Some false => _skip_update s
  | _ => false
  end.

(** the loop over the response: an entry without a value is skipped *)
Definition build_statedict (response : list entry) : gmap string pyval :=
  foldl (fun statedict r =>
           match value r with
           | Some v => <[did r := v]> statedict
           | None => statedict
           end) ∅ response.

(** [if state == power_on: ... elif state == power_off: ... else: ...] *)
Definition update_state (state : pyval) (cp : ctrl_params) : M light unit :=
  on <-- lift (get_power_on cp) ;;
  if py_eq state on then modify (set_state (VBool true))
  else
    off <-- lift (get_power_off cp) ;;
    if py_eq state off then modify (set_state (VBool false))
    else modify (set_state VNone).

(** the five [try ... except KeyError] statements, in their order *)
Definition update_brightness (statedict : gmap string pyval) (cp : ctrl_params)
    : M light unit :=
  try_except
    (v <-- lift (getattr statedict "brightness") ;;
     b <-- lift (convert_value binary64 cp (as_num v) "brightness" false) ;;
     modify (set_brightness (VInt b)))
    is_KeyError (ret tt).

Definition update_color_temp (statedict : gmap string pyval) : M light unit :=
  try_except
    (v <-- lift (getattr statedict "color_temperature") ;;
     ct <-- lift (color_temperature_kelvin_to_mired v) ;;
     modify (set_color_temp ct))
    is_KeyError (ret tt).

Definition update_attr_color_temperature (statedict : gmap string pyval)
    : M light unit :=
  try_except
    (v <-- lift (getattr statedict "color_temperature") ;;
     modify (update_state_attrs {[ "color_temperature" := v ]}))
    is_KeyError (ret tt).

Definition update_attr_effect (statedict : gmap string pyval) : M light unit :=
  try_except
    (v <-- lift (getattr statedict "mode") ;;
     modify (update_state_attrs {[ "effect" := v ]}))
    is_KeyError (ret tt).

Definition update_effect (statedict : gmap string pyval) (cp : ctrl_params)
    : M light unit :=
  try_except
    (modes <-- lift (required (mode cp)) ;;
     v <-- lift (getattr statedict "mode") ;;
     label <-- lift (code_to_effect modes v) ;;
     modify (set_effect (VStr label)))
    is_KeyError (modify (set_effect VNone)).

(** the body of the outer [try] *)
Definition poll (fetch : result (list entry)) : M light unit :=
  response <-- lift fetch ;;
  let statedict := build_statedict response in
  state <-- lift (getattr statedict "switch_status") ;;
  modify (set_available true) >>
  cp <-- gets _ctrl_params ;;
  update_state state cp >>
  modify (update_state_attrs {[ "state_value" := state ]}) >>
  update_brightness statedict cp >>
  update_color_temp statedict >>
  update_attr_color_temperature statedict >>
  update_attr_effect statedict >>
  update_effect statedict cp.

(** [fetch] is what [get_properties_for_mapping] does when it is called:
    it returns the response or raises. *)
Definition async_update (fetch : result (list entry)) : M light unit :=
  fun s =>
    if skips s then modify (set_skip_update false) s
    else
      try_except (poll fetch) is_DeviceException
        (modify (set_available false)) s.
End WithHomeAssistant.

(** ** async_setup_platform *)

Section Setup.
(** the device library: the handle, its constructor and [info()] *)
Variables device device_info : Type.
Variable MiotDevice : string -> string -> mapping -> result device.
Variable info : device -> result device_info.
(** [ToggleableMiotDevice.__init__], from the package's [__init__.py] *)
Variable ToggleableMiotDevice_init : device -> config -> device_info -> result light.

(** [MiotLight.__init__] *)
Definition MiotLight (d : device) (cfg : config) (di : device_info) : result light :=
  self <~ ToggleableMiotDevice_init d cfg di ;;
  Ok (set_effect VNone (set_color_temp VNone (set_brightness VNone self))).

Definition async_setup_platform (cfg : config) : M (hass light) unit :=
  modify ensure_data >>
  let host := conf_host cfg in
  let token := conf_token cfg in
  let mapping := conf_mapping cfg in
  device <--
    try_except
      (lift (miio_device <~ MiotDevice host token mapping ;;
             device_info <~ info miio_device ;;
             MiotLight miio_device cfg device_info))
      is_DeviceException
      (lift (Raise PlatformNotReady)) ;;
  modify (set_data_item host device) >>
  modify (add_devices [device]).
End Setup.

(** ** homeassistant.util.color

    The two helpers the light calls, as Home Assistant defines them:
    [math.floor(1000000 / x)].  The light is modelled for any pair of
    helpers; these are the ones the examples run with. *)

Module HA.
Definition math_floor (x : num binary64) : result Z :=
  match x with
  | NInt z => Ok z
  | NFloat f => float_to_int binary64 Qfloor f
  end.

Definition color_temperature_mired_to_kelvin (mired : Z) : result Z :=
  q <~ py_truediv binary64 (NInt 1000000) (NInt mired) ;;
  math_floor q.

Definition color_temperature_kelvin_to_mired (kelvin : pyval) : result pyval :=
  x <~ number kelvin ;;
  q <~ py_truediv binary64 (NInt 1000000) x ;;
  n <~ math_floor q ;;
  Ok (VInt n).
End HA.

(** ** Notions the properties of the light are stated with *)

(** a result a [try ... except KeyError] lets through *)
Definition tolerated {A} (r : result A) : Prop :=
  match r with
  | Ok _ | Raise KeyError => True
  | Raise _ => False
  end.

(** the dict [{key: v}] when the poll has a value [v], the empty one
    otherwise *)
Definition present (key : string) (v : option pyval) : gmap string pyval :=
  match v with
  | Some v => {[ key := v ]}
  | None => ∅
  end.

(** what [update_state] stores *)
Definition state_of (state on off : pyval) : pyval :=
  if py_eq state on then VBool true
  else if py_eq state off then VBool false
  else VNone.

(** the entity a poll leaves when it runs to its end: the switch is in the
    response, and each attribute is the old one when its property is not *)
Definition polled (response : list entry) (s s' : light) : Prop :=
  let statedict := build_statedict response in
  exists state st b c e,
    statedict !! "switch_status" = Some state /\
    s' = set_effect e
           (update_state_attrs (present "effect" (statedict !! "mode"))
           (update_state_attrs
              (present "color_temperature" (statedict !! "color_temperature"))
           (set_color_temp c
           (set_brightness b
           (update_state_attrs {[ "state_value" := state ]}
           (set_state st
           (set_available true s))))))) /\
    (statedict !! "brightness" = None -> b = _brightness s) /\
    (statedict !! "color_temperature" = None -> c = _color_temp s) /\
    (statedict !! "mode" = None -> e = VNone).

(** the brightness round trip: UI value to device value and back *)
Definition round_trip (A : float_arith) (cp : ctrl_params) (b : Z) : result Z :=
  d <~ convert_value A cp (Some (NInt b)) "brightness" true ;;
  convert_value A cp (Some (NInt d)) "brightness" false.

(** the distance of [back] from [b] is at most [extra] plus one device step
    on the UI scale, which is [255 * step / (hi - lo + 1)] *)
Definition within_step (lo hi step extra b back : Z) : Prop :=
  Z.abs (back - b) * (hi - lo + 1) <= 255 * step + extra * (hi - lo + 1).

(** the same bound as a test, and the test over every UI value 0..255 *)
Definition within_step_b (lo hi step extra b back : Z) : bool :=
  Z.abs (back - b) * (hi - lo + 1) <=? 255 * step + extra * (hi - lo + 1).

(** the control parameters of a light with this brightness range only *)
Definition brightness_params (lo hi step : Z) : ctrl_params :=
  {| switch_status := None;
     ranged := {[ "brightness" := {| value_range := Some [lo; hi; step] |} ]};
     mode := None |}.

Definition round_trips_within (A : float_arith) (lo hi step extra : Z) : bool :=
  forallb
    (fun b =>
       match round_trip A (brightness_params lo hi step) (Z.of_nat b) with
       | Ok back => within_step_b lo hi step extra (Z.of_nat b) back
       | Raise _ => false
       end)
    (seq 0 256).


(** the attribute keys a poll with this response writes *)
Definition written_keys (response : list entry) : list string :=
  let statedict := build_statedict response in
  ["state_value"]
  ++ match statedict !! "color_temperature" with
     | Some _ => ["color_temperature"]
     | None => []
     end
  ++ match statedict !! "mode" with
     | Some _ => ["effect"]
     | None => []
     end.

(** ** A light to run the code on *)

Definition example_mapping : mapping :=
  [("switch_status", {| siid := 2; piid := 1 |});
   ("brightness", {| siid := 2; piid := 2 |});
   ("color_temperature", {| siid := 2; piid := 3 |});
   ("mode", {| siid := 2; piid := 4 |})].

Definition example_params (lo hi step : Z) : ctrl_params :=
  {| switch_status :=
       Some {| power_on := Some (VBool true); power_off := Some (VBool false) |};
     ranged :=
       {[ "brightness" := {| value_range := Some [lo; hi; step] |};
          "color_temperature" := {| value_range := Some [2700; 6500; 1] |} ]};
     mode := Some [(0, "Day"); (1, "Night")] |}.

Definition example_light (cp : ctrl_params) : light :=
  {| _mapping := example_mapping;
     _ctrl_params := cp;
     _update_instant := Some true;
     _skip_update := false;
     _available := false;
     _state := VNone;
     _state_attrs := ∅;
     _brightness := VNone;
     _color_temp := VNone;
     _effect := VNone |}.

Definition example_response : list entry :=
  [Entry "switch_status" 0 (Some (VBool true));
   Entry "brightness" 0 (Some (VInt 50));
   Entry "color_temperature" 0 (Some (VInt 4000));
   Entry "mode" 0 (Some (VInt 1))].

(** the same poll with the mode not answered *)
Definition example_mode_missing : list entry :=
  [Entry "switch_status" 0 (Some (VBool true));
   Entry "brightness" 0 (Some (VInt 50));
   Entry "color_temperature" 0 (Some (VInt 4000));
   Entry "mode" (-4004) None].

(** a poll with the switch not answered *)
Definition example_switch_missing : list entry :=
  [Entry "switch_status" (-4004) None;
   Entry "brightness" 0 (Some (VInt 50))].

Definition example_config : config :=
  {| conf_host := "192.168.1.20";
     conf_token := "0123456789abcdef0123456789abcdef";
     conf_name := "Generic MIoT light";
     conf_update_instant := Some true;
     conf_mapping := example_mapping;
     conf_sensor_property := None |}.

(** a poll that answers the switch only *)
Definition example_switch_only : list entry :=
  [Entry "switch_status" 0 (Some (VBool true))].

(** ** The other properties of MiotLight *)

(** [k in d] on a dict kept as a list of items *)
Definition contains {V} (d : list (string * V)) (k : string) : bool :=
  bool_decide (k ∈ d.*1).

Section Features.
(** [homeassistant.components.light]: the feature flags *)
Variables SUPPORT_BRIGHTNESS SUPPORT_COLOR_TEMP SUPPORT_EFFECT : Z.

(** [MiotLight.supported_features] *)
Definition supported_features (self : light) : Z :=
  let s := 0 in
  let s :=
    if contains (_mapping self) "brightness"
    then Z.lor s SUPPORT_BRIGHTNESS else s in
  let s :=
    if contains (_mapping self) "color_temperature"
    then Z.lor s SUPPORT_COLOR_TEMP else s in
  let s :=
    if contains (_mapping self) "mode"
    then Z.lor s SUPPORT_EFFECT else s in
  s.
End Features.

Section Mireds.
Variable color_temperature_kelvin_to_mired : pyval -> result pyval.

(** [MiotLight.min_mireds]: the coldest colour temperature, from the upper
    end of the Kelvin range *)
Definition min_mireds (self : light) : result pyval :=
  except_KeyError
    (valuerange <~ get_value_range (_ctrl_params self) "color_temperature" ;;
     hi <~ index valuerange 1 ;;
     color_temperature_kelvin_to_mired (VInt hi))
    (Ok VNone).

(** [MiotLight.max_mireds]: the warmest one, from the lower end *)
Definition max_mireds (self : light) : result pyval :=
  except_KeyError
    (valuerange <~ get_value_range (_ctrl_params self) "color_temperature" ;;
     lo <~ index valuerange 0 ;;
     color_temperature_kelvin_to_mired (VInt lo))
    (Ok VNone).
End Mireds.

(** [MiotLight.effect_list] *)
Definition effect_list (self : light) : result (list string) :=
  modes <~ required (mode (_ctrl_params self)) ;;
  Ok (modes.*2).

(** the value of the last entry of a response that reports the property [k]
    with a value *)
Definition last_value (k : string) (response : list entry) : option pyval :=
  last (omap (fun r => if decide (did r = k) then value r else None) response).

(** the configuration of an entity: what the set-up has read *)
Definition same_config (s s' : light) : Prop :=
  _mapping s' = _mapping s /\
  _ctrl_params s' = _ctrl_params s /\
  _update_instant s' = _update_instant s.

(** what [async_turn_on] does with the answer of [_try_command] *)
Definition after_command (ok : bool) (s : light) : light :=
  if ok then set_skip_update true (set_state (VBool true) s) else s.

(** a call that requests a brightness or a colour temperature, and no
    effect, clears the cached effect *)
Definition clears_effect (kw : kwargs) : bool :=
  match ATTR_EFFECT kw, ATTR_BRIGHTNESS kw, ATTR_COLOR_TEMP kw with
  | Some _, _, _ => false
  | None, None, None => false
  | None, _, _ => true
  end.

(** what a call of [async_turn_on] leaves alone, whatever its outcome *)
Definition untouched_by_turn_on (s s' : light) : Prop :=
  same_config s s' /\
  _available s' = _available s /\
  _state_attrs s' = _state_attrs s /\
  _brightness s' = _brightness s /\
  _color_temp s' = _color_temp s.

(** what a call of [async_update] leaves alone, whatever its outcome: the
    configuration, and the keys of the extra attributes *)
Definition kept_by_update (s s' : light) : Prop :=
  same_config s s' /\ keys_kept (_state_attrs s) (_state_attrs s').

(** what a poll does to the entity, as a function of the entity: [ob] and
    [oc] are the brightness and the colour temperature it stores, if any *)
Definition apply_poll (state st : pyval) (ob oc : option pyval) (e : pyval)
    (statedict : gmap string pyval) (t : light) : light :=
  let set_opt (f : pyval -> light -> light) (o : option pyval) (t : light) :=
    match o with Some v => f v t | None => t end in
  set_effect e
    (update_state_attrs (present "effect" (statedict !! "mode"))
    (update_state_attrs
       (present "color_temperature" (statedict !! "color_temperature"))
    (set_opt set_color_temp oc
    (set_opt set_brightness ob
    (update_state_attrs {[ "state_value" := state ]}
    (set_state st
    (set_available true t))))))).

End Light.

(** * sensor.py *)

Module Sensor.
Import Py PyVal Miot.

(** ** The entity

    [_ctrl_params] is the optional [params] table, a dict of dicts; the
    sensor reads ['value_ratio'] in the dict of a property. *)

Record sensor := {
  _mapping : mapping;
  _ctrl_params : gmap string (gmap string pyval);
  _update_instant : option bool;
  _skip_update : bool;
  _available : bool;
  _assumed_state : bool;
  _state : pyval;
  _state_attrs : gmap string pyval;
  _sensor_property : option string;
}.

Definition set_skip_update (b : bool) (s : sensor) : sensor :=
  {| _mapping := _mapping s; _ctrl_params := _ctrl_params s;
     _update_instant := _update_instant s; _skip_update := b;
     _available := _available s; _assumed_state := _assumed_state s;
     _state := _state s; _state_attrs := _state_attrs s;
     _sensor_property := _sensor_property s |}.

Definition set_available (b : bool) (s : sensor) : sensor :=
  {| _mapping := _mapping s; _ctrl_params := _ctrl_params s;
     _update_instant := _update_instant s; _skip_update := _skip_update s;
     _available := b; _assumed_state := _assumed_state s;
     _state := _state s; _state_attrs := _state_attrs s;
     _sensor_property := _sensor_property s |}.

Definition set_assumed_state (b : bool) (s : sensor) : sensor :=
  {| _mapping := _mapping s; _ctrl_params := _ctrl_params s;
     _update_instant := _update_instant s; _skip_update := _skip_update s;
     _available := _available s; _assumed_state := b;
     _state := _state s; _state_attrs := _state_attrs s;
     _sensor_property := _sensor_property s |}.

Definition set_state (v : pyval) (s : sensor) : sensor :=
  {| _mapping := _mapping s; _ctrl_params := _ctrl_params s;
     _update_instant := _update_instant s; _skip_update := _skip_update s;
     _available := _available s; _assumed_state := _assumed_state s;
     _state := v; _state_attrs := _state_attrs s;
     _sensor_property := _sensor_property s |}.

(** [self._state_attrs.update(d)] *)
Definition update_state_attrs (d : gmap string pyval) (s : sensor) : sensor :=
  {| _mapping := _mapping s; _ctrl_params := _ctrl_params s;
     _update_instant := _update_instant s; _skip_update := _skip_update s;
     _available := _available s; _assumed_state := _assumed_state s;
     _state := _state s; _state_attrs := d ∪ _state_attrs s;
     _sensor_property := _sensor_property s |}.

Definition set_sensor_property (p : option string) (s : sensor) : sensor :=
  {| _mapping := _mapping s; _ctrl_params := _ctrl_params s;
     _update_instant := _update_instant s; _skip_update := _skip_update s;
     _available := _available s; _assumed_state := _assumed_state s;
     _state := _state s; _state_attrs := _state_attrs s;
     _sensor_property := p |}.

(** ** MiotSensor.async_update *)

Definition skips (s : sensor) : bool :=
  match _update_instant s with
  | Some false => _skip_update s
  | _ => false
  end.

(** the value stored for an entry with code 0: scaled by the ratio of its
    property and rounded, or as it is when there is no ratio *)
Definition scaled (cp : gmap string (gmap string pyval)) (r : entry) : result pyval :=
  except_KeyError
    (p <~ getattr cp (did r) ;;
     f <~ getattr p "value_ratio" ;;
     v <~ required (value r) ;;
     x <~ py_mul_val v f ;;
     py_round3 x)
    (required (value r)).

(** one turn of the loop over the response, on [statedict] and [count4004] *)
Definition loop_body (cp : gmap string (gmap string pyval))
    (acc : gmap string pyval * Z) (r : entry) : result (gmap string pyval * Z) :=
  let '(statedict, count4004) := acc in
  if code r =? 0 then
    v <~ scaled cp r ;;
    Ok (<[did r := v]> statedict, count4004)
  else
    let statedict := <[did r := VNone]> statedict in
    if code r =? -4004 then Ok (statedict, count4004 + 1)
    else Ok (statedict, count4004).

Fixpoint loop (cp : gmap string (gmap string pyval))
    (acc : gmap string pyval * Z) (response : list entry)
    : result (gmap string pyval * Z) :=
  match response with
  | [] => Ok acc
  | r :: rest => acc' <~ loop_body cp acc r ;; loop cp acc' rest
  end.

(** the body of the [try] *)
Definition poll (fetch : result (list entry)) : M sensor unit :=
  response <-- lift fetch ;;
  modify (set_available true) >>
  cp <-- gets _ctrl_params ;;
  acc <-- lift (loop cp (∅, 0) response) ;;
  let '(statedict, count4004) := acc in
  (if count4004 =? Z.of_nat (length response)
   then modify (set_assumed_state true)
   else ret tt) >>
  modify (update_state_attrs statedict).

(** [d.get(k)] *)
Definition dict_get (d : gmap string pyval) (k : string) : pyval :=
  default VNone (d !! k).

(** the statements after the [try]: the primary state *)
Definition select_state : M sensor unit :=
  state <-- gets _state_attrs ;;
  sensor_property <-- gets _sensor_property ;;
  match sensor_property with
  | Some p => modify (set_state (dict_get state p))
  | None =>
      try_except
        (mp <-- gets _mapping ;;
         k <-- lift (keys_subscript mp 0) ;;
         modify (set_state (dict_get state k)))
        any_exception
        (modify (set_state VNone))
  end.

(** [fetch] is what [get_properties_for_mapping] does when it is called:
    it returns the response or raises. *)
Definition async_update (fetch : result (list entry)) : M sensor unit :=
  fun s =>
    if skips s then modify (set_skip_update false) s
    else
      (try_except (poll fetch) is_DeviceException
         (modify (set_available false)) >>
       select_state) s.

(** the entity after a sequence of polls; an exception that leaves
    [async_update] is the caller's, the entity stays as the call left it *)
Definition run_updates (fetches : list (result (list entry))) (s : sensor) : sensor :=
  foldl (fun s fetch => snd (async_update fetch s)) s fetches.

(** ** async_setup_platform *)

Section Setup.
Variables device device_info : Type.
Variable MiotDevice : string -> string -> mapping -> result device.
Variable info : device -> result device_info.
(** [GenericMiotDevice.__init__], from the package's [__init__.py] *)
Variable GenericMiotDevice_init : device -> config -> device_info -> result sensor.

(** [MiotSensor.__init__] *)
Definition MiotSensor (d : device) (cfg : config) (di : device_info) : result sensor :=
  self <~ GenericMiotDevice_init d cfg di ;;
  Ok (set_sensor_property (conf_sensor_property cfg)
        (set_skip_update false (set_state VNone self))).

Definition async_setup_platform (cfg : config) : M (hass sensor) unit :=
  modify ensure_data >>
  let host := conf_host cfg in
  let token := conf_token cfg in
  let mapping := conf_mapping cfg in
  device <--
    try_except
      (lift (miio_device <~ MiotDevice host token mapping ;;
             device_info <~ info miio_device ;;
             MiotSensor miio_device cfg device_info))
      is_DeviceException
      (lift (Raise PlatformNotReady)) ;;
  modify (set_data_item host device) >>
  modify (add_devices [device]).
End Setup.

(** ** Notions the properties of the sensor are stated with *)

(** an entry that failed with the code "the device does not report state" *)
Definition failed_4004 (r : entry) : Prop := code r = -4004.

#[global] Instance failed_4004_dec r : Decision (failed_4004 r).
Proof. unfold failed_4004. apply _. Defined.

(** [self._ctrl_params[d]['value_ratio']], when both keys are there *)
Definition value_ratio (cp : gmap string (gmap string pyval)) (d : string)
    : option pyval :=
  match cp !! d with
  | Some p => p !! "value_ratio"
  | None => None
  end.

(** what [select_state] stores *)
Definition primary (s : sensor) : pyval :=
  match _sensor_property s with
  | Some p => dict_get (_state_attrs s) p
  | None => VNone
  end.

(** the primary state is the one a poll has derived from the attributes *)
Definition state_cached (s : sensor) : Prop := _state s = primary s.

(** the flag and the attributes once the loop is through *)
Definition after_loop (response : list entry) (acc : gmap string pyval * Z)
    (s : sensor) : sensor :=
  update_state_attrs (fst acc)
    (if snd acc =? Z.of_nat (length response)
     then set_assumed_state true (set_available true s)
     else set_available true s).

(** the first key of a dict, which the fallback of [select_state] is after *)
Definition first_key {V} (d : list (string * V)) : option string := head (d.*1).

(** ** A sensor to run the code on: temperature in tenths of a degree and
    relative humidity *)

Definition example_mapping : mapping :=
  [("temperature", {| siid := 2; piid := 1 |});
   ("humidity", {| siid := 2; piid := 2 |})].

Definition example_sensor (sensor_property : option string) : sensor :=
  {| _mapping := example_mapping;
     _ctrl_params := {[ "temperature" := {[ "value_ratio" := VFloat 0x1.999999999999ap-4 ]} ]};
     _update_instant := None;
     _skip_update := false;
     _available := false;
     _assumed_state := false;
     _state := VNone;
     _state_attrs := ∅;
     _sensor_property := sensor_property |}.

Definition example_response : list entry :=
  [Entry "temperature" 0 (Some (VInt 253)); Entry "humidity" 0 (Some (VInt 40))].

Definition example_all_4004 : list entry :=
  [Entry "temperature" (-4004) None; Entry "humidity" (-4004) None].

(** a later poll in which the device answers the temperature only *)
Definition example_temperature_only : list entry :=
  [Entry "temperature" 0 (Some (VInt 254))].

Definition example_partial : list entry :=
  [Entry "temperature" (-4004) None; Entry "humidity" 0 (Some (VInt 40))].

(** a poll that reports the temperature to four places: 25.3456 *)
Definition example_fine : list entry :=
  [Entry "temperature" 0 (Some (VFloat 0x1.958793dd97f63p+4));
   Entry "humidity" 0 (Some (VInt 40))].

(** a poll in which the temperature comes as a text *)
Definition example_unscalable : list entry :=
  [Entry "humidity" 0 (Some (VInt 40));
   Entry "temperature" 0 (Some (VStr "n/a"))].

(** a response that reports the humidity twice *)
Definition example_reported_twice : list entry :=
  [Entry "humidity" 0 (Some (VInt 40));
   Entry "humidity" 0 (Some (VInt 41))].

(** ** Notions of the further properties *)

(** the configuration of a sensor: what the set-up has read *)
Definition same_config (s s' : sensor) : Prop :=
  _mapping s' = _mapping s /\
  _ctrl_params s' = _ctrl_params s /\
  _update_instant s' = _update_instant s /\
  _sensor_property s' = _sensor_property s.

(** what a call of [async_update] leaves alone, whatever its outcome *)
Definition kept_by_update (s s' : sensor) : Prop :=
  same_config s s' /\ keys_kept (_state_attrs s) (_state_attrs s').

End Sensor.

(** * Proof automation *)

(** case analysis on the innermost scrutinee of the matches in [H] *)
Ltac case_scrutinee H :=
  match type of H with
  | context [match ?x with _ => _ end] =>
      lazymatch x with
      | context [match _ with _ => _ end] => fail
      | _ => destruct x eqn:?
      end
  end.

(** make a goal over Q ready for [lra] and [nra]: [inject_Z] of a term that
    is no numeral becomes an unknown, and a division by a numeral a product *)
Ltac hide_inject_Z :=
  repeat match goal with
         | |- context [inject_Z ?z] =>
             lazymatch z with
             | Z0 => fail | Zpos _ => fail | Zneg _ => fail
             | _ => let x := fresh "x" in
                    remember (inject_Z z) as x eqn:?Hinj; clear Hinj
             end
         | H : context [inject_Z ?z] |- _ =>
             lazymatch z with
             | Z0 => fail | Zpos _ => fail | Zneg _ => fail
             | _ => let x := fresh "x" in
                    remember (inject_Z z) as x eqn:?Hinj; clear Hinj
             end
         end;
  cbv [inject_Z] in *;
  unfold Qdiv in *;
  repeat match goal with
         | |- context [/ (Zpos ?p # 1)] =>
             change (/ (Zpos p # 1)) with (1 # p)
         | H : context [/ (Zpos ?p # 1)] |- _ =>
             change (/ (Zpos p # 1)) with (1 # p) in H
         end.


(** * Properties of the sensor *)

Module SensorFacts.
Import Py PyVal Miot Sensor.

Lemma select_state_eq s : select_state s = (Ok tt, set_state (primary s) s).
Proof.
  unfold select_state, primary, bind, gets, modify, try_except, lift, keys_subscript.
  destruct (_sensor_property s); reflexivity.
Qed.

Lemma poll_ok_eq response s :
  poll (Ok response) s =
    match loop (_ctrl_params s) (∅, 0) response with
    | Ok acc => (Ok tt, after_loop response acc s)
    | Raise e => (Raise e, set_available true s)
    end.
Proof.
  unfold poll, after_loop, bind, gets, modify, lift, ret. simpl.
  destruct (loop _ _ _) as [[sd c]|e]; simpl; [|reflexivity].
  destruct (c =? _); reflexivity.
Qed.

Lemma poll_raise_eq e s : poll (Raise e) s = (Raise e, s).
Proof. reflexivity. Qed.

Lemma py_mul_val_raises v f e :
  py_mul_val v f = Raise e -> e = TypeError \/ e = OverflowError.
Proof.
  unfold py_mul_val, py_mul, to_float, rbind.
  destruct v, f; simpl; intros H; repeat case_scrutinee H; inversion H; auto.
Qed.

Lemma py_round3_raises x e : py_round3 x = Raise e -> e = TypeError.
Proof. destruct x; simpl; intros H; inversion H; reflexivity. Qed.

(** an entry with code 0 fails on a missing value (KeyError) or on a value
    that cannot be scaled (TypeError, OverflowError) *)
Lemma scaled_raises cp r e :
  scaled cp r = Raise e -> e = KeyError \/ e = TypeError \/ e = OverflowError.
Proof.
  unfold scaled, except_KeyError, getattr, required, rbind.
  destruct (cp !! did r) as [p|]; [|destruct (value r); intros H; inversion H; auto].
  destruct (p !! "value_ratio") as [f|]; [|destruct (value r); intros H; inversion H; auto].
  destruct (value r) as [v|]; [|intros H; inversion H; auto].
  destruct (py_mul_val v f) as [x|e'] eqn:Hm.
  - destruct (py_round3 x) as [y|e''] eqn:Hr; [discriminate|].
    apply py_round3_raises in Hr. subst e''. intros H; inversion H; auto.
  - apply py_mul_val_raises in Hm.
    destruct Hm; subst e'; intros H; inversion H; auto.
Qed.

Lemma loop_body_not_DeviceException cp acc r :
  loop_body cp acc r ≠ Raise DeviceException.
Proof.
  destruct acc as [sd c]. unfold loop_body.
  destruct (code r =? 0).
  - destruct (scaled cp r) as [v|e] eqn:Hs; simpl; [discriminate|].
    apply scaled_raises in Hs. intros H. inversion H. subst e.
    destruct Hs as [|[|]]; discriminate.
  - destruct (code r =? -4004); discriminate.
Qed.

Lemma loop_not_DeviceException cp response : forall acc,
  loop cp acc response ≠ Raise DeviceException.
Proof.
  induction response as [|r rest IH]; intros acc; simpl; [discriminate|].
  pose proof (loop_body_not_DeviceException cp acc r) as Hb.
  destruct (loop_body cp acc r) as [acc'|e]; simpl; [apply IH|congruence].
Qed.

(** [async_update], case by case *)
Lemma async_update_skip fetch s :
  skips s = true -> async_update fetch s = (Ok tt, set_skip_update false s).
Proof. intros H. unfold async_update. rewrite H. reflexivity. Qed.

Lemma async_update_DeviceException s :
  skips s = false ->
  async_update (Raise DeviceException) s =
    (Ok tt, set_state (primary (set_available false s)) (set_available false s)).
Proof.
  intros H. unfold async_update. rewrite H.
  unfold bind, try_except. rewrite poll_raise_eq. simpl.
  apply select_state_eq.
Qed.

Lemma async_update_raise e s :
  skips s = false -> e ≠ DeviceException ->
  async_update (Raise e) s = (Raise e, s).
Proof.
  intros H He. unfold async_update. rewrite H.
  unfold bind, try_except. rewrite poll_raise_eq.
  unfold is_DeviceException. rewrite bool_decide_eq_false_2 by done. reflexivity.
Qed.

Lemma async_update_response response s :
  skips s = false ->
  async_update (Ok response) s =
    match loop (_ctrl_params s) (∅, 0) response with
    | Ok acc =>
        let s' := after_loop response acc s in
        (Ok tt, set_state (primary s') s')
    | Raise e => (Raise e, set_available true s)
    end.
Proof.
  intros H. unfold async_update. rewrite H.
  unfold bind, try_except. rewrite poll_ok_eq.
  pose proof (loop_not_DeviceException (_ctrl_params s) response (∅, 0)) as Hd.
  destruct (loop _ _ _) as [acc|e].
  - apply select_state_eq.
  - unfold is_DeviceException. rewrite bool_decide_eq_false_2 by congruence.
    reflexivity.
Qed.

(** ** The loop: the counter *)

Lemma filter_all_length {X} (P : X -> Prop) `{forall x, Decision (P x)} (l : list X) :
  length (filter P l) = length l <-> Forall P l.
Proof.
  induction l as [|x l IH]; simpl.
  - split; [constructor|reflexivity].
  - rewrite filter_cons. destruct (decide (P x)) as [Hx|Hx]; simpl.
    + split.
      * intros Hl. constructor; [exact Hx|]. apply IH. lia.
      * intros Hall. inversion Hall; subst. f_equal. apply IH. assumption.
    + pose proof (length_filter P l). split; [lia|].
      intros Hall. inversion Hall; subst. contradiction.
Qed.

Lemma loop_count cp response : forall sd c,
  match loop cp (sd, c) response with
  | Ok (_, c') => c' = c + Z.of_nat (length (filter failed_4004 response))
  | Raise _ => ~ Forall failed_4004 response
  end.
Proof.
  induction response as [|r rest IH]; intros sd c; simpl.
  - lia.
  - rewrite filter_cons. unfold loop_body.
    destruct (Z.eqb_spec (code r) 0) as [H0|H0].
    + assert (Hr : ~ failed_4004 r) by (unfold failed_4004; lia).
      destruct (scaled cp r) as [v|e]; simpl.
      * specialize (IH (<[did r := v]> sd) c).
        destruct (loop _ _ rest) as [[sd' c']|e].
        -- destruct (decide (failed_4004 r)); [contradiction|]. exact IH.
        -- intros Hall. inversion Hall; subst. contradiction.
      * intros Hall. inversion Hall; subst. contradiction.
    + destruct (Z.eqb_spec (code r) (-4004)) as [H4|H4]; simpl.
      * specialize (IH (<[did r := VNone]> sd) (c + 1)).
        destruct (loop _ _ rest) as [[sd' c']|e].
        -- destruct (decide (failed_4004 r)) as [|Hn]; [simpl; lia|].
           exfalso. apply Hn. exact H4.
        -- intros Hall. inversion Hall; subst. contradiction.
      * specialize (IH (<[did r := VNone]> sd) c).
        destruct (loop _ _ rest) as [[sd' c']|e].
        -- destruct (decide (failed_4004 r)) as [Hy|]; [contradiction|]. exact IH.
        -- intros Hall. inversion Hall; subst. contradiction.
Qed.

(** the test [count4004 == len(response)] at the end of the loop *)
Lemma loop_all_4004 cp response sd c :
  loop cp (∅, 0) response = Ok (sd, c) ->
  (c =? Z.of_nat (length response)) = true <-> Forall failed_4004 response.
Proof.
  intros Hl. pose proof (loop_count cp response ∅ 0) as Hc.
  rewrite Hl in Hc.
  rewrite <- (filter_all_length failed_4004 response), Z.eqb_eq. lia.
Qed.

(** the flag after one call *)
Lemma assumed_state_after fetch s :
  _assumed_state (snd (async_update fetch s)) =
    match fetch with
    | Ok response =>
        if skips s then _assumed_state s
        else _assumed_state s || bool_decide (Forall failed_4004 response)
    | Raise _ => _assumed_state s
    end.
Proof.
  destruct (skips s) eqn:Hs.
  - rewrite async_update_skip by assumption. destruct fetch; reflexivity.
  - destruct fetch as [response|e].
    + rewrite async_update_response by assumption.
      pose proof (loop_count (_ctrl_params s) response ∅ 0) as Hc.
      destruct (loop _ _ response) as [[sd c]|e] eqn:Hl; simpl.
      * unfold after_loop. simpl.
        destruct (c =? Z.of_nat (length response)) eqn:Hb.
        -- apply (loop_all_4004 _ _ _ _ Hl) in Hb.
           rewrite bool_decide_eq_true_2 by assumption. simpl.
           symmetry. apply orb_true_r.
        -- rewrite bool_decide_eq_false_2, orb_false_r; [reflexivity|].
           intros Hall. apply (loop_all_4004 _ _ _ _ Hl) in Hall. congruence.
      * rewrite bool_decide_eq_false_2 by assumption.
        symmetry. apply orb_false_r.
    + destruct (decide (e = DeviceException)) as [->|He].
      * rewrite async_update_DeviceException by assumption. reflexivity.
      * rewrite async_update_raise by assumption. reflexivity.
Qed.

Lemma async_update_keeps_assumed_state fetch s :
  _assumed_state s = true -> _assumed_state (snd (async_update fetch s)) = true.
Proof.
  intros H. rewrite assumed_state_after, H.
  destruct fetch, (skips s); reflexivity.
Qed.

Lemma run_updates_keeps_assumed_state fetches : forall s,
  _assumed_state s = true -> _assumed_state (run_updates fetches s) = true.
Proof.
  unfold run_updates.
  induction fetches as [|fetch rest IH]; intros s H; simpl; [exact H|].
  apply IH, async_update_keeps_assumed_state, H.
Qed.

(** ** The loop: the dictionary *)

Lemma loop_lookup_other cp response : forall sd c sd' c' d,
  loop cp (sd, c) response = Ok (sd', c') ->
  d ∉ did <$> response ->
  sd' !! d = sd !! d.
Proof.
  induction response as [|r rest IH]; intros sd c sd' c' d Hl Hd;
    cbn [loop fmap list_fmap] in *.
  - congruence.
  - apply not_elem_of_cons in Hd as [Hne Hd].
    destruct (loop_body cp (sd, c) r) as [[sd1 c1]|e] eqn:Hb; cbn [rbind] in Hl;
      [|discriminate].
    rewrite (IH _ _ _ _ _ Hl Hd).
    unfold loop_body in Hb.
    destruct (code r =? 0).
    + destruct (scaled cp r); simpl in Hb; inversion Hb; subst.
      apply lookup_insert_ne. congruence.
    + destruct (code r =? -4004); inversion Hb; subst;
        apply lookup_insert_ne; congruence.
Qed.

(** what the loop stores for an entry, when the property is reported once *)
Lemma loop_lookup cp response : forall sd c sd' c' r,
  loop cp (sd, c) response = Ok (sd', c') ->
  NoDup (did <$> response) ->
  r ∈ response ->
  sd' !! did r =
    Some (if code r =? 0 then
            match scaled cp r with Ok y => y | Raise _ => VNone end
          else VNone)
  /\ (code r = 0 -> exists y, scaled cp r = Ok y).
Proof.
  induction response as [|r0 rest IH]; intros sd c sd' c' r Hl Hnd Hin;
    cbn [loop fmap list_fmap] in *.
  - inversion Hin.
  - apply NoDup_cons in Hnd as [Hfresh Hnd].
    destruct (loop_body cp (sd, c) r0) as [[sd1 c1]|e] eqn:Hb; cbn [rbind] in Hl;
      [|discriminate].
    apply elem_of_cons in Hin as [->|Hin].
    + rewrite (loop_lookup_other _ _ _ _ _ _ _ Hl Hfresh).
      unfold loop_body in Hb.
      destruct (Z.eqb_spec (code r0) 0) as [H0|H0].
      * destruct (scaled cp r0) as [y|]; simpl in Hb; inversion Hb; subst.
        split; [apply lookup_insert_eq|eauto].
      * split; [|contradiction].
        destruct (code r0 =? -4004); inversion Hb; subst; apply lookup_insert_eq.
    + eapply IH; eassumption.
Qed.

(** with a ratio the product is stored, rounded; without, the value itself *)
Lemma scaled_ok cp r v y :
  value r = Some v ->
  scaled cp r = Ok y ->
  match value_ratio cp (did r) with
  | Some f => (x <~ py_mul_val v f ;; py_round3 x) = Ok y
  | None => y = v
  end.
Proof.
  intros Hv. unfold scaled, value_ratio, except_KeyError, getattr, required.
  rewrite Hv. simpl.
  destruct (cp !! did r) as [p|]; simpl; [|congruence].
  destruct (p !! "value_ratio") as [f|]; simpl; [|congruence].
  destruct (py_mul_val v f) as [x|e] eqn:Hm; simpl.
  - destruct (py_round3 x) as [y'|e] eqn:Hr; [trivial|].
    apply py_round3_raises in Hr. subst e. discriminate.
  - apply py_mul_val_raises in Hm. destruct Hm; subst e; discriminate.
Qed.

(** ** The primary state *)

Lemma async_update_state_cached fetch s s' :
  skips s = false ->
  async_update fetch s = (Ok tt, s') ->
  state_cached s'.
Proof.
  intros Hs. unfold state_cached. destruct fetch as [response|e].
  - rewrite async_update_response by assumption.
    destruct (loop _ _ _); intros H; inversion H; subst. reflexivity.
  - destruct (decide (e = DeviceException)) as [->|He].
    + rewrite async_update_DeviceException by assumption.
      intros H; inversion H; subst. reflexivity.
    + rewrite async_update_raise by assumption. discriminate.
Qed.

(** with a configured [sensor_property], the state is that attribute *)
Lemma async_update_state_configured fetch s s' p :
  skips s = false ->
  _sensor_property s = Some p ->
  async_update fetch s = (Ok tt, s') ->
  _state s' = dict_get (_state_attrs s') p.
Proof.
  intros Hs Hp Hu.
  pose proof (async_update_state_cached _ _ _ Hs Hu) as Hc.
  unfold state_cached, primary in Hc.
  assert (Hp' : _sensor_property s' = Some p).
  { destruct fetch as [response|e].
    - rewrite async_update_response in Hu by assumption.
      destruct (loop _ _ _) as [[sd c]|]; inversion Hu; subst.
      unfold after_loop. simpl. destruct (c =? _); exact Hp.
    - destruct (decide (e = DeviceException)) as [->|He].
      + rewrite async_update_DeviceException in Hu by assumption.
        inversion Hu; subst. exact Hp.
      + rewrite async_update_raise in Hu by assumption. discriminate. }
  rewrite Hp' in Hc. exact Hc.
Qed.

(** without one, the state is None, whatever the attributes *)
Lemma async_update_state_unconfigured fetch s s' :
  skips s = false ->
  _sensor_property s = None ->
  async_update fetch s = (Ok tt, s') ->
  _state s' = VNone.
Proof.
  intros Hs Hp Hu. destruct fetch as [response|e].
  - rewrite async_update_response in Hu by assumption.
    destruct (loop _ _ _) as [[sd c]|]; inversion Hu; subst.
    unfold after_loop, primary. simpl. destruct (c =? _); simpl; rewrite Hp; reflexivity.
  - destruct (decide (e = DeviceException)) as [->|He].
    + rewrite async_update_DeviceException in Hu by assumption.
      inversion Hu; subst. unfold primary. simpl. rewrite Hp. reflexivity.
    + rewrite async_update_raise in Hu by assumption. discriminate.
Qed.

Lemma loop_dom cp response : forall sd c sd' c' k,
  loop cp (sd, c) response = Ok (sd', c') ->
  is_Some (sd' !! k) <-> is_Some (sd !! k) \/ k ∈ did <$> response.
Proof.
  induction response as [|r rest IH]; intros sd c sd' c' k Hl;
    cbn [loop fmap list_fmap] in *.
  - injection Hl as <- <-. rewrite elem_of_nil. tauto.
  - destruct (loop_body cp (sd, c) r) as [[sd1 c1]|e] eqn:Hb; cbn [rbind] in Hl;
      [|discriminate].
    rewrite (IH _ _ _ _ k Hl), elem_of_cons.
    assert (Hsd1 : exists y, sd1 = <[did r := y]> sd).
    { unfold loop_body in Hb. destruct (code r =? 0).
      - destruct (scaled cp r) as [y|]; simpl in Hb; inversion Hb; eauto.
      - destruct (code r =? -4004); inversion Hb; eauto. }
    destruct Hsd1 as [y ->]. rewrite lookup_insert_is_Some.
    destruct (decide (did r = k)) as [->|Hne]; [tauto|].
    intuition congruence.
Qed.

Lemma after_loop_state_attrs response acc s v :
  _state_attrs (set_state v (after_loop response acc s)) =
    fst acc ∪ _state_attrs s.
Proof. unfold after_loop. simpl. destruct (snd acc =? _); reflexivity. Qed.

Lemma async_update_skips fetch s :
  skips s = false -> skips (snd (async_update fetch s)) = false.
Proof.
  intros Hs. destruct fetch as [response|e].
  - rewrite async_update_response by assumption.
    destruct (loop _ _ _) as [[sd c]|]; simpl; [|exact Hs].
    unfold after_loop. simpl. destruct (c =? _); exact Hs.
  - destruct (decide (e = DeviceException)) as [->|He].
    + rewrite async_update_DeviceException by assumption. exact Hs.
    + rewrite async_update_raise by assumption. exact Hs.
Qed.

(** a failed poll after a poll that has cached the state: only the
    availability flag changes *)
Lemma async_update_failed_cached s :
  skips s = false ->
  state_cached s ->
  async_update (Raise DeviceException) s = (Ok tt, set_available false s).
Proof.
  intros Hs Hc. rewrite async_update_DeviceException by assumption.
  unfold state_cached in Hc. f_equal.
  replace (primary (set_available false s)) with (_state s) by exact Hc.
  destruct s; reflexivity.
Qed.

End SensorFacts.

(** * Properties of the light *)

Module LightFacts.
Import Py PyVal Miot Light.

Lemma set_brightness_id s : set_brightness (_brightness s) s = s.
Proof. destruct s; reflexivity. Qed.

Lemma set_color_temp_id s : set_color_temp (_color_temp s) s = s.
Proof. destruct s; reflexivity. Qed.

Lemma update_state_attrs_empty s : update_state_attrs ∅ s = s.
Proof. destruct s; unfold update_state_attrs; simpl. by rewrite (left_id_L ∅ (∪)). Qed.

Lemma tolerated_inv {A} (r : result A) :
  tolerated r -> (exists a, r = Ok a) \/ r = Raise KeyError.
Proof. destruct r as [a|[]]; simpl; intros H; try contradiction; eauto. Qed.

Lemma getattr_Some {V} (d : gmap string V) k v : d !! k = Some v -> getattr d k = Ok v.
Proof. unfold getattr. intros ->. reflexivity. Qed.

Lemma getattr_None {V} (d : gmap string V) k : d !! k = None -> getattr d k = Raise KeyError.
Proof. unfold getattr. intros ->. reflexivity. Qed.

Section Steps.
Variable color_temperature_kelvin_to_mired : pyval -> result pyval.
Let k2m := color_temperature_kelvin_to_mired.

Variable statedict : gmap string pyval.
Variable cp : ctrl_params.

Lemma update_state_eq state on off s :
  get_power_on cp = Ok on ->
  get_power_off cp = Ok off ->
  update_state state cp s = (Ok tt, set_state (state_of state on off) s).
Proof.
  intros Hon Hoff. unfold update_state, state_of, bind, lift, modify.
  rewrite Hon. destruct (py_eq state on); [reflexivity|].
  rewrite Hoff. destruct (py_eq state off); reflexivity.
Qed.

(** a step changes its own attribute only, and nothing when its property
    is missing from the poll *)
Lemma update_brightness_shape s r s' :
  update_brightness statedict cp s = (r, s') ->
  exists b, s' = set_brightness b s /\
    (statedict !! "brightness" = None -> b = _brightness s /\ r = Ok tt).
Proof.
  unfold update_brightness, try_except, bind, lift, modify, ret, getattr.
  destruct (statedict !! "brightness") as [v|]; simpl.
  - destruct (convert_value _ _ _ _ _) as [b|e]; simpl.
    + intros [= <- <-]. exists (VInt b). split; [reflexivity|discriminate].
    + destruct (is_KeyError e); intros [= <- <-];
        exists (_brightness s); (split; [symmetry; apply set_brightness_id|discriminate]).
  - intros [= <- <-]. exists (_brightness s).
    split; [symmetry; apply set_brightness_id|auto].
Qed.

Lemma update_brightness_ok s :
  (forall v, statedict !! "brightness" = Some v ->
     tolerated (convert_value binary64 cp (as_num v) "brightness" false)) ->
  fst (update_brightness statedict cp s) = Ok tt.
Proof.
  intros Ht.
  unfold update_brightness, try_except, bind, lift, modify, ret, getattr.
  destruct (statedict !! "brightness") as [v|]; simpl; [|reflexivity].
  destruct (tolerated_inv _ (Ht v eq_refl)) as [[b ->]| ->]; reflexivity.
Qed.

Lemma update_color_temp_shape s r s' :
  update_color_temp k2m statedict s = (r, s') ->
  exists c, s' = set_color_temp c s /\
    (statedict !! "color_temperature" = None -> c = _color_temp s /\ r = Ok tt).
Proof.
  unfold update_color_temp, try_except, bind, lift, modify, ret, getattr.
  destruct (statedict !! "color_temperature") as [v|]; simpl.
  - destruct (k2m v) as [c|e]; simpl.
    + intros [= <- <-]. exists c. split; [reflexivity|discriminate].
    + destruct (is_KeyError e); intros [= <- <-];
        exists (_color_temp s); (split; [symmetry; apply set_color_temp_id|discriminate]).
  - intros [= <- <-]. exists (_color_temp s).
    split; [symmetry; apply set_color_temp_id|auto].
Qed.

Lemma update_color_temp_ok s :
  (forall v, statedict !! "color_temperature" = Some v -> tolerated (k2m v)) ->
  fst (update_color_temp k2m statedict s) = Ok tt.
Proof.
  intros Ht.
  unfold update_color_temp, try_except, bind, lift, modify, ret, getattr.
  destruct (statedict !! "color_temperature") as [v|]; simpl; [|reflexivity].
  destruct (tolerated_inv _ (Ht v eq_refl)) as [[b ->]| ->]; reflexivity.
Qed.

Lemma update_attr_color_temperature_eq s :
  update_attr_color_temperature statedict s =
    (Ok tt, update_state_attrs
              (present "color_temperature" (statedict !! "color_temperature")) s).
Proof.
  unfold update_attr_color_temperature, try_except, bind, lift, modify, ret,
    getattr, present.
  destruct (statedict !! "color_temperature"); simpl; [reflexivity|].
  by rewrite update_state_attrs_empty.
Qed.

Lemma update_attr_effect_eq s :
  update_attr_effect statedict s =
    (Ok tt, update_state_attrs (present "effect" (statedict !! "mode")) s).
Proof.
  unfold update_attr_effect, try_except, bind, lift, modify, ret, getattr, present.
  destruct (statedict !! "mode"); simpl; [reflexivity|].
  by rewrite update_state_attrs_empty.
Qed.

Lemma code_to_effect_raises modes v e :
  code_to_effect modes v = Raise e -> e = KeyError.
Proof.
  unfold code_to_effect. destruct (as_int_key v) as [k|]; [|congruence].
  induction modes as [|[k' l] modes IH]; simpl; [congruence|].
  destruct (decide (k = k')); [discriminate|exact IH].
Qed.

(** the last step never fails, and clears the effect without a mode *)
Lemma update_effect_eq s :
  exists e, update_effect statedict cp s = (Ok tt, set_effect e s) /\
    (statedict !! "mode" = None -> e = VNone).
Proof.
  unfold update_effect, try_except, bind, lift, modify, ret, getattr, required.
  destruct (mode cp) as [modes|]; simpl; [|eauto].
  destruct (statedict !! "mode") as [v|]; simpl; [|eauto].
  destruct (code_to_effect modes v) as [l|e] eqn:Hc; simpl.
  - exists (VStr l). split; [reflexivity|discriminate].
  - apply code_to_effect_raises in Hc. subst e. simpl.
    exists VNone. split; [reflexivity|discriminate].
Qed.
End Steps.

Lemma bind_Ok_inv {S A B} (m : M S A) (k : A -> M S B) s b s' :
  bind m k s = (Ok b, s') ->
  exists a s1, m s = (Ok a, s1) /\ k a s1 = (Ok b, s').
Proof.
  unfold bind. destruct (m s) as [[a|e] s1]; [eauto|discriminate].
Qed.

Lemma bind_Ok {S A B} (m : M S A) (k : A -> M S B) s a s1 :
  m s = (Ok a, s1) -> bind m k s = k a s1.
Proof. unfold bind. intros ->. reflexivity. Qed.

Section Poll.
Variable color_temperature_kelvin_to_mired : pyval -> result pyval.
Let k2m := color_temperature_kelvin_to_mired.

Lemma poll_Ok_inv response s s' :
  poll k2m (Ok response) s = (Ok tt, s') -> polled response s s'.
Proof.
  unfold poll, polled. cbv zeta. intros H.
  apply bind_Ok_inv in H as (resp & s0 & H0 & H). injection H0 as <- <-.
  cbv zeta in H. remember (build_statedict response) as statedict eqn:Hsd.
  clear Hsd.
  apply bind_Ok_inv in H as (state & s0 & H0 & H).
  unfold lift, getattr in H0.
  destruct (statedict !! "switch_status") as [state'|] eqn:Hsw; [|discriminate].
  injection H0 as <- <-.
  apply bind_Ok_inv in H as ([] & s1 & H1 & H). injection H1 as <-.
  apply bind_Ok_inv in H as (cp & s1' & H1 & H). injection H1 as <- <-.
  apply bind_Ok_inv in H as ([] & s2 & H2 & H).
  assert (exists st, s2 = set_state st (set_available true s)) as [st ->].
  { revert H2. unfold update_state, bind, lift, modify. simpl.
    destruct (get_power_on _) as [on|]; [|discriminate].
    destruct (py_eq state' on); [intros [= <-]; eauto|].
    destruct (get_power_off _) as [off|]; [|discriminate].
    destruct (py_eq state' off); intros [= <-]; eauto. }
  apply bind_Ok_inv in H as ([] & s3 & H3 & H). injection H3 as <-.
  apply bind_Ok_inv in H as ([] & s4 & H4 & H).
  apply update_brightness_shape in H4 as (b & -> & Hb).
  apply bind_Ok_inv in H as ([] & s5 & H5 & H).
  apply update_color_temp_shape in H5 as (c & -> & Hc).
  apply bind_Ok_inv in H as ([] & s6 & H6 & H).
  rewrite update_attr_color_temperature_eq in H6. injection H6 as <-.
  apply bind_Ok_inv in H as ([] & s7 & H7 & H).
  rewrite update_attr_effect_eq in H7. injection H7 as <-.
  match type of H with
  | update_effect ?sd ?cp ?s0 = _ =>
      destruct (update_effect_eq sd cp s0) as (e & He & Hmode)
  end.
  rewrite He in H. injection H as <-.
  exists state', st, b, c, e. repeat split.
  - intros Hn. apply (Hb Hn).
  - intros Hn. apply (Hc Hn).
  - exact Hmode.
Qed.

(** a poll runs to its end when the switch is answered, the sentinels are
    configured and no conversion of a property that is present fails *)
Lemma poll_Ok response s state on off :
  let statedict := build_statedict response in
  statedict !! "switch_status" = Some state ->
  get_power_on (_ctrl_params s) = Ok on ->
  get_power_off (_ctrl_params s) = Ok off ->
  (forall v, statedict !! "brightness" = Some v ->
     tolerated (convert_value binary64 (_ctrl_params s) (as_num v) "brightness" false)) ->
  (forall v, statedict !! "color_temperature" = Some v -> tolerated (k2m v)) ->
  exists s', poll k2m (Ok response) s = (Ok tt, s').
Proof.
  unfold poll. cbv zeta. intros Hsw Hon Hoff Hb Hc.
  erewrite bind_Ok by reflexivity. cbv zeta.
  remember (build_statedict response) as statedict eqn:Hsd. clear Hsd.
  erewrite bind_Ok by (unfold lift; rewrite (getattr_Some _ _ _ Hsw); reflexivity).
  erewrite bind_Ok by reflexivity.
  erewrite bind_Ok by reflexivity. simpl.
  erewrite bind_Ok by (apply update_state_eq; eassumption).
  erewrite bind_Ok by reflexivity.
  match goal with
  | |- context [bind (update_brightness ?sd ?cp) _ ?s0] =>
      pose proof (update_brightness_ok sd cp s0 Hb) as Hbo;
      destruct (update_brightness sd cp s0) as [rb sb] eqn:Eb
  end.
  simpl in Hbo. subst rb. erewrite bind_Ok by exact Eb.
  match goal with
  | |- context [bind (update_color_temp ?f ?sd) _ ?s0] =>
      pose proof (update_color_temp_ok f sd s0 Hc) as Hco;
      destruct (update_color_temp f sd s0) as [rc sc] eqn:Ec
  end.
  simpl in Hco. subst rc. erewrite bind_Ok by exact Ec.
  erewrite bind_Ok by apply update_attr_color_temperature_eq.
  erewrite bind_Ok by apply update_attr_effect_eq.
  match goal with
  | |- context [update_effect ?sd ?cp ?s0] =>
      destruct (update_effect_eq sd cp s0) as (e & He & _)
  end.
  rewrite He. eauto.
Qed.

Lemma poll_switch_missing response s :
  build_statedict response !! "switch_status" = None ->
  poll k2m (Ok response) s = (Raise KeyError, s).
Proof.
  intros Hsw. unfold poll, bind, lift. simpl.
  rewrite (getattr_None _ _ Hsw). reflexivity.
Qed.

(** [async_update] on top of the poll *)
Lemma async_update_poll_Ok fetch s s' :
  skips s = false ->
  poll k2m fetch s = (Ok tt, s') ->
  async_update k2m fetch s = (Ok tt, s').
Proof.
  intros Hs Hp. unfold async_update, try_except. rewrite Hs, Hp. reflexivity.
Qed.

Lemma async_update_poll_raise fetch s e s' :
  skips s = false ->
  e <> DeviceException ->
  poll k2m fetch s = (Raise e, s') ->
  async_update k2m fetch s = (Raise e, s').
Proof.
  intros Hs He Hp. unfold async_update, try_except. rewrite Hs, Hp.
  unfold is_DeviceException. rewrite bool_decide_eq_false_2 by assumption.
  reflexivity.
Qed.

Lemma light_update_DeviceException s :
  skips s = false ->
  async_update k2m (Raise DeviceException) s = (Ok tt, set_available false s).
Proof.
  intros Hs. unfold async_update, try_except. rewrite Hs. reflexivity.
Qed.
End Poll.

(** ** The mode table *)

Lemma list_index_lookup {V} `{EqDecision V} (x : V) (l : list V) i :
  list_index x l = Ok i -> l !! i = Some x.
Proof.
  revert i. induction l as [|y l IH]; intros i; simpl; [discriminate|].
  destruct (decide (y = x)) as [->|Hne].
  - intros [= <-]. reflexivity.
  - destruct (list_index x l) as [j|] eqn:Hj; simpl; [|discriminate].
    intros [= <-]. simpl. apply IH. reflexivity.
Qed.

Lemma list_index_elem {V} `{EqDecision V} (x : V) (l : list V) :
  x ∈ l -> exists i, list_index x l = Ok i.
Proof.
  induction l as [|y l IH]; intros Hin; [inversion Hin|]. simpl.
  destruct (decide (y = x)) as [->|Hne]; [eauto|].
  apply elem_of_cons in Hin as [->|Hin]; [contradiction|].
  destruct (IH Hin) as [i ->]. simpl. eauto.
Qed.


Lemma getitem_lookup {V} (d : list (Z * V)) (k : Z) (v : V) i :
  NoDup (d.*1) -> d !! i = Some (k, v) -> getitem d k = Ok v.
Proof.
  revert i. induction d as [|[k' v'] d IH]; intros i Hnd Hi; [discriminate|].
  simpl in Hnd. apply NoDup_cons in Hnd as [Hfresh Hnd]. simpl.
  destruct i as [|i]; simpl in Hi.
  - injection Hi as -> ->. rewrite decide_True by reflexivity. reflexivity.
  - destruct (decide (k = k')) as [->|Hne].
    + exfalso. apply Hfresh. apply list_elem_of_fmap. exists (k', v).
      split; [reflexivity|]. eapply list_elem_of_lookup_2. exact Hi.
    + eapply IH; eassumption.
Qed.

Lemma effect_to_code_lookup modes label k :
  effect_to_code modes label = Ok k ->
  exists i, modes !! i = Some (k, label).
Proof.
  unfold effect_to_code, index.
  destruct (list_index label (modes.*2)) as [i|] eqn:Hi; simpl; [|discriminate].
  apply list_index_lookup in Hi.
  destruct (modes.*1 !! i) as [k'|] eqn:Hk; [|discriminate].
  intros [= <-]. exists i.
  rewrite list_lookup_fmap in Hi. rewrite list_lookup_fmap in Hk.
  destruct (modes !! i) as [[k0 l0]|]; simpl in *; congruence.
Qed.

Lemma effect_to_code_elem modes label :
  label ∈ modes.*2 -> exists k, effect_to_code modes label = Ok k.
Proof.
  intros Hin. unfold effect_to_code, index.
  destruct (list_index_elem label (modes.*2) Hin) as [i Hi]. rewrite Hi. simpl.
  apply list_index_lookup in Hi.
  rewrite list_lookup_fmap in Hi. rewrite list_lookup_fmap.
  destruct (modes !! i) as [[k l]|]; simpl in *; [eauto|discriminate].
Qed.

Lemma code_to_effect_int modes k : code_to_effect modes (VInt k) = getitem modes k.
Proof. reflexivity. Qed.

(** ** async_turn_on: the colour temperature *)


End LightFacts.

(** * The brightness round trip under the standard model *)

Module RoundTrip.
Import Py PyVal Miot Light.
Local Open Scope Q_scope.

Lemma round_half_even_near q :
  inject_Z (round_half_even q) - q <= 1 # 2 /\
  q - inject_Z (round_half_even q) <= 1 # 2.
Proof.
  unfold round_half_even.
  pose proof (Qfloor_le q) as Hlo. pose proof (Qlt_floor q) as Hhi.
  rewrite inject_Z_plus in Hhi.
  destruct (Qcompare (q - inject_Z (Qfloor q)) (1 # 2)) eqn:Hc.
  - apply Qeq_alt in Hc.
    destruct (Z.even (Qfloor q)); [|rewrite inject_Z_plus];
      hide_inject_Z; split; lra.
  - apply Qlt_alt in Hc. hide_inject_Z; split; lra.
  - apply Qgt_alt in Hc. rewrite inject_Z_plus. hide_inject_Z; split; lra.
Qed.

Lemma truncate_nonneg q :
  0 <= q ->
  inject_Z (truncate q) <= q /\ q < inject_Z (truncate q) + 1 /\
  (0 <= truncate q)%Z.
Proof.
  intros Hq. unfold truncate.
  destruct (Qle_bool 0 q) eqn:Hb.
  - pose proof (Qfloor_le q) as Hlo. pose proof (Qlt_floor q) as Hhi.
    rewrite inject_Z_plus in Hhi. repeat split; try assumption.
    change 0%Z with (Qfloor 0). apply Qfloor_resp_le. exact Hq.
  - apply Qle_bool_iff in Hq. congruence.
Qed.

Lemma rounds_to_nonneg eps x q :
  0 <= eps -> eps <= 1 # 1000000 -> 0 <= x ->
  rounds_to eps x q ->
  x * (999999 # 1000000) <= q /\ q <= x * (1000001 # 1000000).
Proof.
  unfold rounds_to. intros He0 He Hx H.
  rewrite (Qabs_pos x Hx) in H. apply Qabs_Qle_condition in H as [H1 H2].
  assert (eps * x <= (1 # 1000000) * x) by (apply Qmult_le_compat_r; assumption).
  split; lra.
Qed.

Lemma rounds_to_zero eps x q :
  x == 0 -> rounds_to eps x q -> q == 0.
Proof.
  unfold rounds_to. intros Hx H. rewrite Hx in H.
  change (Qabs 0) with 0 in H. rewrite Qmult_0_r in H.
  apply Qabs_Qle_condition in H as [H1 H2]. lra.
Qed.

Section Std.
Variable A : float_arith.
Variables eps omega : Q.
Hypothesis Hstd : std_model A eps omega.

Lemma eps_bounds : 0 <= eps /\ eps <= 1 # 1000000.
Proof. exact (eps_small A eps omega Hstd). Qed.

Lemma omega_pos : 0 < omega.
Proof. pose proof (omega_large A eps omega Hstd). lra. Qed.

Lemma inv_omega : 1 / omega <= 1 # 1000.
Proof.
  pose proof (omega_large A eps omega Hstd) as H. pose proof omega_pos as Hp.
  apply Qle_shift_div_r; [exact Hp|]. lra.
Qed.

(** a non-negative exact result between 1/1000 and omega is in range *)
Lemma in_range_mid x : 1 # 1000 <= x -> x <= omega -> in_range omega x.
Proof.
  intros H1 H2. right. pose proof inv_omega.
  rewrite Qabs_pos by lra. split; lra.
Qed.

Lemma in_range_zero x : x == 0 -> in_range omega x.
Proof. intros H. left. exact H. Qed.

Lemma truediv_int a b :
  (b <> 0)%Z ->
  in_range omega (inject_Z a / inject_Z b) ->
  exists f q, py_truediv A (NInt a) (NInt b) = Ok (NFloat f) /\
    val A f = Some q /\ rounds_to eps (inject_Z a / inject_Z b) q.
Proof.
  intros Hb Hr. unfold py_truediv.
  destruct (Z.eqb_spec b 0) as [|_]; [contradiction|].
  destruct (int_truediv_std A eps omega Hstd a b Hb Hr) as (q & Hv & Hq).
  rewrite Hv. eauto.
Qed.

Lemma mul_float_int f qf z :
  val A f = Some qf ->
  in_range omega (inject_Z z) ->
  (forall c, rounds_to eps (inject_Z z) c -> in_range omega (qf * c)) ->
  exists g c q, py_mul A (NFloat f) (NInt z) = Ok (NFloat g) /\
    val A g = Some q /\ rounds_to eps (inject_Z z) c /\ rounds_to eps (qf * c) q.
Proof.
  intros Hf Hz Hr. unfold py_mul, to_float, rbind.
  destruct (of_int_std A eps omega Hstd z Hz) as (c & Hc & Hcz).
  rewrite Hc.
  destruct (fmul_std A eps omega Hstd f (of_int A z) qf c Hf Hc (Hr c Hcz))
    as (q & Hq & Hqr).
  eauto 10.
Qed.

Lemma rounds_to_nonzero x c :
  ~ x == 0 -> rounds_to eps x c -> ~ c == 0.
Proof.
  intros Hx Hc Hc0. unfold rounds_to in Hc. rewrite Hc0 in Hc.
  pose proof eps_bounds as [He0 He].
  assert (Habs : Qabs (0 - x) == Qabs x).
  { rewrite <- (Qabs_opp x). apply Qabs_wd. ring. }
  rewrite Habs in Hc.
  assert (Hpos : 0 < Qabs x).
  { destruct (Qlt_le_dec 0 (Qabs x)) as [|Hle]; [assumption|].
    exfalso. apply Hx. apply Qabs_Qle_condition in Hle as [H1 H2]. lra. }
  assert (eps * Qabs x <= (1 # 1000000) * Qabs x).
  { apply Qmult_le_compat_r; [assumption|lra]. }
  lra.
Qed.

Lemma truediv_float_int f qf z :
  val A f = Some qf ->
  (z <> 0)%Z ->
  in_range omega (inject_Z z) ->
  (forall c, rounds_to eps (inject_Z z) c -> in_range omega (qf / c)) ->
  exists g c q, py_truediv A (NFloat f) (NInt z) = Ok (NFloat g) /\
    val A g = Some q /\ rounds_to eps (inject_Z z) c /\ rounds_to eps (qf / c) q.
Proof.
  intros Hf Hz0 Hz Hr. unfold py_truediv, to_float, rbind, is_zero.
  destruct (of_int_std A eps omega Hstd z Hz) as (c & Hc & Hcz).
  rewrite Hc.
  assert (Hc0 : ~ c == 0).
  { apply (rounds_to_nonzero (inject_Z z)); [|exact Hcz].
    intros H. apply Hz0. apply (inject_Z_injective z 0). exact H. }
  destruct (Qeq_bool c 0) eqn:Hb; [apply Qeq_bool_iff in Hb; contradiction|].
  destruct (fdiv_std A eps omega Hstd f (of_int A z) qf c Hf Hc Hc0 (Hr c Hcz))
    as (q & Hq & Hqr).
  simpl. rewrite Hc, Hb. eauto 10.
Qed.

(** the exact value and its rounded one, both non-negative *)
Lemma rounded_bounds x q :
  0 <= x -> rounds_to eps x q ->
  x * (999999 # 1000000) <= q /\ q <= x * (1000001 # 1000000).
Proof.
  intros Hx H. pose proof eps_bounds as [He0 He].
  exact (rounds_to_nonneg eps x q He0 He Hx H).
Qed.

(** [round(b / 255 * 100)] is the exact rounding of [100 b / 255] *)
Lemma slider_std (b : Z) :
  (0 <= b <= 255)%Z ->
  exists x1 x2 n,
    py_truediv A (NInt b) (NInt 255) = Ok x1 /\
    py_mul A x1 (NInt 100) = Ok x2 /\
    py_round A x2 = Ok n /\
    (0 <= n <= 100)%Z /\ (-127 <= 255 * n - 100 * b <= 127)%Z.
Proof.
  intros Hb. pose proof (omega_large A eps omega Hstd) as Hom.
  assert (Hb0 : inject_Z 0 <= inject_Z b) by (rewrite <- Zle_Qle; lia).
  assert (Hb255 : inject_Z b <= inject_Z 255) by (rewrite <- Zle_Qle; lia).
  assert (Hb1 : (b = 0)%Z \/ inject_Z 1 <= inject_Z b).
  { destruct (Z.eq_dec b 0%Z) as [|Hne]; [auto|right].
    rewrite <- Zle_Qle. lia. }
  (* b / 255 *)
  destruct (truediv_int b 255) as (f1 & q1 & E1 & V1 & R1); [lia| |].
  { destruct Hb1 as [->|Hb1]; [apply in_range_zero; reflexivity|].
    apply in_range_mid; hide_inject_Z; lra. }
  apply rounded_bounds in R1 as [L1 U1]; [|hide_inject_Z; lra].
  (* ... * 100 *)
  destruct (mul_float_int f1 q1 100 V1) as (f2 & c & q2 & E2 & V2 & Rc & R2).
  { apply in_range_mid; hide_inject_Z; lra. }
  { intros c Rc. apply rounded_bounds in Rc as [Lc Uc]; [|hide_inject_Z; lra].
    destruct Hb1 as [->|Hb1].
    - apply in_range_zero.
      assert (H : q1 == 0) by (hide_inject_Z; lra). rewrite H. ring.
    - apply in_range_mid; hide_inject_Z; nra. }
  apply rounded_bounds in Rc as [Lc Uc]; [|hide_inject_Z; lra].
  assert (Hq1 : 0 <= q1) by (hide_inject_Z; lra).
  assert (Hc : 0 <= c) by (hide_inject_Z; lra).
  apply rounded_bounds in R2 as [L2 U2]; [|hide_inject_Z; nra].
  exists (NFloat f1), (NFloat f2), (round_half_even q2).
  split; [exact E1|]. split; [exact E2|].
  split; [simpl; unfold float_to_int; rewrite V2; reflexivity|].
  pose proof (round_half_even_near q2) as [Hup Hdown].
  assert (Hint : (100 * b < 255 * round_half_even q2 + 128 /\
                  255 * round_half_even q2 < 100 * b + 128)%Z).
  { split; rewrite Zlt_Qlt; rewrite !inject_Z_plus, !inject_Z_mult;
      hide_inject_Z; nra. }
  lia.
Qed.

Lemma in_range_pos x : 0 <= x -> 1 / omega <= x -> x <= omega -> in_range omega x.
Proof. intros H0 H1 H2. right. rewrite Qabs_pos by exact H0. split; assumption. Qed.

Lemma inv_omega_spec : 0 < 1 / omega /\ (1 / omega) * omega == 1.
Proof.
  pose proof omega_pos as Hp. split.
  - apply Qlt_shift_div_l; [exact Hp|]. lra.
  - field. lra.
Qed.

(** [int(slider / 100 * N / s) * s]: the multiple of [s] below
    [slider * N / 100], up to the rounding of the three operations *)
Lemma device_std (n N s : Z) :
  (0 <= n <= 100)%Z -> (1 <= N)%Z -> (1 <= s)%Z ->
  inject_Z (4 * N) <= omega -> inject_Z (125 * s) <= omega ->
  exists y1 y2 y3 t,
    py_truediv A (NInt n) (NInt 100) = Ok y1 /\
    py_mul A y1 (NInt N) = Ok y2 /\
    py_truediv A y2 (NInt s) = Ok y3 /\
    py_int A y3 = Ok t /\
    (0 <= t)%Z /\
    inject_Z (100 * (t * s)) * (999994 # 1000000) <= inject_Z (n * N) /\
    inject_Z (n * N) * (999994 # 1000000) < inject_Z (100 * (t * s) + 100 * s).
Proof.
  intros Hn HN Hs HNw Hsw. pose proof (omega_large A eps omega Hstd) as Hom.
  destruct inv_omega_spec as [Hi0 Hi1]. pose proof inv_omega as Hi2.
  assert (Hn0 : inject_Z 0 <= inject_Z n) by (rewrite <- Zle_Qle; lia).
  assert (Hn100 : inject_Z n <= inject_Z 100) by (rewrite <- Zle_Qle; lia).
  assert (Hn1 : (n = 0)%Z \/ inject_Z 1 <= inject_Z n).
  { destruct (Z.eq_dec n 0%Z) as [|Hne]; [auto|right]. rewrite <- Zle_Qle. lia. }
  assert (HN1 : inject_Z 1 <= inject_Z N) by (rewrite <- Zle_Qle; lia).
  assert (Hs1 : inject_Z 1 <= inject_Z s) by (rewrite <- Zle_Qle; lia).
  rewrite inject_Z_mult in HNw, Hsw.
  (* n / 100 *)
  destruct (truediv_int n 100) as (f3 & q3 & E3 & V3 & R3); [lia| |].
  { destruct Hn1 as [->|Hn1]; [apply in_range_zero; reflexivity|].
    apply in_range_mid; hide_inject_Z; lra. }
  apply rounded_bounds in R3 as [L3 U3]; [|hide_inject_Z; lra].
  assert (Hq3 : 0 <= q3) by (hide_inject_Z; lra).
  (* ... * N *)
  destruct (mul_float_int f3 q3 N V3) as (f4 & cN & q4 & E4 & V4 & RN & R4).
  { apply in_range_mid; hide_inject_Z; lra. }
  { intros c Rc. apply rounded_bounds in Rc as [Lc Uc]; [|hide_inject_Z; lra].
    destruct Hn1 as [->|Hn1].
    - apply in_range_zero.
      assert (H : q3 == 0) by (hide_inject_Z; lra). rewrite H. ring.
    - apply in_range_mid; hide_inject_Z; nra. }
  apply rounded_bounds in RN as [LN UN]; [|hide_inject_Z; lra].
  assert (HcN : 0 <= cN) by (hide_inject_Z; lra).
  assert (Hq3cN : 0 <= q3 * cN) by (apply Qmult_le_0_compat; assumption).
  apply rounded_bounds in R4 as [L4 U4]; [|exact Hq3cN].
  assert (Hq4 : 0 <= q4) by (hide_inject_Z; nra).
  (* ... / s *)
  destruct (truediv_float_int f4 q4 s V4) as (f5 & cs & q5 & E5 & V5 & Rs & R5).
  { lia. }
  { apply in_range_mid; hide_inject_Z; lra. }
  { intros c Rc. apply rounded_bounds in Rc as [Lc Uc]; [|hide_inject_Z; lra].
    assert (Hc : 0 < c) by (hide_inject_Z; lra).
    destruct Hn1 as [->|Hn1].
    - apply in_range_zero.
      assert (H3 : q3 == 0) by (hide_inject_Z; lra).
      assert (H4 : q4 == 0) by (rewrite H3 in L4, U4; hide_inject_Z; lra).
      rewrite H4. unfold Qdiv. ring.
    - apply in_range_pos.
      + apply Qle_shift_div_l; [exact Hc|]. hide_inject_Z; lra.
      + apply Qle_shift_div_l; [exact Hc|].
        assert (Hq4low : 98 # 10000 <= q4) by (hide_inject_Z; nra).
        assert (Hic : (1 / omega) * c <= 81 # 10000).
        { assert (c <= omega * (1000001 # 125000000)) by (hide_inject_Z; lra).
          assert ((1 / omega) * c <= (1 / omega) * (omega * (1000001 # 125000000))).
          { apply Qmult_le_l; [exact Hi0|assumption]. }
          assert (Heq : (1 / omega) * (omega * (1000001 # 125000000))
                        == (1000001 # 125000000)).
          { rewrite Qmult_assoc, Hi1. ring. }
          rewrite Heq in H0. lra. }
        lra.
      + apply Qle_shift_div_r; [exact Hc|].
        assert (Hq4up : q4 <= inject_Z N * (2 # 1)) by (hide_inject_Z; nra).
        assert (Hoc : omega * (1 # 2) <= omega * c).
        { apply Qmult_le_l; [apply omega_pos|hide_inject_Z; lra]. }
        hide_inject_Z; lra. }
  apply rounded_bounds in Rs as [Ls Us]; [|hide_inject_Z; lra].
  assert (Hcs : 0 < cs) by (hide_inject_Z; lra).
  assert (Hr : (q4 / cs) * cs == q4) by (field; lra).
  assert (Hr0 : 0 <= q4 / cs).
  { apply Qle_shift_div_l; [exact Hcs|]. lra. }
  apply rounded_bounds in R5 as [L5 U5]; [|exact Hr0].
  assert (Hq5 : 0 <= q5) by lra.
  destruct (truncate_nonneg q5 Hq5) as (Ht1 & Ht2 & Ht0).
  exists (NFloat f3), (NFloat f4), (NFloat f5), (truncate q5).
  split; [exact E3|]. split; [exact E4|]. split; [exact E5|].
  split; [simpl; unfold float_to_int; rewrite V5; reflexivity|].
  split; [exact Ht0|].
  assert (Ht0' : inject_Z 0 <= inject_Z (truncate q5)) by (rewrite <- Zle_Qle; lia).
  rewrite !inject_Z_plus, !inject_Z_mult.
  remember (q4 / cs) as r eqn:Er. clear Er.
  remember (inject_Z (truncate q5)) as xt eqn:Ext. clear Ext.
  remember (inject_Z n) as xn eqn:Exn. clear Exn.
  remember (inject_Z N) as xN eqn:ExN. clear ExN.
  remember (inject_Z s) as xs eqn:Exs. clear Exs.
  hide_inject_Z.
  assert (P1 : q3 * cN <= (xn * (1 # 100) * (1000001 # 1000000))
                           * (xN * (1000001 # 1000000)))
    by (apply Qmult_le_compat_nonneg; split; assumption).
  assert (P2 : (xn * (1 # 100) * (999999 # 1000000))
                 * (xN * (999999 # 1000000)) <= q3 * cN)
    by (apply Qmult_le_compat_nonneg; split; lra).
  assert (P3 : xt * cs <= q4 * (1000001 # 1000000)) by nra.
  assert (P4 : xt * (xs * (999999 # 1000000)) <= xt * cs) by nra.
  assert (P5 : q4 * (999999 # 1000000) < (xt + 1) * cs) by nra.
  assert (P6 : (xt + 1) * cs <= (xt + 1) * (xs * (1000001 # 1000000))) by nra.
  split; nra.
Qed.

(** [round(d / N * 255)]: within a half of [255 d / N], up to the rounding
    of the two operations *)
Lemma back_std (d N : Z) :
  (0 <= d)%Z -> (1 <= N)%Z -> (d <= 2 * N)%Z ->
  inject_Z (4 * N) <= omega ->
  exists x1 x2 back,
    py_truediv A (NInt d) (NInt N) = Ok x1 /\
    py_mul A x1 (NInt 255) = Ok x2 /\
    py_round A x2 = Ok back /\
    inject_Z (2 * (back * N)) <=
      inject_Z (510 * d) * (1000004 # 1000000) + inject_Z N /\
    inject_Z (510 * d) * (999996 # 1000000) <=
      inject_Z (2 * (back * N)) + inject_Z N.
Proof.
  intros Hd HN HdN HNw. pose proof (omega_large A eps omega Hstd) as Hom.
  destruct inv_omega_spec as [Hi0 Hi1]. pose proof omega_pos as Hop.
  assert (Hd0 : inject_Z 0 <= inject_Z d) by (rewrite <- Zle_Qle; lia).
  assert (Hd1 : (d = 0)%Z \/ inject_Z 1 <= inject_Z d).
  { destruct (Z.eq_dec d 0%Z) as [|Hne]; [auto|right]. rewrite <- Zle_Qle. lia. }
  assert (HN1 : inject_Z 1 <= inject_Z N) by (rewrite <- Zle_Qle; lia).
  assert (HdN' : inject_Z d <= inject_Z (2 * N)) by (rewrite <- Zle_Qle; lia).
  rewrite inject_Z_mult in HNw, HdN'.
  assert (HN0 : ~ inject_Z N == 0) by (hide_inject_Z; lra).
  assert (Hr : (inject_Z d / inject_Z N) * inject_Z N == inject_Z d)
    by (field; exact HN0).
  assert (Hr0 : 0 <= inject_Z d / inject_Z N).
  { apply Qle_shift_div_l; hide_inject_Z; lra. }
  assert (Hr2 : inject_Z d / inject_Z N <= 2).
  { apply Qle_shift_div_r; hide_inject_Z; lra. }
  assert (Hr1 : inject_Z 1 <= inject_Z d -> 4 * (1 / omega) <= inject_Z d / inject_Z N).
  { intros H1. apply Qle_shift_div_l; [hide_inject_Z; lra|].
    assert (H4 : (1 / omega) * (4 * inject_Z N) <= (1 / omega) * omega).
    { apply Qmult_le_l; [exact Hi0|exact HNw]. }
    rewrite Hi1 in H4. hide_inject_Z; lra. }
  (* d / N *)
  destruct (truediv_int d N) as (f6 & q6 & E6 & V6 & R6); [lia| |].
  { destruct Hd1 as [->|Hd1]; [apply in_range_zero; unfold Qdiv; ring|].
    apply in_range_pos; [exact Hr0| |lra].
    specialize (Hr1 Hd1). lra. }
  apply rounded_bounds in R6 as [L6 U6]; [|exact Hr0].
  assert (Hq6 : 0 <= q6) by lra.
  (* ... * 255 *)
  destruct (mul_float_int f6 q6 255 V6) as (f7 & c & q7 & E7 & V7 & Rc & R7).
  { apply in_range_mid; hide_inject_Z; lra. }
  { intros c Rc. apply rounded_bounds in Rc as [Lc Uc]; [|hide_inject_Z; lra].
    assert (Hc : 0 <= c) by (hide_inject_Z; lra).
    destruct Hd1 as [->|Hd1].
    - apply in_range_zero.
      assert (H0 : inject_Z 0 / inject_Z N == 0) by (unfold Qdiv; ring).
      rewrite H0 in L6, U6.
      assert (H6 : q6 == 0) by lra. rewrite H6. ring.
    - specialize (Hr1 Hd1).
      apply in_range_pos; [apply Qmult_le_0_compat; assumption| |];
        remember (inject_Z d / inject_Z N) as r eqn:Er; clear Er;
        hide_inject_Z; nra. }
  apply rounded_bounds in Rc as [Lc Uc]; [|hide_inject_Z; lra].
  assert (Hc : 0 <= c) by (hide_inject_Z; lra).
  apply rounded_bounds in R7 as [L7 U7]; [|apply Qmult_le_0_compat; assumption].
  pose proof (round_half_even_near q7) as [Hup Hdown].
  exists (NFloat f6), (NFloat f7), (round_half_even q7).
  split; [exact E6|]. split; [exact E7|].
  split; [simpl; unfold float_to_int; rewrite V7; reflexivity|].
  rewrite !inject_Z_mult.
  remember (inject_Z d / inject_Z N) as r eqn:Er. clear Er.
  remember (inject_Z (round_half_even q7)) as xb eqn:Exb. clear Exb.
  remember (inject_Z d) as xd eqn:Exd. clear Exd.
  remember (inject_Z N) as xN eqn:ExN. clear ExN.
  hide_inject_Z.
  assert (P1 : q6 * c <= (r * (1000001 # 1000000)) * (255 * (1000001 # 1000000)))
    by (apply Qmult_le_compat_nonneg; split; assumption).
  assert (P2 : (r * (999999 # 1000000)) * (255 * (999999 # 1000000)) <= q6 * c)
    by (apply Qmult_le_compat_nonneg; split; lra).
  assert (P3 : xb * xN <= (q7 + (1 # 2)) * xN) by nra.
  assert (P4 : (q7 - (1 # 2)) * xN <= xb * xN) by nra.
  assert (P5 : q7 * xN <= r * xN * (2550008 # 10000)) by nra.
  assert (P6 : r * xN * (2549992 # 10000) <= q7 * xN) by nra.
  split; nra.
Qed.

Lemma round_trip_std (cp : ctrl_params) (b lo hi step : Z) :
  (0 <= b <= 255)%Z -> (0 < step)%Z -> (lo <= hi)%Z ->
  get_value_range cp "brightness" = Ok [lo; hi; step] ->
  inject_Z (4 * (hi - lo + 1)) <= omega ->
  inject_Z (125 * step) <= omega ->
  exists d back,
    convert_value A cp (Some (NInt b)) "brightness" true = Ok d /\
    convert_value A cp (Some (NInt d)) "brightness" false = Ok back /\
    within_step lo hi step 2 b back.
Proof.
  intros Hb Hs Hlh Hvr HNw Hsw.
  set (N := (hi - lo + 1)%Z) in *.
  assert (HN : (1 <= N)%Z) by (unfold N; lia).
  destruct (slider_std b Hb) as (x1 & x2 & n & E1 & E2 & E3 & Hn & Hnb).
  destruct (device_std n N step Hn HN ltac:(lia) HNw Hsw)
    as (y1 & y2 & y3 & t & F1 & F2 & F3 & F4 & Ht & Hd1 & Hd2).
  assert (HnN : (0 <= n * N <= 100 * N)%Z) by nia.
  assert (Hd : (0 <= t * step)%Z) by nia.
  assert (HdN : (t * step <= 2 * N)%Z).
  { rewrite Zle_Qle. revert Hd1.
    assert (H1 : inject_Z (n * N) <= inject_Z (100 * N)) by (rewrite <- Zle_Qle; lia).
    revert H1. rewrite (inject_Z_mult 100), (inject_Z_mult 100), (inject_Z_mult 2).
    generalize (inject_Z (t * step)) (inject_Z (n * N)).
    assert (H0 : inject_Z 1 <= inject_Z N) by (rewrite <- Zle_Qle; lia).
    revert H0. generalize (inject_Z N). intros xN H0 xd xnN H1 H2.
    cbv [inject_Z] in *. lra. }
  destruct (back_std (t * step) N Hd HN HdN HNw)
    as (z1 & z2 & back & G1 & G2 & G3 & Hb1 & Hb2).
  exists (t * step)%Z, back.
  split; [|split].
  - unfold convert_value. rewrite Hvr. cbn [rbind operand index lookup list_lookup].
    rewrite E1. cbn [rbind]. rewrite E2. cbn [rbind]. rewrite E3. cbn [rbind].
    rewrite F1. cbn [rbind]. fold N. rewrite F2. cbn [rbind].
    rewrite F3. cbn [rbind]. rewrite F4. reflexivity.
  - unfold convert_value. rewrite Hvr. cbn [rbind operand index lookup list_lookup].
    fold N. rewrite G1. cbn [rbind]. rewrite G2. cbn [rbind]. exact G3.
  - unfold within_step. fold N.
    assert (HbN : (0 <= b * N <= 255 * N)%Z) by nia.
    assert (I1 : (100 * (b * N) <= 255 * (n * N) + 127 * N)%Z) by nia.
    assert (I2 : (255 * (n * N) <= 100 * (b * N) + 127 * N)%Z) by nia.
    assert (Hgoal : (back * N - b * N <= 255 * step + 2 * N /\
                     b * N - back * N <= 255 * step + 2 * N)%Z).
    { assert (H0 : inject_Z 1 <= inject_Z N) by (rewrite <- Zle_Qle; lia).
      assert (Hs0 : inject_Z 1 <= inject_Z step) by (rewrite <- Zle_Qle; lia).
      rewrite !Zle_Qle in *.
      rewrite <- !Z.add_opp_r.
      rewrite ?inject_Z_plus, ?inject_Z_opp in *.
      rewrite ?(inject_Z_mult 2), ?(inject_Z_mult 100), ?(inject_Z_mult 255),
        ?(inject_Z_mult 127), ?(inject_Z_mult 510) in *.
      destruct HbN as [HbN0 HbN1]. destruct HnN as [HnN0 HnN1].
      revert Hd1 Hd2 Hb1 Hb2 I1 I2 HbN0 HbN1 HnN0 HnN1 Hd.
      revert H0 Hs0.
      generalize (inject_Z (t * step)) (inject_Z (n * N)) (inject_Z (b * N))
        (inject_Z (back * N)) (inject_Z N) (inject_Z step).
      intros xd xnN xbN xkN xN xs. cbv [inject_Z]. intros. split; lra. }
    destruct Hgoal as [Hg1 Hg2]. nia.
Qed.

End Std.

(** exact arithmetic follows the standard model, with any error bound *)
Lemma exact_std_model eps omega :
  0 <= eps -> eps <= 1 # 1000000 -> 1000 <= omega ->
  std_model exact eps omega.
Proof.
  intros He0 He Hom.
  assert (Hexact : forall x, rounds_to eps x x).
  { intros x. unfold rounds_to.
    assert (H0 : x - x == 0) by ring. rewrite H0. change (Qabs 0) with 0.
    apply Qmult_le_0_compat; [exact He0|apply Qabs_nonneg]. }
  constructor.
  - split; assumption.
  - exact Hom.
  - intros z _. exists (inject_Z z). split; [reflexivity|apply Hexact].
  - intros a b _ _. eexists. split; [reflexivity|apply Hexact].
  - intros x y qx qy [= <-] [= <-] _. eexists. split; [reflexivity|apply Hexact].
  - intros x y qx qy [= <-] [= <-] _ _. eexists. split; [reflexivity|apply Hexact].
Qed.

End RoundTrip.

(** * IEEE 754 binary64 follows the standard model

    The operations of the primitive floats are specified by [SpecFloat]
    ([FloatAxioms]); their results are shown to carry a relative error of at
    most [2^-52] as long as they are zero or of a magnitude within
    [[2^-1000, 2^1000]]. *)

Module Binary64Model.
Import Py.

(** ** The number of digits *)

Lemma digits2_pos_size p : digits2_pos p = Pos.size p.
Proof. induction p; simpl; congruence. Qed.

Lemma digits2_pos_bounds p :
  2 ^ (Zpos (digits2_pos p) - 1) <= Zpos p < 2 ^ Zpos (digits2_pos p).
Proof.
  rewrite digits2_pos_size. split.
  - pose proof (Pos.size_le p) as H.
    assert (H2 : 2 ^ Zpos (Pos.size p) <= 2 * Zpos p).
    { change (2 * Zpos p) with (Zpos p~0).
      rewrite <- (Pos2Z.inj_pow 2 (Pos.size p)). apply Pos2Z.pos_le_pos, H. }
    replace (Zpos (Pos.size p)) with (Z.succ (Zpos (Pos.size p) - 1)) in H2 by lia.
    rewrite Z.pow_succ_r in H2 by lia. lia.
  - pose proof (Pos.size_gt p) as H.
    rewrite <- (Pos2Z.inj_pow 2 (Pos.size p)). apply Pos2Z.pos_lt_pos, H.
Qed.

Lemma digits2_pos_unique p k :
  2 ^ (k - 1) <= Zpos p < 2 ^ k -> Zpos (digits2_pos p) = k.
Proof.
  intros [Hl Hu]. destruct (digits2_pos_bounds p) as [Dl Du].
  set (d := Zpos (digits2_pos p)) in *.
  assert (0 < d) by (unfold d; lia).
  destruct (Z.lt_trichotomy d k) as [Hlt|[Heq|Hgt]]; [|exact Heq|].
  - assert (0 <= k - 1) by lia.
    assert (2 ^ d <= 2 ^ (k - 1)) by (apply Z.pow_le_mono_r; lia). lia.
  - assert (0 < k).
    { destruct (Z.le_gt_cases k 0) as [Hk|Hk]; [|exact Hk].
      destruct (Z.eq_dec k 0) as [->|Hne]; [simpl in Hu; lia|].
      rewrite Z.pow_neg_r in Hu by lia. lia. }
    assert (2 ^ k <= 2 ^ (d - 1)) by (apply Z.pow_le_mono_r; lia). lia.
Qed.

(** ** Shifting to the right *)

Lemma shr_1_m mrs : 0 <= shr_m mrs -> shr_m (shr_1 mrs) = Z.div2 (shr_m mrs).
Proof.
  destruct mrs as [m r s]. simpl. intros Hm.
  destruct m as [|[p|p|]|p]; try reflexivity; lia.
Qed.

Lemma shr_1_nonneg mrs : 0 <= shr_m mrs -> 0 <= shr_m (shr_1 mrs).
Proof. intros H. rewrite shr_1_m by exact H. apply Z.div2_nonneg, H. Qed.

Lemma pow2_xO p : 2 ^ Zpos p~0 = 2 ^ Zpos p * 2 ^ Zpos p.
Proof. rewrite <- Z.pow_add_r by lia. f_equal. lia. Qed.

Lemma pow2_xI p : 2 ^ Zpos p~1 = 2 * (2 ^ Zpos p * 2 ^ Zpos p).
Proof.
  rewrite <- Z.pow_add_r, <- Z.pow_succ_r by lia. f_equal. lia.
Qed.

Lemma iter_shr_1_m p : forall mrs,
  0 <= shr_m mrs ->
  shr_m (SpecFloat.iter_pos shr_1 p mrs) = shr_m mrs / 2 ^ Zpos p /\
  0 <= shr_m (SpecFloat.iter_pos shr_1 p mrs).
Proof.
  induction p as [p IH|p IH|]; intros mrs Hm; simpl SpecFloat.iter_pos.
  - pose proof (shr_1_nonneg mrs Hm) as H1.
    destruct (IH (shr_1 mrs) H1) as [E1 N1].
    destruct (IH _ N1) as [E2 N2]. split; [|exact N2].
    rewrite E2, E1, shr_1_m by exact Hm.
    assert (Hp : 0 < 2 ^ Zpos p) by (apply Z.pow_pos_nonneg; lia).
    rewrite Z.div2_div, !Z.div_div by lia.
    rewrite pow2_xI. f_equal; ring.
  - destruct (IH mrs Hm) as [E1 N1].
    destruct (IH _ N1) as [E2 N2]. split; [|exact N2].
    assert (Hp : 0 < 2 ^ Zpos p) by (apply Z.pow_pos_nonneg; lia).
    rewrite E2, E1, Z.div_div by lia.
    rewrite pow2_xO. reflexivity.
  - split; [|apply shr_1_nonneg, Hm].
    rewrite shr_1_m by exact Hm. rewrite Z.div2_div. reflexivity.
Qed.

Lemma shr_record_of_loc_m m l : shr_m (shr_record_of_loc m l) = m.
Proof. destruct l as [|[]]; reflexivity. Qed.

Lemma round_nearest_even_bounds m l :
  m <= round_nearest_even m l <= m + 1.
Proof.
  unfold round_nearest_even. destruct l as [|[]]; try lia.
  destruct (Z.even m); lia.
Qed.

(** ** Rounding a mantissa that has at least 53 digits, in the normal range *)

Lemma fexp_normal x : -1021 <= x -> fexp prec emax x = x - 53.
Proof. intros H. unfold fexp, SpecFloat.emin, prec, emax. lia. Qed.

Lemma shr_fexp_spec m e l n :
  0 <= m ->
  fexp prec emax (Zdigits2 m + e) - e = n ->
  0 <= n ->
  exists mrs,
    shr_fexp prec emax m e l = (mrs, e + n) /\
    shr_m mrs = m / 2 ^ n /\
    (n = 0 -> mrs = shr_record_of_loc m l).
Proof.
  intros Hm Hn Hn0. unfold shr_fexp. rewrite Hn. unfold shr.
  destruct n as [|p|p]; [| |lia].
  - exists (shr_record_of_loc m l). rewrite Z.add_0_r, shr_record_of_loc_m.
    change (2 ^ 0) with 1. rewrite Z.div_1_r. auto.
  - exists (SpecFloat.iter_pos shr_1 p (shr_record_of_loc m l)).
    split; [reflexivity|]. split; [|discriminate].
    destruct (iter_shr_1_m p (shr_record_of_loc m l)) as [E _].
    { rewrite shr_record_of_loc_m. exact Hm. }
    rewrite E, shr_record_of_loc_m. reflexivity.
Qed.

Lemma binary_round_aux_normal (s : bool) (M : positive) (e : Z) (l : location)
    (num den : Z) :
  53 <= Zpos (digits2_pos M) ->
  -1021 <= Zpos (digits2_pos M) + e ->
  Zpos (digits2_pos M) + e <= 1023 ->
  0 < den ->
  Zpos M * den <= num < (Zpos M + 1) * den ->
  exists mr k,
    binary_round_aux prec emax s (Zpos M) e l = S754_finite s mr (e + k) /\
    0 <= k /\
    valid_binary (S754_finite s mr (e + k)) = true /\
    Z.abs (Zpos mr * 2 ^ k * den - num) * 2 ^ 52 <= num.
Proof.
  intros Hd Hlo Hhi Hden Hnum.
  set (d := Zpos (digits2_pos M)) in *.
  set (n := d - 53).
  assert (Hn0 : 0 <= n) by (unfold n; lia).
  destruct (digits2_pos_bounds M) as [Dl Du]. fold d in Dl, Du.
  assert (Hpn : 0 < 2 ^ n) by (apply Z.pow_pos_nonneg; lia).
  assert (Hd1 : 2 ^ (d - 1) = 2 ^ 52 * 2 ^ n).
  { rewrite <- Z.pow_add_r by lia. f_equal. unfold n. lia. }
  assert (Hd2 : 2 ^ d = 2 ^ 53 * 2 ^ n).
  { rewrite <- Z.pow_add_r by lia. f_equal. unfold n. lia. }
  destruct (shr_fexp_spec (Zpos M) e l n) as (mrs1 & E1 & Hm1 & _).
  { lia. }
  { change (Zdigits2 (Zpos M)) with d. rewrite fexp_normal by lia. unfold n. lia. }
  { exact Hn0. }
  set (m1 := Zpos M / 2 ^ n) in *.
  assert (Hdiv : m1 * 2 ^ n <= Zpos M < (m1 + 1) * 2 ^ n).
  { unfold m1. pose proof (Z.div_mod (Zpos M) (2 ^ n) ltac:(lia)) as Hdm.
    pose proof (Z.mod_pos_bound (Zpos M) (2 ^ n) Hpn) as Hmb. nia. }
  assert (Hm1b : 2 ^ 52 <= m1 < 2 ^ 53) by nia.
  set (m2 := round_nearest_even (shr_m mrs1) (loc_of_shr_record mrs1)).
  assert (Hm2 : m1 <= m2 <= m1 + 1).
  { unfold m2. rewrite Hm1. apply round_nearest_even_bounds. }
  assert (Herr : Z.abs (m2 * 2 ^ n * den - num) * 2 ^ 52 <= num).
  { assert (H52 : 0 < 2 ^ 52) by (apply Z.pow_pos_nonneg; lia).
    assert (Hnd : 0 < 2 ^ n * den) by nia.
    assert (Hlow : m1 * (2 ^ n * den) <= num) by nia.
    assert (Hupp : num <= (m1 + 1) * (2 ^ n * den)) by nia.
    assert (Hbig : 2 ^ 52 * (2 ^ n * den) <= num) by nia.
    assert (Habs : Z.abs (m2 * 2 ^ n * den - num) <= 2 ^ n * den) by nia.
    nia. }
  unfold binary_round_aux. rewrite E1. fold m2.
  destruct (Z.eq_dec m2 (2 ^ 53)) as [Hcarry|Hnocarry].
  - (* the mantissa has grown to 54 digits: one more shift *)
    destruct (shr_fexp_spec m2 (e + n) loc_Exact 1) as (mrs2 & E2 & Hm2' & _).
    { lia. }
    { rewrite Hcarry. change (Zdigits2 (2 ^ 53)) with 54.
      rewrite fexp_normal by (unfold n; lia). unfold n. lia. }
    { lia. }
    rewrite E2, Hm2', Hcarry. change (2 ^ 53 / 2 ^ 1) with (Zpos (2 ^ 52)).
    cbv iota beta.
    assert (Hle : (e + n + 1 <=? emax - prec) = true).
    { apply Z.leb_le. unfold emax, prec, n. lia. }
    rewrite Hle.
    exists (2 ^ 52)%positive, (n + 1). rewrite Z.add_assoc.
    split; [reflexivity|]. split; [lia|]. split.
    + unfold valid_binary, bounded, canonical_mantissa.
      change (Zpos (digits2_pos (2 ^ 52))) with 53.
      rewrite fexp_normal by (unfold n; lia). rewrite Hle.
      rewrite (proj2 (Z.eqb_eq _ _)) by lia. reflexivity.
    + rewrite Hcarry in Herr.
      replace (Zpos (2 ^ 52) * 2 ^ (n + 1)) with (2 ^ 53 * 2 ^ n); [exact Herr|].
      rewrite Z.pow_add_r by lia. change (2 ^ 53) with (Zpos (2 ^ 52) * 2 ^ 1). ring.
  - assert (Hm2b : 2 ^ 52 <= m2 < 2 ^ 53) by lia.
    destruct m2 as [|p2|p2] eqn:Em2; [lia| |lia].
    assert (Hdig : Zpos (digits2_pos p2) = 53).
    { apply digits2_pos_unique. change (53 - 1) with 52. exact Hm2b. }
    destruct (shr_fexp_spec (Zpos p2) (e + n) loc_Exact 0) as (mrs2 & E2 & Hm2' & Hrec).
    { lia. }
    { change (Zdigits2 (Zpos p2)) with (Zpos (digits2_pos p2)). rewrite Hdig.
      rewrite fexp_normal by (unfold n; lia). unfold n. lia. }
    { lia. }
    rewrite Z.add_0_r in E2.
    rewrite E2, Hm2'. change (2 ^ 0) with 1. rewrite Z.div_1_r.
    cbv iota beta.
    assert (Hle : (e + n <=? emax - prec) = true).
    { apply Z.leb_le. unfold emax, prec, n. lia. }
    rewrite Hle.
    exists p2, n. split; [reflexivity|]. split; [exact Hn0|]. split.
    + unfold valid_binary, bounded, canonical_mantissa. rewrite Hdig.
      rewrite fexp_normal by (unfold n; lia). rewrite Hle.
      rewrite (proj2 (Z.eqb_eq _ _)) by (unfold n; lia). reflexivity.
    + exact Herr.
Qed.

Local Open Scope Q_scope.

(** ** Values *)

Lemma b64_val_SFval f : b64_val f = SFval (Prim2SF f).
Proof. reflexivity. Qed.

Lemma pow2Q_Qpower e : pow2Q e == 2 ^ e.
Proof.
  destruct e as [|p|p]; simpl pow2Q.
  - reflexivity.
  - change (Z.pow_pos 2 p) with (2 ^ Zpos p)%Z.
    rewrite Zpower_Qpower by lia. reflexivity.
  - change (2 ^ Zneg p) with (/ 2 ^ Zpos p).
    change 2 with (inject_Z 2) at 1.
    rewrite <- Zpower_Qpower by lia.
    rewrite <- (Pos2Z.inj_pow 2 p). reflexivity.
Qed.

Lemma two_neq_0 : ~ 2 == 0.
Proof. discriminate. Qed.

Lemma pow2_pos e : 0 < 2 ^ e.
Proof. apply Qpower_0_lt. reflexivity. Qed.

Lemma inject_pow2 k : (0 <= k)%Z -> inject_Z (2 ^ k) == 2 ^ k.
Proof. intros H. rewrite Zpower_Qpower by exact H. reflexivity. Qed.

(** the value of a mantissa with [d] digits at exponent [e] *)
Lemma mantissa_bounds m e :
  2 ^ (Zpos (digits2_pos m) - 1 + e) <= inject_Z (Zpos m) * 2 ^ e /\
  inject_Z (Zpos m) * 2 ^ e < 2 ^ (Zpos (digits2_pos m) + e).
Proof.
  destruct (digits2_pos_bounds m) as [Dl Du].
  set (d := Zpos (digits2_pos m)) in *.
  assert (Hd : (0 < d)%Z) by (unfold d; lia).
  rewrite !Qpower_plus by exact two_neq_0.
  rewrite <- (inject_pow2 (d - 1)), <- (inject_pow2 d) by lia.
  split.
  - apply Qmult_le_compat_r; [|apply Qlt_le_weak, pow2_pos].
    rewrite <- Zle_Qle. exact Dl.
  - apply Qmult_lt_compat_r; [apply pow2_pos|].
    rewrite <- Zlt_Qlt. exact Du.
Qed.

(** ** Relative error *)

Lemma inject_signed (s : bool) (m : positive) :
  inject_Z (if s then Zneg m else Zpos m) == sgn s * inject_Z (Zpos m).
Proof.
  destruct s; unfold sgn; [|ring].
  change (Zneg m) with (- Zpos m)%Z. rewrite inject_Z_opp. ring.
Qed.

Lemma sgn_xorb a b : sgn (xorb a b) == sgn a * sgn b.
Proof. destruct a, b; reflexivity. Qed.

Lemma Qabs_sgn s x : Qabs (sgn s * x) == Qabs x.
Proof.
  destruct s; unfold sgn.
  - assert (H : -1 * x == - x) by ring. rewrite H. apply Qabs_opp.
  - assert (H : 1 * x == x) by ring. rewrite H. reflexivity.
Qed.

Lemma rounds_to_compat eps x x' q q' :
  x == x' -> q == q' -> rounds_to eps x q -> rounds_to eps x' q'.
Proof. unfold rounds_to. intros Hx Hq H. rewrite <- Hx, <- Hq. exact H. Qed.

Lemma rounds_to_sgn eps s x q :
  rounds_to eps x q -> rounds_to eps (sgn s * x) (sgn s * q).
Proof.
  unfold rounds_to. intros H.
  assert (E : sgn s * q - sgn s * x == sgn s * (q - x)) by ring.
  rewrite E, !Qabs_sgn. exact H.
Qed.

Lemma rounds_to_0 eps x : x == 0 -> rounds_to eps x 0.
Proof.
  intros H. unfold rounds_to. rewrite H.
  assert (E : 0 - 0 == 0) by ring. rewrite E. simpl Qabs.
  assert (E2 : eps * 0 == 0) by ring. rewrite E2. apply Qle_refl.
Qed.

(** from the integer bound of [binary_round_aux_normal] to the relative
    error of the value *)
Lemma rounds_bridge (mr : positive) (k num den E : Z) :
  (0 <= k)%Z -> (0 < den)%Z -> (0 < num)%Z ->
  (Z.abs (Zpos mr * 2 ^ k * den - num) * 2 ^ 52 <= num)%Z ->
  rounds_to b64_eps
    (inject_Z num / inject_Z den * 2 ^ E)
    (inject_Z (Zpos mr) * 2 ^ (E + k)).
Proof.
  intros Hk Hden Hnum Herr.
  assert (HD : 0 < inject_Z den) by (rewrite <- (Zlt_Qlt 0); exact Hden).
  assert (HN : 0 < inject_Z num) by (rewrite <- (Zlt_Qlt 0); exact Hnum).
  assert (HP : 0 < 2 ^ E) by apply pow2_pos.
  unfold rounds_to.
  rewrite Qpower_plus by exact two_neq_0.
  rewrite <- (inject_pow2 k) by exact Hk.
  assert (H1 : (Zpos mr * 2 ^ k * den * 2 ^ 52 <= num * 2 ^ 52 + num)%Z) by lia.
  assert (H2 : (num * 2 ^ 52 <= Zpos mr * 2 ^ k * den * 2 ^ 52 + num)%Z) by lia.
  rewrite Zle_Qle in H1, H2.
  rewrite !inject_Z_plus, !inject_Z_mult in H1, H2.
  set (y := inject_Z num / inject_Z den).
  assert (Hy : y * inject_Z den == inject_Z num).
  { unfold y. field. intros H0. rewrite H0 in HD. apply (Qlt_irrefl 0), HD. }
  assert (Hy0 : 0 < y).
  { unfold y. apply Qlt_shift_div_l; [exact HD|]. rewrite Qmult_0_l. exact HN. }
  rewrite <- Hy in H1, H2.
  revert H1 H2 Hy0 HD HP.
  generalize (inject_Z (Zpos mr)) (inject_Z (2 ^ k)) (inject_Z den) (2 ^ E) y.
  intros Mr K D P Y H1 H2 HY HD HP.
  change (inject_Z (2 ^ 52)) with (4503599627370496 # 1) in H1, H2.
  unfold b64_eps.
  change (1 # 2 ^ 52) with (1 # 4503599627370496).
  assert (HYP : 0 <= Y * P) by (apply Qlt_le_weak, Qmult_lt_0_compat; assumption).
  rewrite (Qabs_pos (Y * P)) by exact HYP.
  apply Qabs_Qle_condition.
  (* divide the integer bounds by D *)
  assert (G1 : Mr * K * (4503599627370496 # 1) <= Y * (4503599627370496 # 1) + Y).
  { apply (Qmult_le_r _ _ D HD).
    assert (E1 : Mr * K * (4503599627370496 # 1) * D ==
                 Mr * K * D * (4503599627370496 # 1)) by ring.
    assert (E2 : (Y * (4503599627370496 # 1) + Y) * D ==
                 Y * D * (4503599627370496 # 1) + Y * D) by ring.
    rewrite E1, E2. exact H1. }
  assert (G2 : Y * (4503599627370496 # 1) <= Mr * K * (4503599627370496 # 1) + Y).
  { apply (Qmult_le_r _ _ D HD).
    assert (E1 : (Mr * K * (4503599627370496 # 1) + Y) * D ==
                 Mr * K * D * (4503599627370496 # 1) + Y * D) by ring.
    assert (E2 : Y * (4503599627370496 # 1) * D ==
                 Y * D * (4503599627370496 # 1)) by ring.
    rewrite E1, E2. exact H2. }
  split.
  - assert (E1 : - ((1 # 4503599627370496) * (Y * P)) ==
                 (- Y * (1 # 4503599627370496)) * P) by ring.
    assert (E2 : Mr * (P * K) - Y * P == (Mr * K - Y) * P) by ring.
    rewrite E1, E2. apply Qmult_le_compat_r; [|apply Qlt_le_weak, HP]. lra.
  - assert (E1 : (1 # 4503599627370496) * (Y * P) ==
                 (Y * (1 # 4503599627370496)) * P) by ring.
    assert (E2 : Mr * (P * K) - Y * P == (Mr * K - Y) * P) by ring.
    rewrite E1, E2. apply Qmult_le_compat_r; [|apply Qlt_le_weak, HP]. lra.
Qed.

(** ** Multiplication *)

Lemma omega_Qpower : b64_omega == 2 ^ 1000.
Proof. unfold b64_omega. apply inject_pow2. lia. Qed.

Lemma inv_omega_Qpower : 1 / b64_omega == 2 ^ (-1000).
Proof.
  rewrite omega_Qpower. change (-1000)%Z with (- (1000))%Z.
  rewrite Qpower_opp. unfold Qdiv. ring.
Qed.

Lemma in_range_pos_bounds x :
  0 < x -> in_range b64_omega x -> 2 ^ (-1000) <= x /\ x <= 2 ^ 1000.
Proof.
  intros Hx [H0|[Hl Hu]].
  - rewrite H0 in Hx. exfalso. apply (Qlt_irrefl 0), Hx.
  - rewrite (Qabs_pos x) in Hl, Hu by (apply Qlt_le_weak, Hx).
    rewrite inv_omega_Qpower in Hl. rewrite omega_Qpower in Hu. auto.
Qed.

Lemma in_range_sgn s x :
  in_range b64_omega (sgn s * x) -> in_range b64_omega x.
Proof.
  intros [H0|H]; [left|right].
  - destruct s; unfold sgn in H0; lra.
  - rewrite Qabs_sgn in H. exact H.
Qed.

(** a value between two powers of two, in range: its exponents *)
Lemma exponent_bounds x lo hi :
  0 < x -> in_range b64_omega x ->
  2 ^ lo <= x -> x < 2 ^ hi ->
  (lo <= 1000 /\ -1000 < hi)%Z.
Proof.
  intros Hx Hr Hl Hu. destruct (in_range_pos_bounds x Hx Hr) as [Rl Ru].
  split.
  - apply (Qpower_le_compat_l_inv 2); [|reflexivity].
    eapply Qle_trans; eassumption.
  - apply (Qpower_lt_compat_l_inv 2); [|reflexivity].
    eapply Qle_lt_trans; eassumption.
Qed.

Lemma mantissa_pos m e : 0 < inject_Z (Zpos m) * 2 ^ e.
Proof. apply Qmult_lt_0_compat; [reflexivity|apply pow2_pos]. Qed.

Lemma valid_finite_canonical s m e :
  valid_binary (S754_finite s m e) = true ->
  (Z.max (Zpos (digits2_pos m) + e - 53) (-1074) = e)%Z.
Proof.
  unfold valid_binary, bounded, canonical_mantissa. intros H.
  apply andb_prop in H as [H _]. apply Z.eqb_eq in H. exact H.
Qed.

Lemma digits_mul mx my :
  (Zpos (digits2_pos mx) + Zpos (digits2_pos my) - 1 <= Zpos (digits2_pos (mx * my))
   <= Zpos (digits2_pos mx) + Zpos (digits2_pos my))%Z.
Proof.
  destruct (digits2_pos_bounds mx) as [Xl Xu].
  destruct (digits2_pos_bounds my) as [Yl Yu].
  destruct (digits2_pos_bounds (mx * my)) as [Ml Mu].
  rewrite Pos2Z.inj_mul in Ml, Mu.
  set (dx := Zpos (digits2_pos mx)) in *.
  set (dy := Zpos (digits2_pos my)) in *.
  set (d := Zpos (digits2_pos (mx * my))) in *.
  assert (0 < dx /\ 0 < dy /\ 0 < d)%Z as (Hdx & Hdy & Hd) by (unfold dx, dy, d; lia).
  assert (H1 : (2 ^ (dx - 1 + (dy - 1)) <= Zpos mx * Zpos my)%Z).
  { rewrite Z.pow_add_r by lia.
    apply Z.mul_le_mono_nonneg; try lia; apply Z.pow_nonneg; lia. }
  assert (H2 : (Zpos mx * Zpos my < 2 ^ (dx + dy))%Z).
  { rewrite Z.pow_add_r by lia. apply Z.mul_lt_mono_nonneg; lia. }
  split.
  - assert (H3 : (2 ^ (dx - 1 + (dy - 1)) < 2 ^ d)%Z) by lia.
    apply Z.pow_lt_mono_r_iff in H3; lia.
  - assert (H3 : (2 ^ (d - 1) < 2 ^ (dx + dy))%Z) by lia.
    apply Z.pow_lt_mono_r_iff in H3; lia.
Qed.

Lemma SFmul_finite sx mx ex sy my ey :
  valid_binary (S754_finite sx mx ex) = true ->
  valid_binary (S754_finite sy my ey) = true ->
  in_range b64_omega
    (inject_Z (if sx then Zneg mx else Zpos mx) * pow2Q ex *
     (inject_Z (if sy then Zneg my else Zpos my) * pow2Q ey)) ->
  exists mr er,
    SFmul prec emax (S754_finite sx mx ex) (S754_finite sy my ey)
      = S754_finite (xorb sx sy) mr er /\
    valid_binary (S754_finite (xorb sx sy) mr er) = true /\
    rounds_to b64_eps
      (inject_Z (if sx then Zneg mx else Zpos mx) * pow2Q ex *
       (inject_Z (if sy then Zneg my else Zpos my) * pow2Q ey))
      (inject_Z (if xorb sx sy then Zneg mr else Zpos mr) * pow2Q er).
Proof.
  intros Vx Vy Hr.
  assert (Ex : inject_Z (if sx then Zneg mx else Zpos mx) * pow2Q ex *
               (inject_Z (if sy then Zneg my else Zpos my) * pow2Q ey) ==
               sgn (xorb sx sy) * (inject_Z (Zpos (mx * my)) * 2 ^ (ex + ey))).
  { rewrite !pow2Q_Qpower, !inject_signed, sgn_xorb, Pos2Z.inj_mul, inject_Z_mult.
    rewrite Qpower_plus by exact two_neq_0. ring. }
  assert (Hr' : in_range b64_omega (inject_Z (Zpos (mx * my)) * 2 ^ (ex + ey))).
  { apply (in_range_sgn (xorb sx sy)).
    destruct Hr as [H0|H]; [left|right]; rewrite <- Ex; assumption. }
  destruct (mantissa_bounds (mx * my) (ex + ey)) as [Bl Bu].
  destruct (exponent_bounds _ _ _ (mantissa_pos _ _) Hr' Bl Bu) as [Hhi Hlo].
  pose proof (valid_finite_canonical _ _ _ Vx) as Cx.
  pose proof (valid_finite_canonical _ _ _ Vy) as Cy.
  pose proof (digits_mul mx my) as Hd.
  destruct (binary_round_aux_normal (xorb sx sy) (mx * my) (ex + ey) loc_Exact
              (Zpos (mx * my)) 1) as (mr & k & Eq & Hk & Valid & Herr);
    try lia.
  exists mr, (ex + ey + k)%Z.
  split; [exact Eq|]. split; [exact Valid|].
  apply (rounds_to_compat b64_eps
           (sgn (xorb sx sy) * (inject_Z (Zpos (mx * my)) / inject_Z 1 * 2 ^ (ex + ey)))
           _
           (sgn (xorb sx sy) * (inject_Z (Zpos mr) * 2 ^ (ex + ey + k)))).
  - rewrite Ex. unfold Qdiv. change (/ inject_Z 1) with 1. ring.
  - rewrite pow2Q_Qpower, inject_signed. ring.
  - apply rounds_to_sgn, rounds_bridge; lia.
Qed.

(** ** Division *)

Lemma pow2_neq_0 e : ~ 2 ^ e == 0.
Proof. apply Qpower_not_0. discriminate. Qed.

Lemma inject_pos_neq_0 p : ~ inject_Z (Zpos p) == 0.
Proof. discriminate. Qed.

Lemma shift_mantissa m s :
  (0 <= s)%Z ->
  match s with
  | Zpos _ => Z.shiftl m s
  | Z0 => m
  | Zneg _ => 0%Z
  end = (m * 2 ^ s)%Z.
Proof.
  intros Hs. destruct s as [|p|p]; [|apply Z.shiftl_mul_pow2; lia|lia].
  change (2 ^ 0)%Z with 1%Z. lia.
Qed.

Lemma SFdiv_core_binary_eq mx ex my ey :
  let e' := Z.min (fexp prec emax
                     (Zpos (digits2_pos mx) + ex - (Zpos (digits2_pos my) + ey)))
                  (ex - ey) in
  let m' := (Zpos mx * 2 ^ (ex - ey - e'))%Z in
  SFdiv_core_binary prec emax (Zpos mx) ex (Zpos my) ey =
    ((m' / Zpos my)%Z, e', new_location (Zpos my) (m' mod Zpos my)%Z).
Proof.
  intros e' m'. unfold SFdiv_core_binary.
  change (Zdigits2 (Zpos mx)) with (Zpos (digits2_pos mx)).
  change (Zdigits2 (Zpos my)) with (Zpos (digits2_pos my)).
  fold e'. rewrite (shift_mantissa (Zpos mx) (ex - ey - e')) by (unfold e'; lia).
  fold m'. unfold Z.div, Z.modulo.
  destruct (Z.div_eucl m' (Zpos my)) as [q r]. reflexivity.
Qed.

Lemma SFdiv_finite (sx : bool) (mx : positive) (ex : Z) (sy : bool) (my : positive) (ey : Z) :
  in_range b64_omega
    (inject_Z (if sx then Zneg mx else Zpos mx) * pow2Q ex /
     (inject_Z (if sy then Zneg my else Zpos my) * pow2Q ey)) ->
  exists mr er,
    SFdiv prec emax (S754_finite sx mx ex) (S754_finite sy my ey)
      = S754_finite (xorb sx sy) mr er /\
    valid_binary (S754_finite (xorb sx sy) mr er) = true /\
    rounds_to b64_eps
      (inject_Z (if sx then Zneg mx else Zpos mx) * pow2Q ex /
       (inject_Z (if sy then Zneg my else Zpos my) * pow2Q ey))
      (inject_Z (if xorb sx sy then Zneg mr else Zpos mr) * pow2Q er).
Proof.
  intros Hr.
  set (d1 := Zpos (digits2_pos mx)). set (d2 := Zpos (digits2_pos my)).
  set (D := (d1 + ex - (d2 + ey))%Z).
  set (A := inject_Z (Zpos mx) * 2 ^ ex). set (B := inject_Z (Zpos my) * 2 ^ ey).
  assert (HA : 0 < A) by apply mantissa_pos.
  assert (HB : 0 < B) by apply mantissa_pos.
  assert (HB0 : ~ B == 0) by (intros H0; rewrite H0 in HB; apply (Qlt_irrefl 0), HB).
  assert (Hsy : ~ sgn sy == 0) by (destruct sy; discriminate).
  assert (Ex : inject_Z (if sx then Zneg mx else Zpos mx) * pow2Q ex /
               (inject_Z (if sy then Zneg my else Zpos my) * pow2Q ey) ==
               sgn (xorb sx sy) * (A / B)).
  { rewrite !pow2Q_Qpower, !inject_signed, sgn_xorb. fold A B.
    assert (E1 : sgn sx * inject_Z (Zpos mx) * 2 ^ ex == sgn sx * A)
      by (unfold A; ring).
    assert (E2 : sgn sy * inject_Z (Zpos my) * 2 ^ ey == sgn sy * B)
      by (unfold B; ring).
    rewrite E1, E2.
    destruct sy; unfold sgn at 2 4; field; exact HB0. }
  assert (Hr' : in_range b64_omega (A / B)).
  { apply (in_range_sgn (xorb sx sy)).
    destruct Hr as [H0|H]; [left|right]; rewrite <- Ex; assumption. }
  assert (HV : 0 < A / B).
  { apply Qlt_shift_div_l; [exact HB|]. rewrite Qmult_0_l. exact HA. }
  destruct (mantissa_bounds mx ex) as [Al Au]. fold d1 A in Al, Au.
  destruct (mantissa_bounds my ey) as [Bl Bu]. fold d2 B in Bl, Bu.
  (* the quotient lies between 2^(D-1) and 2^(D+1) *)
  assert (Vl : 2 ^ (D - 1) <= A / B).
  { apply Qle_shift_div_l; [exact HB|].
    eapply Qle_trans; [|exact Al].
    eapply Qle_trans.
    - apply Qmult_le_l; [apply pow2_pos|]. apply Qlt_le_weak, Bu.
    - rewrite <- Qpower_plus by exact two_neq_0.
      apply Qpower_le_compat_l; [unfold D; lia|discriminate]. }
  assert (Vu : A / B < 2 ^ (D + 1)).
  { apply Qlt_shift_div_r; [exact HB|].
    eapply Qlt_le_trans; [exact Au|].
    eapply Qle_trans.
    2:{ apply Qmult_le_l; [apply pow2_pos|]. exact Bl. }
    rewrite <- Qpower_plus by exact two_neq_0.
    apply Qpower_le_compat_l; [unfold D; lia|discriminate]. }
  destruct (exponent_bounds _ _ _ HV Hr' Vl Vu) as [HDhi HDlo].
  (* the algorithm *)
  unfold SFdiv. rewrite SFdiv_core_binary_eq. fold d1 d2. fold D.
  rewrite fexp_normal by lia.
  set (e' := Z.min (D - 53) (ex - ey)).
  set (s := (ex - ey - e')%Z).
  assert (Hs : (0 <= s)%Z) by (unfold s, e'; lia).
  set (m' := (Zpos mx * 2 ^ s)%Z).
  assert (Hps : (0 < 2 ^ s)%Z) by (apply Z.pow_pos_nonneg; lia).
  assert (Hm' : (0 < m')%Z) by (unfold m'; lia).
  destruct (digits2_pos_bounds mx) as [Xl Xu]. fold d1 in Xl, Xu.
  destruct (digits2_pos_bounds my) as [Yl Yu]. fold d2 in Yl, Yu.
  assert (Hd1 : (0 < d1)%Z) by (unfold d1; lia).
  assert (Hd2 : (0 < d2)%Z) by (unfold d2; lia).
  assert (Hq52 : (2 ^ 52 <= m' / Zpos my)%Z).
  { apply Z.div_le_lower_bound; [lia|].
    assert (H1 : (2 ^ (d1 - 1 + s) <= m')%Z).
    { unfold m'. rewrite Z.pow_add_r by lia.
      apply Z.mul_le_mono_nonneg_r; lia. }
    assert (H2 : (Zpos my * 2 ^ 52 <= 2 ^ (d2 + 52))%Z).
    { rewrite Z.pow_add_r by lia. apply Z.mul_le_mono_nonneg_r; lia. }
    assert (H3 : (2 ^ (d2 + 52) <= 2 ^ (d1 - 1 + s))%Z).
    { apply Z.pow_le_mono_r; [lia|]. unfold s, e', D. lia. }
    lia. }
  destruct (m' / Zpos my)%Z as [|qp|qp] eqn:Eq; [lia| |lia].
  assert (Hqm : (Zpos qp * Zpos my <= m' < (Zpos qp + 1) * Zpos my)%Z).
  { rewrite <- Eq.
    pose proof (Z.div_mod m' (Zpos my) ltac:(lia)) as Hdm.
    pose proof (Z.mod_pos_bound m' (Zpos my) ltac:(lia)) as Hmb. nia. }
  destruct (digits2_pos_bounds qp) as [Ql Qu].
  set (dq := Zpos (digits2_pos qp)) in *.
  assert (Hdq : (53 <= dq)%Z).
  { assert (H3 : (2 ^ 52 < 2 ^ dq)%Z) by lia.
    apply Z.pow_lt_mono_r_iff in H3; unfold dq; lia. }
  (* the value, on the quotient's exponent *)
  assert (EV : A / B == inject_Z m' / inject_Z (Zpos my) * 2 ^ e').
  { unfold A, B, m'. rewrite inject_Z_mult, inject_pow2 by exact Hs.
    assert (Ee : 2 ^ ex == 2 ^ s * 2 ^ e' * 2 ^ ey).
    { rewrite <- !Qpower_plus by exact two_neq_0.
      assert (Hz : (s + e' + ey = ex)%Z) by (unfold s; lia).
      rewrite Hz. reflexivity. }
    rewrite Ee. field.
    split; first [apply pow2_neq_0|apply inject_pos_neq_0]. }
  assert (HMy : 0 < inject_Z (Zpos my)) by reflexivity.
  assert (Wl : inject_Z (Zpos qp) <= inject_Z m' / inject_Z (Zpos my)).
  { apply Qle_shift_div_l; [exact HMy|].
    rewrite <- inject_Z_mult, <- Zle_Qle. lia. }
  assert (Wu : inject_Z m' / inject_Z (Zpos my) < inject_Z (Zpos qp + 1)).
  { apply Qlt_shift_div_r; [exact HMy|].
    rewrite <- inject_Z_mult, <- Zlt_Qlt. lia. }
  destruct (mantissa_bounds qp e') as [Ml Mu]. fold dq in Ml, Mu.
  assert (Zl : 2 ^ (dq - 1 + e') <= A / B).
  { rewrite EV. eapply Qle_trans; [exact Ml|].
    apply Qmult_le_compat_r; [exact Wl|apply Qlt_le_weak, pow2_pos]. }
  assert (Zu : A / B < 2 ^ (dq + e')).
  { rewrite EV. eapply Qlt_le_trans.
    - apply Qmult_lt_compat_r; [apply pow2_pos|exact Wu].
    - rewrite Qpower_plus by exact two_neq_0.
      apply Qmult_le_compat_r; [|apply Qlt_le_weak, pow2_pos].
      rewrite <- inject_pow2 by (unfold dq; lia). rewrite <- Zle_Qle. lia. }
  destruct (exponent_bounds _ _ _ HV Hr' Zl Zu) as [Hqhi Hqlo].
  destruct (binary_round_aux_normal (xorb sx sy) qp e'
              (new_location (Zpos my) (m' mod Zpos my)) m' (Zpos my))
    as (mr & k & Eqr & Hk & Valid & Herr); try (fold dq; lia).
  exists mr, (e' + k)%Z.
  split; [exact Eqr|]. split; [exact Valid|].
  apply (rounds_to_compat b64_eps
           (sgn (xorb sx sy) * (inject_Z m' / inject_Z (Zpos my) * 2 ^ e'))
           _
           (sgn (xorb sx sy) * (inject_Z (Zpos mr) * 2 ^ (e' + k)))).
  - rewrite Ex, EV. reflexivity.
  - rewrite pow2Q_Qpower, inject_signed. ring.
  - apply rounds_to_sgn, rounds_bridge; lia.
Qed.

(** ** Conversion of an integer *)

Lemma iter_xO m d : Zpos (Pos.iter xO m d) = (Zpos m * 2 ^ Zpos d)%Z.
Proof.
  induction d as [|d IH] using Pos.peano_ind.
  - simpl Pos.iter. change (2 ^ 1)%Z with 2%Z. lia.
  - rewrite Pos.iter_succ, Pos2Z.inj_xO, IH, Pos2Z.inj_succ.
    rewrite Z.pow_succ_r by lia. ring.
Qed.

Lemma shl_align_spec m e e' :
  exists mz ez,
    shl_align m e e' = (mz, ez) /\
    (ez <= e)%Z /\
    Zpos mz = (Zpos m * 2 ^ (e - ez))%Z /\
    ez = Z.min e e'.
Proof.
  unfold shl_align. destruct (e' - e)%Z as [|p|p] eqn:Ed.
  - exists m, e. rewrite Z.sub_diag. change (2 ^ 0)%Z with 1%Z.
    repeat split; lia.
  - exists m, e. rewrite Z.sub_diag. change (2 ^ 0)%Z with 1%Z.
    repeat split; lia.
  - exists (Pos.iter xO m p), e'. split; [reflexivity|]. split; [lia|]. split; [|lia].
    rewrite iter_xO. f_equal. f_equal. lia.
Qed.

Lemma digits_shift m mz t :
  (0 <= t)%Z -> Zpos mz = (Zpos m * 2 ^ t)%Z ->
  Zpos (digits2_pos mz) = (Zpos (digits2_pos m) + t)%Z.
Proof.
  intros Ht Hmz. apply digits2_pos_unique. rewrite Hmz.
  destruct (digits2_pos_bounds m) as [Dl Du].
  assert (Hp : (0 < 2 ^ t)%Z) by (apply Z.pow_pos_nonneg; lia).
  assert (Hd : (0 < Zpos (digits2_pos m))%Z) by lia.
  replace (Zpos (digits2_pos m) + t - 1)%Z with (Zpos (digits2_pos m) - 1 + t)%Z by lia.
  rewrite !Z.pow_add_r by lia. split.
  - apply Z.mul_le_mono_nonneg_r; lia.
  - apply Z.mul_lt_mono_pos_r; lia.
Qed.

Lemma binary_round_int (s : bool) (m : positive) :
  in_range b64_omega (inject_Z (Zpos m)) ->
  exists mr er,
    binary_round prec emax s m 0 = S754_finite s mr er /\
    valid_binary (S754_finite s mr er) = true /\
    rounds_to b64_eps
      (inject_Z (if s then Zneg m else Zpos m))
      (inject_Z (if s then Zneg mr else Zpos mr) * pow2Q er).
Proof.
  intros Hr.
  set (d := Zpos (digits2_pos m)).
  assert (Hd0 : (0 < d)%Z) by (unfold d; lia).
  assert (Em : inject_Z (Zpos m) == inject_Z (Zpos m) * 2 ^ 0).
  { change (2 ^ 0) with 1. ring. }
  assert (Hr0 : in_range b64_omega (inject_Z (Zpos m) * 2 ^ 0)).
  { destruct Hr as [H0|H]; [left|right]; rewrite <- Em; assumption. }
  destruct (mantissa_bounds m 0) as [Bl Bu]. fold d in Bl, Bu.
  destruct (exponent_bounds _ _ _ (mantissa_pos _ _) Hr0 Bl Bu) as [Hhi Hlo].
  unfold binary_round. fold d. rewrite Z.add_0_r, fexp_normal by lia.
  destruct (shl_align_spec m 0 (d - 53)) as (mz & ez & Es & Hez & Hmz & Hmin).
  rewrite Es.
  assert (Hdz : Zpos (digits2_pos mz) = (d - ez)%Z).
  { rewrite (digits_shift m mz (0 - ez)) by (try exact Hmz; lia). fold d. lia. }
  destruct (binary_round_aux_normal s mz ez loc_Exact (Zpos mz) 1)
    as (mr & k & Eqr & Hk & Valid & Herr); try lia.
  exists mr, (ez + k)%Z.
  split; [exact Eqr|]. split; [exact Valid|].
  apply (rounds_to_compat b64_eps
           (sgn s * (inject_Z (Zpos mz) / inject_Z 1 * 2 ^ ez))
           _
           (sgn s * (inject_Z (Zpos mr) * 2 ^ (ez + k)))).
  - rewrite inject_signed, Hmz, inject_Z_mult, inject_pow2 by lia.
    unfold Qdiv. change (/ inject_Z 1) with 1.
    assert (E2 : 2 ^ (0 - ez) * 2 ^ ez == 1).
    { rewrite <- Qpower_plus by exact two_neq_0.
      replace (0 - ez + ez)%Z with 0%Z by lia. reflexivity. }
    assert (E3 : sgn s * (inject_Z (Zpos m) * 2 ^ (0 - ez) * 1 * 2 ^ ez) ==
                 sgn s * inject_Z (Zpos m) * (2 ^ (0 - ez) * 2 ^ ez)) by ring.
    rewrite E3, E2. ring.
  - rewrite pow2Q_Qpower, inject_signed. ring.
  - apply rounds_to_sgn, rounds_bridge; lia.
Qed.

(** ** The standard model *)

Lemma in_range_compat omega x y : x == y -> in_range omega x -> in_range omega y.
Proof. intros E [H0|H]; [left|right]; rewrite <- E; assumption. Qed.

Lemma val_SF2Prim x :
  valid_binary x = true -> b64_val (SF2Prim x) = SFval x.
Proof. intros H. rewrite b64_val_SFval, Prim2SF_SF2Prim by exact H. reflexivity. Qed.

Lemma b64_of_int_std z :
  in_range b64_omega (inject_Z z) ->
  exists q, b64_val (b64_of_int z) = Some q /\ rounds_to b64_eps (inject_Z z) q.
Proof.
  intros Hr. unfold b64_of_int. destruct z as [|m|m].
  - exists 0. split; [apply val_SF2Prim; reflexivity|apply rounds_to_0; reflexivity].
  - destruct (binary_round_int false m Hr) as (mr & er & E & V & R).
    simpl binary_normalize. rewrite E, val_SF2Prim by exact V.
    eexists. split; [reflexivity|exact R].
  - assert (Hr' : in_range b64_omega (inject_Z (Zpos m))).
    { change (Zneg m) with (- Zpos m)%Z in Hr. rewrite inject_Z_opp in Hr.
      destruct Hr as [H0|H]; [left|right].
      - lra.
      - rewrite Qabs_opp in H. exact H. }
    destruct (binary_round_int true m Hr') as (mr & er & E & V & R).
    simpl binary_normalize. rewrite E, val_SF2Prim by exact V.
    eexists. split; [reflexivity|exact R].
Qed.

Lemma sf_of_Z_val z : z <> 0%Z ->
  exists s m, sf_of_Z z = S754_finite s m 0 /\
    inject_Z z = inject_Z (if s then Zneg m else Zpos m).
Proof.
  destruct z as [|m|m]; intros Hz; [contradiction| |].
  - exists false, m. split; reflexivity.
  - exists true, m. split; reflexivity.
Qed.

Lemma b64_int_truediv_std a b :
  b <> 0%Z ->
  in_range b64_omega (inject_Z a / inject_Z b) ->
  exists q, b64_val (b64_int_truediv a b) = Some q /\
            rounds_to b64_eps (inject_Z a / inject_Z b) q.
Proof.
  intros Hb Hr. unfold b64_int_truediv.
  destruct (sf_of_Z_val b Hb) as (sb & mb & Eb & Vb). rewrite Eb.
  destruct (Z.eq_dec a 0%Z) as [->|Ha].
  - exists 0. split; [apply val_SF2Prim; reflexivity|].
    apply rounds_to_0. unfold Qdiv. ring.
  - destruct (sf_of_Z_val a Ha) as (sa & ma & Ea & Va). rewrite Ea.
    assert (Ex : inject_Z (if sa then Zneg ma else Zpos ma) * pow2Q 0 /
                 (inject_Z (if sb then Zneg mb else Zpos mb) * pow2Q 0) ==
                 inject_Z a / inject_Z b).
    { rewrite Va, Vb. simpl pow2Q. field.
      destruct sb; discriminate. }
    destruct (SFdiv_finite sa ma 0 sb mb 0) as (mr & er & E & V & R).
    { eapply in_range_compat; [symmetry; exact Ex|exact Hr]. }
    rewrite E, val_SF2Prim by exact V.
    eexists. split; [reflexivity|].
    eapply rounds_to_compat; [exact Ex|reflexivity|exact R].
Qed.

Lemma b64_val_cases f q :
  b64_val f = Some q ->
  (exists s, Prim2SF f = S754_zero s /\ q = 0) \/
  (exists s m e, Prim2SF f = S754_finite s m e /\
     q = inject_Z (if s then Zneg m else Zpos m) * pow2Q e).
Proof.
  rewrite b64_val_SFval. destruct (Prim2SF f) as [s| | |s m e]; simpl; try discriminate.
  - intros [= <-]. left. eauto.
  - intros [= <-]. right. eauto.
Qed.

Lemma b64_fmul_std x y qx qy :
  b64_val x = Some qx -> b64_val y = Some qy ->
  in_range b64_omega (qx * qy) ->
  exists q, b64_val (x * y)%float = Some q /\ rounds_to b64_eps (qx * qy) q.
Proof.
  intros Hx Hy Hr.
  pose proof (Prim2SF_valid x) as Vx. pose proof (Prim2SF_valid y) as Vy.
  rewrite b64_val_SFval, mul_spec. unfold SF64mul.
  destruct (b64_val_cases x qx Hx) as [(sx & Ex & ->)|(sx & mx & ex & Ex & ->)];
    destruct (b64_val_cases y qy Hy) as [(sy & Ey & ->)|(sy & my & ey & Ey & ->)];
    rewrite Ex, Ey in *.
  - exists 0. split; [reflexivity|apply rounds_to_0; ring].
  - exists 0. split; [reflexivity|apply rounds_to_0; ring].
  - exists 0. split; [reflexivity|apply rounds_to_0; ring].
  - destruct (SFmul_finite sx mx ex sy my ey Vx Vy Hr) as (mr & er & E & V & R).
    rewrite E. eexists. split; [reflexivity|exact R].
Qed.

Lemma b64_fdiv_std x y qx qy :
  b64_val x = Some qx -> b64_val y = Some qy ->
  ~ qy == 0 ->
  in_range b64_omega (qx / qy) ->
  exists q, b64_val (x / y)%float = Some q /\ rounds_to b64_eps (qx / qy) q.
Proof.
  intros Hx Hy Hy0 Hr.
  rewrite b64_val_SFval, div_spec. unfold SF64div.
  destruct (b64_val_cases y qy Hy) as [(sy & Ey & ->)|(sy & my & ey & Ey & ->)];
    [exfalso; apply Hy0; reflexivity|].
  destruct (b64_val_cases x qx Hx) as [(sx & Ex & ->)|(sx & mx & ex & Ex & ->)];
    rewrite Ex, Ey.
  - exists 0. split; [reflexivity|]. apply rounds_to_0. unfold Qdiv. ring.
  - destruct (SFdiv_finite sx mx ex sy my ey Hr) as (mr & er & E & V & R).
    rewrite E. eexists. split; [reflexivity|exact R].
Qed.

Theorem binary64_std_model : std_model binary64 b64_eps b64_omega.
Proof.
  constructor.
  - split; vm_compute; discriminate.
  - vm_compute. discriminate.
  - exact b64_of_int_std.
  - exact b64_int_truediv_std.
  - exact b64_fmul_std.
  - exact b64_fdiv_std.
Qed.

End Binary64Model.

(** * Invariants of method bodies *)

Module Frame.

Section Keeps.
Context {S : Type} (R : S -> S -> Prop).
Hypothesis R_refl : forall s, R s s.
Hypothesis R_trans : forall s1 s2 s3, R s1 s2 -> R s2 s3 -> R s1 s3.

Lemma keeps_ret {A} (a : A) : keeps R (ret a).
Proof. intros s. apply R_refl. Qed.

Lemma keeps_lift {A} (r : result A) : keeps R (lift r).
Proof. intros s. apply R_refl. Qed.

Lemma keeps_gets {A} (f : S -> A) : keeps R (gets f).
Proof. intros s. apply R_refl. Qed.

Lemma keeps_modify (f : S -> S) : (forall s, R s (f s)) -> keeps R (modify f).
Proof. intros Hf s. apply Hf. Qed.

Lemma keeps_bind {A B} (m : M S A) (k : A -> M S B) :
  keeps R m -> (forall a, keeps R (k a)) -> keeps R (bind m k).
Proof.
  intros Hm Hk s. unfold bind. specialize (Hm s).
  destruct (m s) as [[a|e] s1]; simpl in *; [|exact Hm].
  eapply R_trans; [exact Hm|apply Hk].
Qed.

Lemma keeps_try_except {A} (body handler : M S A) catches :
  keeps R body -> keeps R handler -> keeps R (try_except body catches handler).
Proof.
  intros Hb Hh s. unfold try_except. specialize (Hb s).
  destruct (body s) as [[a|e] s1]; simpl in *; [exact Hb|].
  destruct (catches e); simpl; [|exact Hb].
  eapply R_trans; [exact Hb|apply Hh].
Qed.
End Keeps.

End Frame.

(** apply the lemmas of [Frame] along the structure of a method body *)
Ltac keeps_step :=
  lazymatch goal with
  | |- keeps _ (ret _) => apply Frame.keeps_ret
  | |- keeps _ (lift _) => apply Frame.keeps_lift
  | |- keeps _ (gets _) => apply Frame.keeps_gets
  | |- keeps _ (modify _) => apply Frame.keeps_modify
  | |- keeps _ (try_except _ _ _) => apply Frame.keeps_try_except
  | |- keeps _ (bind _ _) => apply Frame.keeps_bind; [| |intros ?]
  | |- keeps _ (match ?x with _ => _ end) => destruct x
  | |- keeps _ (let _ := _ in _) => cbv zeta
  end.

(** * Further lemmas on the dictionaries *)

Module MiotFacts.
Import PyVal Miot.

Lemma keys_kept_union (d attrs : gmap string pyval) k :
  is_Some (attrs !! k) -> is_Some ((d ∪ attrs) !! k).
Proof.
  intros [v Hv]. destruct (d !! k) as [w|] eqn:Hd.
  - exists w. apply lookup_union_Some_l. exact Hd.
  - exists v. rewrite lookup_union_r by exact Hd. exact Hv.
Qed.

End MiotFacts.

(** * Further lemmas on the light *)

Module LightMore.
Import Py PyVal Miot Light.

Lemma same_config_refl s : same_config s s.
Proof. repeat split. Qed.

Lemma same_config_trans s1 s2 s3 :
  same_config s1 s2 -> same_config s2 s3 -> same_config s1 s3.
Proof.
  intros (A1 & B1 & C1) (A2 & B2 & C2). repeat split; congruence.
Qed.

Lemma kept_by_update_refl s : kept_by_update s s.
Proof. split; [apply same_config_refl|]. intros k H. exact H. Qed.

Lemma kept_by_update_trans s1 s2 s3 :
  kept_by_update s1 s2 -> kept_by_update s2 s3 -> kept_by_update s1 s3.
Proof.
  intros [C1 K1] [C2 K2]. split; [eapply same_config_trans; eassumption|].
  intros k H. apply K2, K1, H.
Qed.

Lemma kept_by_update_attrs d s : kept_by_update s (update_state_attrs d s).
Proof.
  split; [repeat split|]. intros k Hk. simpl. apply MiotFacts.keys_kept_union, Hk.
Qed.

Lemma untouched_refl s : untouched_by_turn_on s s.
Proof. split; [apply same_config_refl|]. repeat split. Qed.

Lemma untouched_trans s1 s2 s3 :
  untouched_by_turn_on s1 s2 -> untouched_by_turn_on s2 s3 ->
  untouched_by_turn_on s1 s3.
Proof.
  intros (C1 & A1 & B1 & D1 & E1) (C2 & A2 & B2 & D2 & E2).
  split; [eapply same_config_trans; eassumption|]. repeat split; congruence.
Qed.

Section Invariants.
Variable color_temperature_mired_to_kelvin : Z -> result Z.
Variable color_temperature_kelvin_to_mired : pyval -> result pyval.

Lemma poll_keeps (R : light -> light -> Prop) fetch :
  (forall s, R s s) ->
  (forall s1 s2 s3, R s1 s2 -> R s2 s3 -> R s1 s3) ->
  (forall b s, R s (set_available b s)) ->
  (forall v s, R s (set_state v s)) ->
  (forall v s, R s (set_brightness v s)) ->
  (forall v s, R s (set_color_temp v s)) ->
  (forall v s, R s (set_effect v s)) ->
  (forall d s, R s (update_state_attrs d s)) ->
  keeps R (poll color_temperature_kelvin_to_mired fetch).
Proof.
  intros Hrefl Htrans H2 H3 H4 H5 H6 H7.
  unfold poll, update_state, update_brightness, update_color_temp,
    update_attr_color_temperature, update_attr_effect, update_effect.
  repeat (keeps_step; try assumption); auto.
Qed.

Lemma async_update_keeps (R : light -> light -> Prop) fetch :
  (forall s, R s s) ->
  (forall s1 s2 s3, R s1 s2 -> R s2 s3 -> R s1 s3) ->
  (forall b s, R s (set_skip_update b s)) ->
  (forall b s, R s (set_available b s)) ->
  (forall v s, R s (set_state v s)) ->
  (forall v s, R s (set_brightness v s)) ->
  (forall v s, R s (set_color_temp v s)) ->
  (forall v s, R s (set_effect v s)) ->
  (forall d s, R s (update_state_attrs d s)) ->
  keeps R (async_update color_temperature_kelvin_to_mired fetch).
Proof.
  intros Hrefl Htrans H1 H2 H3 H4 H5 H6 H7 s. unfold async_update.
  destruct (skips s); [apply H1|].
  apply Frame.keeps_try_except; try assumption.
  - apply poll_keeps; assumption.
  - apply Frame.keeps_modify. auto.
Qed.

Lemma async_turn_on_keeps (R : light -> light -> Prop) kw try_command :
  (forall s, R s s) ->
  (forall s1 s2 s3, R s1 s2 -> R s2 s3 -> R s1 s3) ->
  (forall b s, R s (set_skip_update b s)) ->
  (forall v s, R s (set_state v s)) ->
  (forall v s, R s (set_effect v s)) ->
  keeps R (async_turn_on color_temperature_mired_to_kelvin kw try_command).
Proof.
  intros Hrefl Htrans H1 H2 H3. unfold async_turn_on.
  repeat (keeps_step; try assumption); auto.
Qed.
End Invariants.

(** ** The dictionary of a poll *)

Lemma build_statedict_snoc response r :
  build_statedict (response ++ [r]) =
    match value r with
    | Some v => <[did r := v]> (build_statedict response)
    | None => build_statedict response
    end.
Proof. unfold build_statedict. rewrite foldl_app. reflexivity. Qed.

Lemma build_statedict_last_value response k :
  build_statedict response !! k = last_value k response.
Proof.
  unfold last_value.
  induction response as [|r response IH] using rev_ind.
  - apply lookup_empty.
  - rewrite build_statedict_snoc, omap_app. simpl.
    destruct (decide (did r = k)) as [<-|Hne].
    + destruct (value r) as [v|]; simpl.
      * rewrite last_snoc. apply lookup_insert_eq.
      * rewrite app_nil_r. exact IH.
    + rewrite app_nil_r.
      destruct (value r) as [v|]; [|exact IH].
      rewrite lookup_insert_ne by exact Hne. exact IH.
Qed.

(** ** async_turn_on *)

Section TurnOn.
Variable color_temperature_mired_to_kelvin : Z -> result Z.
Let m2k := color_temperature_mired_to_kelvin.

Lemma effect_to_code_not_elem modes label :
  label ∉ modes.*2 -> effect_to_code modes label = Raise ValueError.
Proof.
  intros Hnot. unfold effect_to_code.
  assert (H : list_index label (modes.*2) = Raise ValueError).
  { induction (modes.*2) as [|y l IH]; [reflexivity|]. simpl.
    apply not_elem_of_cons in Hnot as [Hne Hnot].
    destruct (decide (y = label)); [congruence|]. rewrite (IH Hnot). reflexivity. }
  rewrite H. reflexivity.
Qed.

Lemma async_turn_on_effect kw try_command s label modes on m_switch :
  ATTR_EFFECT kw = Some label ->
  get_power_on (_ctrl_params s) = Ok on ->
  getitem (_mapping s) "switch_status" = Ok m_switch ->
  mode (_ctrl_params s) = Some modes ->
  async_turn_on m2k kw try_command s =
    match effect_to_code modes label with
    | Ok k =>
        match getitem (_mapping s) "mode" with
        | Ok m_mode =>
            let parameters :=
              [make_parameter "switch_status" on m_switch;
               make_parameter "mode" (VInt k) m_mode] in
            (Ok parameters, after_command (try_command parameters) s)
        | Raise e => (Raise e, s)
        end
    | Raise e => (Raise e, s)
    end.
Proof.
  intros He Hon Hsw Hm.
  unfold async_turn_on, bind, gets, lift, modify, ret, after_command.
  rewrite Hon, Hsw, He, Hm. simpl.
  destruct (effect_to_code modes label) as [k|e]; [|reflexivity].
  destruct (getitem (_mapping s) "mode") as [m|e]; [|reflexivity].
  simpl. destruct (try_command _); reflexivity.
Qed.

(** the entity after a call that has sent its parameters *)
Lemma async_turn_on_outcome kw try_command s parameters s' :
  async_turn_on m2k kw try_command s = (Ok parameters, s') ->
  s' = after_command (try_command parameters)
         (if clears_effect kw then set_effect VNone s else s).
Proof.
  unfold async_turn_on, bind, gets, lift, modify, ret, after_command, clears_effect.
  destruct (get_power_on _) as [on|]; [|discriminate].
  destruct (getitem (_mapping s) "switch_status") as [m|]; [|discriminate].
  destruct (ATTR_EFFECT kw) as [label|].
  - destruct (required _) as [modes|]; [|discriminate]. simpl.
    destruct (effect_to_code modes label) as [k|]; [|discriminate].
    destruct (getitem (_mapping s) "mode") as [mm|]; [|discriminate]. simpl.
    destruct (try_command _) eqn:Htc; intros [= <- <-]; rewrite Htc; reflexivity.
  - destruct (ATTR_BRIGHTNESS kw) as [b|]; simpl.
    + destruct (convert_value _ _ _ _ _) as [v|]; [|discriminate].
      destruct (getitem (_mapping s) "brightness") as [mb|]; [|discriminate].
      destruct (ATTR_COLOR_TEMP kw) as [mired|]; simpl.
      * destruct (get_value_range _ _) as [vr|]; [|discriminate].
        destruct (m2k mired) as [ct|]; [|discriminate].
        destruct (clamp_color_temp vr ct) as [ct'|]; [|discriminate].
        destruct (getitem (_mapping s) "color_temperature") as [mc|]; [|discriminate].
        simpl.
        destruct (try_command _) eqn:Htc; intros [= <- <-]; rewrite Htc;
          destruct s; reflexivity.
      * destruct (try_command _) eqn:Htc; intros [= <- <-]; rewrite Htc; reflexivity.
    + destruct (ATTR_COLOR_TEMP kw) as [mired|]; simpl.
      * destruct (get_value_range _ _) as [vr|]; [|discriminate].
        destruct (m2k mired) as [ct|]; [|discriminate].
        destruct (clamp_color_temp vr ct) as [ct'|]; [|discriminate].
        destruct (getitem (_mapping s) "color_temperature") as [mc|]; [|discriminate].
        simpl.
        destruct (try_command _) eqn:Htc; intros [= <- <-]; rewrite Htc; reflexivity.
      * destruct (try_command _) eqn:Htc; intros [= <- <-]; rewrite Htc; reflexivity.
Qed.
End TurnOn.

(** ** async_update, step by step *)

Section PollSteps.
Variable color_temperature_kelvin_to_mired : pyval -> result pyval.
Let k2m := color_temperature_kelvin_to_mired.

(** a poll that runs to its end has run each of its steps to its end *)
Lemma poll_Ok_steps response s s' :
  poll k2m (Ok response) s = (Ok tt, s') ->
  exists state s2 s3 s4,
    build_statedict response !! "switch_status" = Some state /\
    update_state state (_ctrl_params s) (set_available true s) = (Ok tt, s2) /\
    update_brightness (build_statedict response) (_ctrl_params s)
      (update_state_attrs {[ "state_value" := state ]} s2) = (Ok tt, s3) /\
    update_color_temp k2m (build_statedict response) s3 = (Ok tt, s4) /\
    update_effect (build_statedict response) (_ctrl_params s)
      (update_state_attrs
         (present "effect" (build_statedict response !! "mode"))
         (update_state_attrs
            (present "color_temperature"
               (build_statedict response !! "color_temperature")) s4))
      = (Ok tt, s').
Proof.
  unfold poll. cbv zeta. intros H.
  apply LightFacts.bind_Ok_inv in H as (resp & s0 & H0 & H). injection H0 as <- <-.
  cbv zeta in H. remember (build_statedict response) as statedict eqn:Hsd.
  clear Hsd.
  apply LightFacts.bind_Ok_inv in H as (state & s0 & H0 & H).
  unfold lift, getattr in H0.
  destruct (statedict !! "switch_status") as [state'|] eqn:Hsw; [|discriminate].
  injection H0 as <- <-.
  apply LightFacts.bind_Ok_inv in H as ([] & s1 & H1 & H). injection H1 as <-.
  apply LightFacts.bind_Ok_inv in H as (cp & s1' & H1 & H). injection H1 as <- <-.
  apply LightFacts.bind_Ok_inv in H as ([] & s2 & H2 & H).
  apply LightFacts.bind_Ok_inv in H as ([] & s2' & H3 & H). injection H3 as <-.
  apply LightFacts.bind_Ok_inv in H as ([] & s3 & H4 & H).
  apply LightFacts.bind_Ok_inv in H as ([] & s4 & H5 & H).
  apply LightFacts.bind_Ok_inv in H as ([] & s6 & H6 & H).
  rewrite LightFacts.update_attr_color_temperature_eq in H6. injection H6 as <-.
  apply LightFacts.bind_Ok_inv in H as ([] & s7 & H7 & H).
  rewrite LightFacts.update_attr_effect_eq in H7. injection H7 as <-.
  exists state', s2, s3, s4. simpl in H2. auto.
Qed.

Lemma update_state_inv state cp s s2 :
  update_state state cp s = (Ok tt, s2) ->
  exists on, get_power_on cp = Ok on /\
    (py_eq state on = true -> s2 = set_state (VBool true) s) /\
    (py_eq state on = false ->
       exists off, get_power_off cp = Ok off /\
         s2 = set_state (if py_eq state off then VBool false else VNone) s).
Proof.
  unfold update_state, bind, lift, modify.
  destruct (get_power_on cp) as [on|]; [|discriminate].
  intros H. exists on. split; [reflexivity|].
  destruct (py_eq state on).
  - injection H as <-. split; [reflexivity|discriminate].
  - split; [discriminate|]. intros _.
    destruct (get_power_off cp) as [off|]; [|discriminate].
    exists off. split; [reflexivity|].
    destruct (py_eq state off); injection H as <-; reflexivity.
Qed.

Lemma update_brightness_value statedict cp s v n :
  statedict !! "brightness" = Some v ->
  convert_value binary64 cp (as_num v) "brightness" false = Ok n ->
  update_brightness statedict cp s = (Ok tt, set_brightness (VInt n) s).
Proof.
  intros Hv Hn. unfold update_brightness, try_except, bind, lift, modify, getattr.
  rewrite Hv. simpl. rewrite Hn. reflexivity.
Qed.

Lemma update_brightness_raise statedict cp s v e :
  statedict !! "brightness" = Some v ->
  convert_value binary64 cp (as_num v) "brightness" false = Raise e ->
  e <> KeyError ->
  update_brightness statedict cp s = (Raise e, s).
Proof.
  intros Hv Hn He. unfold update_brightness, try_except, bind, lift, modify, getattr.
  rewrite Hv. simpl. rewrite Hn. simpl.
  unfold is_KeyError. rewrite bool_decide_eq_false_2 by exact He. reflexivity.
Qed.

Lemma update_color_temp_value statedict s v ct :
  statedict !! "color_temperature" = Some v ->
  k2m v = Ok ct ->
  update_color_temp k2m statedict s = (Ok tt, set_color_temp ct s).
Proof.
  intros Hv Hn. unfold update_color_temp, try_except, bind, lift, modify, getattr.
  rewrite Hv. simpl. rewrite Hn. reflexivity.
Qed.

Lemma update_effect_label statedict cp s modes v :
  mode cp = Some modes ->
  statedict !! "mode" = Some v ->
  update_effect statedict cp s =
    (Ok tt, set_effect (match code_to_effect modes v with
                        | Ok label => VStr label
                        | Raise _ => VNone
                        end) s).
Proof.
  intros Hm Hv.
  unfold update_effect, try_except, bind, lift, modify, getattr, required.
  rewrite Hm, Hv. simpl.
  destruct (code_to_effect modes v) as [l|e] eqn:Hc; simpl; [reflexivity|].
  apply LightFacts.code_to_effect_raises in Hc. subst e. reflexivity.
Qed.

Lemma getitem_not_elem {V} (d : list (Z * V)) k :
  k ∉ d.*1 -> getitem d k = Raise KeyError.
Proof.
  induction d as [|[k' v] d IH]; intros Hk; [reflexivity|]. simpl in *.
  apply not_elem_of_cons in Hk as [Hne Hk].
  destruct (decide (k = k')); [contradiction|]. apply IH, Hk.
Qed.

Lemma getitem_elem {V} (d : list (Z * V)) k v :
  NoDup (d.*1) -> (k, v) ∈ d -> getitem d k = Ok v.
Proof.
  intros Hnd Hin. apply list_elem_of_lookup in Hin as [i Hi].
  eapply LightFacts.getitem_lookup; eassumption.
Qed.
End PollSteps.

(** ** async_update, field by field *)

Lemma contains_getitem {V} (d : list (string * V)) (k : string) :
  contains d k = true <-> exists v, getitem d k = Ok v.
Proof.
  unfold contains. rewrite bool_decide_eq_true.
  induction d as [|[k' v] d IH]; simpl.
  - split; [intros H; inversion H|intros [v H]; discriminate].
  - rewrite elem_of_cons. destruct (decide (k = k')) as [->|Hne].
    + split; [intros _; eauto|intros _; left; reflexivity].
    + rewrite <- IH. split; [intros [H|H]; [contradiction|exact H]|auto].
Qed.

Lemma present_lookup_ne key v k :
  k <> key -> present key v !! k = None.
Proof.
  intros Hne. destruct v as [v|]; simpl; [|apply lookup_empty].
  apply lookup_singleton_ne. congruence.
Qed.

Lemma bind_Raise {S A B} (m : M S A) (k : A -> M S B) s e s1 :
  m s = (Raise e, s1) -> bind m k s = (Raise e, s1).
Proof. intros H. unfold bind. rewrite H. reflexivity. Qed.

Section Poll2.
Variable color_temperature_kelvin_to_mired : pyval -> result pyval.
Let k2m := color_temperature_kelvin_to_mired.

(** the entity a poll leaves, field by field *)
Lemma poll_Ok_fields response s s' :
  poll k2m (Ok response) s = (Ok tt, s') ->
  exists state st b c e,
    build_statedict response !! "switch_status" = Some state /\
    update_state state (_ctrl_params s) (set_available true s)
      = (Ok tt, set_state st (set_available true s)) /\
    s' = set_effect e
           (update_state_attrs (present "effect" (build_statedict response !! "mode"))
           (update_state_attrs
              (present "color_temperature"
                 (build_statedict response !! "color_temperature"))
           (set_color_temp c
           (set_brightness b
           (update_state_attrs {[ "state_value" := state ]}
           (set_state st
           (set_available true s))))))).
Proof.
  intros H. apply poll_Ok_steps in H as (state & s2 & s3 & s4 & Hsw & H2 & H3 & H4 & H5).
  destruct (update_state_inv _ _ _ _ H2) as (on & Hon & Ht & Hf).
  assert (Hst : exists st, s2 = set_state st (set_available true s)).
  { destruct (py_eq state on); [eexists; apply Ht; reflexivity|].
    destruct (Hf eq_refl) as (off & _ & ->). eexists. reflexivity. }
  destruct Hst as [st ->].
  apply (LightFacts.update_brightness_shape) in H3 as (b & -> & _).
  apply (LightFacts.update_color_temp_shape) in H4 as (c & -> & _).
  destruct (LightFacts.update_effect_eq (build_statedict response) (_ctrl_params s)
              (update_state_attrs (present "effect" (build_statedict response !! "mode"))
              (update_state_attrs
                 (present "color_temperature"
                    (build_statedict response !! "color_temperature"))
              (set_color_temp c (set_brightness b
                (update_state_attrs {[ "state_value" := state ]}
                  (set_state st (set_available true s))))))))
    as (e & He & _).
  rewrite He in H5. injection H5 as <-.
  exists state, st, b, c, e. repeat split; try assumption; try reflexivity.
Qed.
Lemma async_update_brightness_raise response s state on off v e :
  skips s = false ->
  build_statedict response !! "switch_status" = Some state ->
  get_power_on (_ctrl_params s) = Ok on ->
  get_power_off (_ctrl_params s) = Ok off ->
  build_statedict response !! "brightness" = Some v ->
  convert_value binary64 (_ctrl_params s) (as_num v) "brightness" false = Raise e ->
  e <> KeyError ->
  e <> DeviceException ->
  async_update k2m (Ok response) s =
    (Raise e,
     update_state_attrs {[ "state_value" := state ]}
       (set_state (state_of state on off) (set_available true s))).
Proof.
  intros Hsk Hsw Hon Hoff Hb Hc He1 He2.
  apply LightFacts.async_update_poll_raise; [assumption..|].
  unfold poll. cbv zeta.
  rewrite (LightFacts.bind_Ok _ _ s response s) by reflexivity.
  rewrite (LightFacts.bind_Ok _ _ s state s)
    by (unfold lift; rewrite (LightFacts.getattr_Some _ _ _ Hsw); reflexivity).
  rewrite (LightFacts.bind_Ok _ _ s tt (set_available true s)) by reflexivity.
  rewrite (LightFacts.bind_Ok _ _ _ (_ctrl_params s) (set_available true s))
    by reflexivity.
  rewrite (LightFacts.bind_Ok _ _ _ tt
             (set_state (state_of state on off) (set_available true s)))
    by (apply LightFacts.update_state_eq; assumption).
  rewrite (LightFacts.bind_Ok _ _ _ tt
             (update_state_attrs {[ "state_value" := state ]}
                (set_state (state_of state on off) (set_available true s))))
    by reflexivity.
  apply bind_Raise.
  apply update_brightness_raise with (v := v); assumption.
Qed.
End Poll2.

(** ** A poll as a function of the entity *)

Lemma union_twice (E C V a : gmap string pyval) :
  E ∪ (C ∪ (V ∪ (E ∪ (C ∪ (V ∪ a))))) = E ∪ (C ∪ (V ∪ a)).
Proof.
  apply map_eq. intros k. rewrite !lookup_union.
  destruct (E !! k), (C !! k), (V !! k), (a !! k); reflexivity.
Qed.

Section Uniform.
Variable color_temperature_kelvin_to_mired : pyval -> result pyval.
Let k2m := color_temperature_kelvin_to_mired.
Variable statedict : gmap string pyval.
Variable cp : ctrl_params.

Lemma update_state_uniform state t s2 :
  update_state state cp t = (Ok tt, s2) ->
  exists st, forall t', update_state state cp t' = (Ok tt, set_state st t').
Proof.
  unfold update_state, bind, lift, modify.
  destruct (get_power_on cp) as [on|]; [|discriminate].
  destruct (py_eq state on); [eauto|].
  destruct (get_power_off cp) as [off|]; [|discriminate].
  destruct (py_eq state off); eauto.
Qed.

Lemma update_brightness_uniform t s3 :
  update_brightness statedict cp t = (Ok tt, s3) ->
  exists ob, forall t',
    update_brightness statedict cp t' =
      (Ok tt, match ob with Some b => set_brightness b t' | None => t' end).
Proof.
  unfold update_brightness, try_except, bind, lift, modify, ret.
  destruct (getattr statedict "brightness") as [v|e]; simpl.
  - destruct (convert_value binary64 cp (as_num v) "brightness" false) as [b|e]; simpl.
    + intros _. exists (Some (VInt b)). reflexivity.
    + destruct (is_KeyError e); [|discriminate]. intros _. exists None. reflexivity.
  - destruct (is_KeyError e); [|discriminate]. intros _. exists None. reflexivity.
Qed.

Lemma update_color_temp_uniform t s4 :
  update_color_temp k2m statedict t = (Ok tt, s4) ->
  exists oc, forall t',
    update_color_temp k2m statedict t' =
      (Ok tt, match oc with Some c => set_color_temp c t' | None => t' end).
Proof.
  unfold update_color_temp, try_except, bind, lift, modify, ret.
  destruct (getattr statedict "color_temperature") as [v|e]; simpl.
  - destruct (k2m v) as [c|e]; simpl.
    + intros _. exists (Some c). reflexivity.
    + destruct (is_KeyError e); [|discriminate]. intros _. exists None. reflexivity.
  - destruct (is_KeyError e); [|discriminate]. intros _. exists None. reflexivity.
Qed.

Lemma update_effect_uniform :
  exists e, forall t', update_effect statedict cp t' = (Ok tt, set_effect e t').
Proof.
  unfold update_effect, try_except, bind, lift, modify, required, getattr.
  destruct (mode cp) as [modes|]; simpl; [|eauto].
  destruct (statedict !! "mode") as [v|] eqn:Hg; simpl; [|eauto].
  destruct (code_to_effect modes v) as [l|e] eqn:Hc; simpl; [eauto|].
  apply LightFacts.code_to_effect_raises in Hc. subst e. simpl. eauto.
Qed.

End Uniform.

Section PollUniform.
Variable color_temperature_kelvin_to_mired : pyval -> result pyval.
Let k2m := color_temperature_kelvin_to_mired.

(** a poll that runs to its end acts on every entity with these control
    parameters in the same way *)
Lemma poll_uniform response s s1 :
  poll k2m (Ok response) s = (Ok tt, s1) ->
  exists state st ob oc e,
    forall t, _ctrl_params t = _ctrl_params s ->
      poll k2m (Ok response) t =
        (Ok tt, apply_poll state st ob oc e (build_statedict response) t).
Proof.
  intros H.
  apply poll_Ok_steps in H
    as (state & s2 & s3 & s4 & Hsw & H2 & H3 & H4 & H5).
  destruct (update_state_uniform _ _ _ _ H2) as [st Hst].
  destruct (update_brightness_uniform _ _ _ _ H3) as [ob Hob].
  destruct (update_color_temp_uniform _ _ _ _ H4) as [oc Hoc].
  destruct (update_effect_uniform (build_statedict response) (_ctrl_params s))
    as [e He].
  exists state, st, ob, oc, e. intros t Ht.
  unfold poll. cbv zeta.
  rewrite (LightFacts.bind_Ok _ _ t response t) by reflexivity.
  rewrite (LightFacts.bind_Ok _ _ t state t)
    by (unfold lift; rewrite (LightFacts.getattr_Some _ _ _ Hsw); reflexivity).
  rewrite (LightFacts.bind_Ok _ _ t tt (set_available true t)) by reflexivity.
  rewrite (LightFacts.bind_Ok _ _ _ (_ctrl_params s) (set_available true t))
    by (unfold gets; simpl; rewrite Ht; reflexivity).
  rewrite (LightFacts.bind_Ok _ _ _ tt _ (Hst _)).
  rewrite (LightFacts.bind_Ok _ _ _ tt
             (update_state_attrs {[ "state_value" := state ]}
                (set_state st (set_available true t)))) by reflexivity.
  rewrite (LightFacts.bind_Ok _ _ _ tt _ (Hob _)).
  rewrite (LightFacts.bind_Ok _ _ _ tt _ (Hoc _)).
  rewrite (LightFacts.bind_Ok _ _ _ tt _
             (LightFacts.update_attr_color_temperature_eq _ _)).
  rewrite (LightFacts.bind_Ok _ _ _ tt _
             (LightFacts.update_attr_effect_eq _ _)).
  rewrite He. reflexivity.
Qed.
End PollUniform.

Lemma light_eq (s t : light) :
  _mapping s = _mapping t -> _ctrl_params s = _ctrl_params t ->
  _update_instant s = _update_instant t -> _skip_update s = _skip_update t ->
  _available s = _available t -> _state s = _state t ->
  _state_attrs s = _state_attrs t -> _brightness s = _brightness t ->
  _color_temp s = _color_temp t -> _effect s = _effect t -> s = t.
Proof. destruct s, t. simpl. intros. congruence. Qed.

Lemma apply_poll_config state st ob oc e sd s :
  same_config s (apply_poll state st ob oc e sd s) /\
  _skip_update (apply_poll state st ob oc e sd s) = _skip_update s.
Proof. unfold apply_poll. destruct ob, oc; repeat split. Qed.

(** the entity a completed poll leaves is a fixed point of that poll *)
Lemma apply_poll_twice state st ob oc e sd s :
  apply_poll state st ob oc e sd (apply_poll state st ob oc e sd s) =
  apply_poll state st ob oc e sd s.
Proof.
  apply light_eq; unfold apply_poll; destruct ob, oc; simpl; try reflexivity;
    apply union_twice.
Qed.

End LightMore.

(** * Further lemmas on the sensor *)

Module SensorMore.
Import Py PyVal Miot Sensor.

Lemma sensor_config_refl s : same_config s s.
Proof. repeat split. Qed.

Lemma sensor_config_trans s1 s2 s3 :
  same_config s1 s2 -> same_config s2 s3 -> same_config s1 s3.
Proof.
  intros (A1 & B1 & C1 & D1) (A2 & B2 & C2 & D2). repeat split; congruence.
Qed.

Lemma sensor_kept_refl s : kept_by_update s s.
Proof. split; [apply sensor_config_refl|]. intros k H. exact H. Qed.

Lemma sensor_kept_trans s1 s2 s3 :
  kept_by_update s1 s2 -> kept_by_update s2 s3 -> kept_by_update s1 s3.
Proof.
  intros [C1 K1] [C2 K2]. split; [eapply sensor_config_trans; eassumption|].
  intros k H. apply K2, K1, H.
Qed.

Lemma sensor_kept_attrs d s : kept_by_update s (update_state_attrs d s).
Proof.
  split; [repeat split|]. intros k Hk. simpl. apply MiotFacts.keys_kept_union, Hk.
Qed.

Lemma sensor_async_update_keeps (R : sensor -> sensor -> Prop) fetch :
  (forall s, R s s) ->
  (forall s1 s2 s3, R s1 s2 -> R s2 s3 -> R s1 s3) ->
  (forall s, R s (set_skip_update false s)) ->
  (forall b s, R s (set_available b s)) ->
  (forall s, R s (set_assumed_state true s)) ->
  (forall v s, R s (set_state v s)) ->
  (forall d s, R s (update_state_attrs d s)) ->
  keeps R (async_update fetch).
Proof.
  intros Hrefl Htrans H1 H2 H3 H4 H5 s. unfold async_update.
  destruct (skips s); [apply H1|].
  revert s. change (keeps R (try_except (poll fetch) is_DeviceException
                                (modify (set_available false)) >> select_state)).
  unfold poll, select_state.
  repeat (keeps_step; try assumption); auto.
Qed.

(** the loop runs to its end exactly when every entry with code 0 scales *)
Lemma loop_Ok cp response : forall acc,
  Forall (fun r => code r = 0 -> exists y, scaled cp r = Ok y) response ->
  exists acc', loop cp acc response = Ok acc'.
Proof.
  induction response as [|r response IH]; intros [sd c] Hall; simpl.
  - eauto.
  - apply Forall_cons in Hall as [Hr Hall].
    destruct (code r =? 0) eqn:Hc.
    + apply Z.eqb_eq in Hc. destruct (Hr Hc) as [y ->]. simpl. apply IH, Hall.
    + destruct (code r =? -4004); simpl; apply IH, Hall.
Qed.

Lemma loop_Raise cp response r e : forall acc,
  r ∈ response -> code r = 0 -> scaled cp r = Raise e ->
  exists e', loop cp acc response = Raise e' /\
    (e' = KeyError \/ e' = TypeError \/ e' = OverflowError).
Proof.
  induction response as [|r' response IH]; intros [sd c] Hin Hc Hs.
  - inversion Hin.
  - simpl. destruct (code r' =? 0) eqn:Hc'.
    + destruct (scaled cp r') as [y|e'] eqn:Hs'; simpl.
      * apply elem_of_cons in Hin as [->|Hin]; [congruence|].
        apply IH; assumption.
      * exists e'. split; [reflexivity|]. eapply SensorFacts.scaled_raises, Hs'.
    + apply elem_of_cons in Hin as [->|Hin].
      { apply Z.eqb_neq in Hc'. contradiction. }
      destruct (code r' =? -4004); simpl; apply IH; assumption.
Qed.

Lemma skip_update_kept fetch s :
  _skip_update s = false -> _skip_update (snd (async_update fetch s)) = false.
Proof.
  revert s.
  apply (sensor_async_update_keeps
           (fun s s' => _skip_update s = false -> _skip_update s' = false)); auto.
Qed.

Lemma run_updates_skip_update fetches : forall s,
  _skip_update s = false -> _skip_update (run_updates fetches s) = false.
Proof.
  induction fetches as [|fetch fetches IH]; intros s H; [exact H|].
  simpl. apply IH, skip_update_kept, H.
Qed.

Lemma sensor_eq (s t : sensor) :
  _mapping s = _mapping t -> _ctrl_params s = _ctrl_params t ->
  _update_instant s = _update_instant t -> _skip_update s = _skip_update t ->
  _available s = _available t -> _assumed_state s = _assumed_state t ->
  _state s = _state t -> _state_attrs s = _state_attrs t ->
  _sensor_property s = _sensor_property t -> s = t.
Proof. destruct s, t. simpl. intros. congruence. Qed.

Lemma after_loop_attrs response acc s :
  _state_attrs (after_loop response acc s) = fst acc ∪ _state_attrs s.
Proof. unfold after_loop. destruct (snd acc =? _); reflexivity. Qed.

Lemma after_loop_sensor_property response acc s :
  _sensor_property (after_loop response acc s) = _sensor_property s.
Proof. unfold after_loop. destruct (snd acc =? _); reflexivity. Qed.

Lemma after_loop_ctrl_params response acc s :
  _ctrl_params (after_loop response acc s) = _ctrl_params s.
Proof. unfold after_loop. destruct (snd acc =? _); reflexivity. Qed.

(** the entity a completed poll leaves is a fixed point of that poll *)
Lemma after_loop_twice response acc s :
  let s1 := set_state (primary (after_loop response acc s)) (after_loop response acc s) in
  set_state (primary (after_loop response acc s1)) (after_loop response acc s1) = s1.
Proof.
  intros s1.
  assert (Ha : _state_attrs (after_loop response acc s1) =
               _state_attrs (after_loop response acc s)).
  { rewrite !after_loop_attrs. subst s1.
    change (_state_attrs (set_state ?v ?x)) with (_state_attrs x).
    rewrite after_loop_attrs, (assoc_L (∪)), (idemp_L (∪)). reflexivity. }
  assert (Hp : primary (after_loop response acc s1) =
               primary (after_loop response acc s)).
  { unfold primary. rewrite Ha, !after_loop_sensor_property. subst s1.
    change (_sensor_property (set_state ?v ?x)) with (_sensor_property x).
    rewrite after_loop_sensor_property. reflexivity. }
  rewrite Hp. subst s1.
  apply sensor_eq; try reflexivity; try exact Ha;
    unfold after_loop; destruct (snd acc =? _); reflexivity.
Qed.

End SensorMore.

(** * The values a poll stores, and the failed poll *)

Module SensorValues.
Import Py PyVal Miot Sensor.

Lemma round_half_even_nearest q :
  nearest_thousandth q (round_half_even (q * 1000)).
Proof.
  unfold nearest_thousandth.
  generalize (q * 1000)%Q. clear q. intros q.
  unfold round_half_even.
  pose proof (Qfloor_le q) as Hlo. pose proof (Qlt_floor q) as Hhi.
  rewrite inject_Z_plus in Hhi.
  destruct (Qcompare (q - inject_Z (Qfloor q)) (1 # 2)) eqn:Hc.
  - apply Qeq_alt in Hc.
    destruct (Z.even (Qfloor q)) eqn:He.
    + split; [|intros _; exact He].
      apply Qabs_Qle_condition. hide_inject_Z; split; lra.
    + split.
      * apply Qabs_Qle_condition. rewrite inject_Z_plus.
        hide_inject_Z; split; lra.
      * intros _. rewrite Z.even_add, He. reflexivity.
  - apply Qlt_alt in Hc. split.
    + apply Qabs_Qle_condition. hide_inject_Z; split; lra.
    + intros Ht. exfalso.
      assert (H : (Qabs (inject_Z (Qfloor q) - q) < 1 # 2)%Q).
      { apply Qabs_Qlt_condition. hide_inject_Z; split; lra. }
      rewrite Ht in H. revert H. apply Qlt_irrefl.
  - apply Qgt_alt in Hc. split.
    + apply Qabs_Qle_condition. rewrite inject_Z_plus.
      hide_inject_Z; split; lra.
    + intros Ht. exfalso.
      assert (H : (Qabs (inject_Z (Qfloor q + 1) - q) < 1 # 2)%Q).
      { apply Qabs_Qlt_condition. rewrite inject_Z_plus.
        hide_inject_Z; split; lra. }
      rewrite Ht in H. revert H. apply Qlt_irrefl.
Qed.

(** [round(f, 3)] on a finite float *)
Lemma float_round3_spec f q :
  b64_val f = Some q ->
  exists m, nearest_thousandth q m /\
    (in_range b64_omega (inject_Z m / 1000) ->
     exists qy, b64_val (float_round3 f) = Some qy /\
                rounds_to b64_eps (inject_Z m / 1000) qy).
Proof.
  intros Hq. exists (round_half_even (q * 1000)).
  split; [apply round_half_even_nearest|].
  intros Hr. unfold float_round3. rewrite Hq. cbv zeta.
  destruct (Z.eqb_spec (round_half_even (q * 1000)) 0) as [E|E].
  - exists 0%Q. split.
    + destruct (get_sign f); reflexivity.
    + rewrite E. apply Binary64Model.rounds_to_0. reflexivity.
  - apply (Binary64Model.b64_int_truediv_std _ 1000); [discriminate|exact Hr].
Qed.

Lemma py_round3_spec x y : py_round3 x = Ok y -> rounded_to_3 x y.
Proof.
  destruct x as [|b|z|f|t]; simpl; intros H; inversion H; subst; try reflexivity.
  destruct (b64_val f) as [q|] eqn:Hq.
  - destruct (float_round3_spec f q Hq) as (m & Hm & Hr).
    exists m, (float_round3 f). split; [reflexivity|]. split; assumption.
  - unfold float_round3. rewrite Hq. reflexivity.
Qed.

(** what is stored for an entry with code 0: with a ratio the product,
    rounded to three places; without, the value itself *)
Lemma scaled_spec cp r y :
  scaled cp r = Ok y ->
  exists v, value r = Some v /\
    match value_ratio cp (did r) with
    | Some f => exists x, py_mul_val v f = Ok x /\ rounded_to_3 x y
    | None => y = v
    end.
Proof.
  unfold scaled, value_ratio, except_KeyError, getattr, required.
  destruct (value r) as [v|] eqn:Hv.
  - intros H. exists v. split; [reflexivity|]. revert H.
    destruct (cp !! did r) as [p|]; simpl; [|congruence].
    destruct (p !! "value_ratio") as [f|]; simpl; [|congruence].
    destruct (py_mul_val v f) as [x|e] eqn:Hm; simpl.
    + destruct (py_round3 x) as [y'|e] eqn:Hr.
      * intros [= <-]. exists x. split; [reflexivity|]. apply py_round3_spec, Hr.
      * apply SensorFacts.py_round3_raises in Hr. subst e. discriminate.
    + apply SensorFacts.py_mul_val_raises in Hm. destruct Hm; subst e; discriminate.
  - destruct (cp !! did r) as [p|]; simpl; [|discriminate].
    destruct (p !! "value_ratio") as [f|]; simpl; discriminate.
Qed.

Lemma loop_app cp before after : forall acc,
  loop cp acc (before ++ after) =
    (acc' <~ loop cp acc before ;; loop cp acc' after).
Proof.
  induction before as [|r before IH]; intros acc; simpl; [reflexivity|].
  destruct (loop_body cp acc r) as [acc'|e]; simpl; [apply IH|reflexivity].
Qed.

(** what the loop stores under an identifier: the value of the last entry
    that reports it *)
Lemma loop_last_lookup cp before r after sd c sd' c' :
  loop cp (sd, c) (before ++ r :: after) = Ok (sd', c') ->
  did r ∉ did <$> after ->
  exists y, sd' !! did r = Some y /\
    (code r <> 0 -> y = VNone) /\
    (code r = 0 -> scaled cp r = Ok y).
Proof.
  intros Hl Hfresh. rewrite loop_app in Hl.
  destruct (loop cp (sd, c) before) as [[sd1 c1]|e]; [|discriminate].
  cbn [rbind loop] in Hl.
  destruct (loop_body cp (sd1, c1) r) as [[sd2 c2]|e] eqn:Hb; [|discriminate].
  cbn [rbind] in Hl.
  rewrite (SensorFacts.loop_lookup_other _ _ _ _ _ _ _ Hl Hfresh).
  unfold loop_body in Hb.
  destruct (Z.eqb_spec (code r) 0) as [H0|H0].
  - destruct (scaled cp r) as [y|] eqn:Hs; simpl in Hb; inversion Hb; subst.
    exists y. split; [apply lookup_insert_eq|]. split; [contradiction|reflexivity].
  - exists VNone. split; [|split; [reflexivity|contradiction]].
    destruct (code r =? -4004); inversion Hb; subst; apply lookup_insert_eq.
Qed.

(** the attributes after a poll that completes *)
Lemma update_completes s response :
  skips s = false ->
  fst (async_update (Ok response) s) = Ok tt ->
  exists sd c,
    loop (_ctrl_params s) (∅, 0) response = Ok (sd, c) /\
    _state_attrs (snd (async_update (Ok response) s)) = sd ∪ _state_attrs s.
Proof.
  intros Hs. rewrite SensorFacts.async_update_response by assumption.
  destruct (loop _ _ response) as [[sd c]|e]; [|discriminate].
  intros _. exists sd, c. split; [reflexivity|].
  cbv zeta. cbn [snd].
  apply (SensorFacts.after_loop_state_attrs response (sd, c) s).
Qed.

(** the attribute a completed poll stores for an entry that is the last one
    of its identifier *)
Lemma stored_value s before r after :
  skips s = false ->
  fst (async_update (Ok (before ++ r :: after)) s) = Ok tt ->
  did r ∉ did <$> after ->
  exists y,
    _state_attrs (snd (async_update (Ok (before ++ r :: after)) s)) !! did r
      = Some y /\
    (code r <> 0 -> y = VNone) /\
    (code r = 0 ->
       exists v, value r = Some v /\
         match value_ratio (_ctrl_params s) (did r) with
         | Some f => exists x, py_mul_val v f = Ok x /\ rounded_to_3 x y
         | None => y = v
         end).
Proof.
  intros Hs Hok Hfresh.
  destruct (update_completes s _ Hs Hok) as (sd & c & Hl & ->).
  destruct (loop_last_lookup _ _ _ _ _ _ _ _ Hl Hfresh) as (y & Hy & Hn & H0).
  exists y. split; [apply lookup_union_Some_l, Hy|]. split; [exact Hn|].
  intros Hc. apply scaled_spec, H0, Hc.
Qed.

(** a key no entry reports keeps its value *)
Lemma unreported_kept s response k :
  skips s = false ->
  fst (async_update (Ok response) s) = Ok tt ->
  k ∉ did <$> response ->
  _state_attrs (snd (async_update (Ok response) s)) !! k = _state_attrs s !! k.
Proof.
  intros Hs Hok Hk.
  destruct (update_completes s _ Hs Hok) as (sd & c & Hl & ->).
  apply lookup_union_r.
  rewrite (SensorFacts.loop_lookup_other _ _ _ _ _ _ _ Hl Hk).
  apply lookup_empty.
Qed.

(** ** The failed poll *)

Lemma failed_poll_fields s :
  skips s = false ->
  fst (async_update (Raise DeviceException) s) = Ok tt /\
  _available (snd (async_update (Raise DeviceException) s)) = false /\
  _state_attrs (snd (async_update (Raise DeviceException) s)) = _state_attrs s /\
  _assumed_state (snd (async_update (Raise DeviceException) s)) = _assumed_state s /\
  _state (snd (async_update (Raise DeviceException) s)) = primary s.
Proof.
  intros Hs. rewrite SensorFacts.async_update_DeviceException by assumption.
  repeat split.
Qed.

(** the state stays the one derived from the attributes, whatever a call of
    [async_update] does *)
Lemma state_cached_kept fetch s :
  state_cached s -> state_cached (snd (async_update fetch s)).
Proof.
  intros Hc. destruct (skips s) eqn:Hs.
  - rewrite SensorFacts.async_update_skip by assumption. exact Hc.
  - destruct fetch as [response|e].
    + rewrite SensorFacts.async_update_response by assumption.
      destruct (loop _ _ _); [reflexivity|exact Hc].
    + destruct (decide (e = DeviceException)) as [->|He].
      * rewrite SensorFacts.async_update_DeviceException by assumption. reflexivity.
      * rewrite SensorFacts.async_update_raise by assumption. exact Hc.
Qed.

Lemma run_updates_state_cached fetches : forall s,
  state_cached s -> state_cached (run_updates fetches s).
Proof.
  induction fetches as [|fetch fetches IH]; intros s H; [exact H|].
  simpl. apply IH, state_cached_kept, H.
Qed.

End SensorValues.

(** * The parameters a call sends, and the failed poll of the light *)

Module LightSent.
Import Py PyVal Miot Light.

Section Sent.
Variable color_temperature_mired_to_kelvin : Z -> result Z.
Let m2k := color_temperature_mired_to_kelvin.

End Sent.

Section Failed.
Variable color_temperature_kelvin_to_mired : pyval -> result pyval.
Let k2m := color_temperature_kelvin_to_mired.

(** the failed poll of the light, field by field *)
Lemma light_failed_poll_fields s :
  skips s = false ->
  fst (async_update k2m (Raise DeviceException) s) = Ok tt /\
  _available (snd (async_update k2m (Raise DeviceException) s)) = false /\
  _state (snd (async_update k2m (Raise DeviceException) s)) = _state s /\
  _brightness (snd (async_update k2m (Raise DeviceException) s)) = _brightness s /\
  _color_temp (snd (async_update k2m (Raise DeviceException) s)) = _color_temp s /\
  _effect (snd (async_update k2m (Raise DeviceException) s)) = _effect s /\
  _state_attrs (snd (async_update k2m (Raise DeviceException) s)) = _state_attrs s.
Proof.
  intros Hs. unfold async_update, try_except. rewrite Hs. repeat split.
Qed.
End Failed.

End LightSent.

(** * The specification, claim by claim *)

Import Py PyVal Miot.

(** ** The sensor *)

(** C2. In [MiotSensor.async_update], a poll that fetches a response sets the
    assumed-state flag if and only if every entry of the response has result
    code -4004: when all of them have, the flag is set after the call; when
    some entry has another code (a partial failure, or none), the call leaves
    the flag as it was. *)
Theorem C2_assumed_state_iff_all_4004 (s : Sensor.sensor) (response : list entry) :
  Sensor.skips s = false ->
  (Forall Sensor.failed_4004 response ->
     Sensor._assumed_state (snd (Sensor.async_update (Ok response) s)) = true) /\
  (~ Forall Sensor.failed_4004 response ->
     Sensor._assumed_state (snd (Sensor.async_update (Ok response) s)) =
       Sensor._assumed_state s).
Proof.
  intros Hs. rewrite SensorFacts.assumed_state_after, Hs. split; intros H.
  - rewrite bool_decide_eq_true_2 by assumption. apply orb_true_r.
  - rewrite bool_decide_eq_false_2 by assumption. apply orb_false_r.
Qed.

Lemma C2_witness :
  Sensor._assumed_state
    (snd (Sensor.async_update (Ok Sensor.example_all_4004)
            (Sensor.example_sensor None))) = true /\
  Sensor._assumed_state
    (snd (Sensor.async_update (Ok Sensor.example_partial)
            (Sensor.example_sensor None))) = false.
Proof.
  split.
  - apply (C2_assumed_state_iff_all_4004 (Sensor.example_sensor None)
             Sensor.example_all_4004 eq_refl).
    repeat constructor.
  - apply (C2_assumed_state_iff_all_4004 (Sensor.example_sensor None)
             Sensor.example_partial eq_refl).
    intros H. apply Forall_cons in H as [_ H].
    apply Forall_cons in H as [H _]. discriminate H.
Defined.

(** C6, as stated, fails.  The attribute of a property fetched with code 0
    is not stored when another entry of the response cannot be scaled: the
    humidity 40 (no ratio) comes with a temperature that is a text, the
    product with the ratio raises TypeError, the exception leaves
    [async_update] and [_state_attrs.update] is never reached.  And of two
    entries for one identifier the later one is stored, not the first. *)
Lemma C6_counterexample :
  let r := Sensor.async_update (Ok Sensor.example_unscalable)
             (Sensor.example_sensor None) in
  let r' := Sensor.async_update (Ok Sensor.example_reported_twice)
              (Sensor.example_sensor None) in
  (Entry "humidity" 0 (Some (VInt 40)) ∈ Sensor.example_unscalable /\
   Sensor.value_ratio (Sensor._ctrl_params (Sensor.example_sensor None))
     "humidity" = None /\
   fst r = Raise TypeError /\
   Sensor._state_attrs (snd r) !! "humidity" = None) /\
  (Entry "humidity" 0 (Some (VInt 40)) ∈ Sensor.example_reported_twice /\
   fst r' = Ok tt /\
   Sensor._state_attrs (snd r') !! "humidity" = Some (VInt 41)).
Proof.
  cbv zeta. split.
  - split; [apply list_elem_of_here|]. repeat split; vm_compute; reflexivity.
  - split; [apply list_elem_of_here|]. split; vm_compute; reflexivity.
Qed.

(** C6, amended.  In [MiotSensor.async_update], when the poll completes,
    for every entry of the response with result code 0 and raw value [v]
    that is the last one for its identifier: when the control parameters hold
    a [value_ratio] [f] for the identifier, the attribute stored under it is
    the product [v * f] rounded to three decimal places (an int is its own
    rounding; a float goes to a float next to the nearest multiple of a
    thousandth, ties to even); when they hold none, it is [v] itself. *)
Theorem C6_sensor_scaling (s : Sensor.sensor) (before after : list entry)
    (r : entry) (v : pyval) :
  Sensor.skips s = false ->
  fst (Sensor.async_update (Ok (before ++ r :: after)) s) = Ok tt ->
  did r ∉ did <$> after ->
  code r = 0 ->
  value r = Some v ->
  exists y,
    Sensor._state_attrs
      (snd (Sensor.async_update (Ok (before ++ r :: after)) s)) !! did r
      = Some y /\
    match Sensor.value_ratio (Sensor._ctrl_params s) (did r) with
    | Some f => exists x, py_mul_val v f = Ok x /\ rounded_to_3 x y
    | None => y = v
    end.
Proof.
  intros Hs Hok Hfresh Hc Hv.
  destruct (SensorValues.stored_value s before r after Hs Hok Hfresh)
    as (y & Hy & _ & H0).
  exists y. split; [exact Hy|].
  destruct (H0 Hc) as (v' & Hv' & Hm).
  rewrite Hv in Hv'. injection Hv' as <-. exact Hm.
Qed.

Lemma C6_witness :
  let s' := snd (Sensor.async_update (Ok Sensor.example_fine)
                   (Sensor.example_sensor None)) in
  (Sensor._state_attrs s' !! "temperature" = Some (VFloat 0x1.447ae147ae148p+1) /\
   py_mul_val (VFloat 0x1.958793dd97f63p+4) (VFloat 0x1.999999999999ap-4)
     = Ok (VFloat 0x1.446c764adff83p+1) /\
   rounded_to_3 (VFloat 0x1.446c764adff83p+1) (VFloat 0x1.447ae147ae148p+1)) /\
  Sensor._state_attrs s' !! "humidity" = Some (VInt 40).
Proof.
  intros s'. split.
  - destruct (C6_sensor_scaling (Sensor.example_sensor None) []
                [Entry "humidity" 0 (Some (VInt 40))]
                (Entry "temperature" 0 (Some (VFloat 0x1.958793dd97f63p+4)))
                (VFloat 0x1.958793dd97f63p+4) eq_refl)
      as (y & Hy & Hm).
    + vm_compute. reflexivity.
    + intros Hin. apply list_elem_of_singleton in Hin. discriminate Hin.
    + reflexivity.
    + reflexivity.
    + assert (Hr : Sensor.value_ratio
                     (Sensor._ctrl_params (Sensor.example_sensor None))
                     "temperature" = Some (VFloat 0x1.999999999999ap-4))
        by (vm_compute; reflexivity).
      cbn [did] in Hm, Hy. rewrite Hr in Hm.
      destruct Hm as (x & Hx & Hrd).
      assert (Hy' : Sensor._state_attrs s' !! "temperature"
                    = Some (VFloat 0x1.447ae147ae148p+1))
        by (vm_compute; reflexivity).
      assert (Hx' : py_mul_val (VFloat 0x1.958793dd97f63p+4)
                      (VFloat 0x1.999999999999ap-4)
                    = Ok (VFloat 0x1.446c764adff83p+1))
        by (vm_compute; reflexivity).
      change ([] ++ ?l) with l in Hy. fold Sensor.example_fine in Hy.
      fold s' in Hy. rewrite Hy' in Hy. injection Hy as <-.
      rewrite Hx' in Hx. injection Hx as <-.
      split; [exact Hy'|]. split; [exact Hx'|exact Hrd].
  - destruct (C6_sensor_scaling (Sensor.example_sensor None)
                [Entry "temperature" 0 (Some (VFloat 0x1.958793dd97f63p+4))] []
                (Entry "humidity" 0 (Some (VInt 40)))
                (VInt 40) eq_refl)
      as (y & Hy & Hm).
    + vm_compute. reflexivity.
    + intros Hin. inversion Hin.
    + reflexivity.
    + reflexivity.
    + assert (Hr : Sensor.value_ratio
                     (Sensor._ctrl_params (Sensor.example_sensor None))
                     "humidity" = None)
        by (vm_compute; reflexivity).
      cbn [did] in Hm, Hy. rewrite Hr in Hm. subst y. exact Hy.
Defined.

(** C7, at the failing input.  A sensor without [sensor_property], mapping
    "temperature" first, polls temperature 253 (ratio 0.1) and humidity 40:
    the poll completes, the attribute of the first mapping key is 25.3, and
    the primary state is None, because [self._mapping.keys()[0]] raises
    TypeError and the bare [except] stores None. *)
Theorem C7_state_None_without_sensor_property :
  let r := Sensor.async_update (Ok Sensor.example_response)
             (Sensor.example_sensor None) in
  fst r = Ok tt /\
  Sensor.first_key (Sensor._mapping (snd r)) = Some "temperature" /\
  Sensor.dict_get (Sensor._state_attrs (snd r)) "temperature" =
    VFloat (b64_int_truediv 253 10) /\
  Sensor._state (snd r) = VNone.
Proof. vm_compute. repeat split. Qed.

(** C10. Once a poll in which every returned property had code -4004 has set
    the assumed-state flag, the flag is True after any sequence of later
    [async_update] calls, whatever they fetch. *)
Theorem C10_assumed_state_never_reset (s : Sensor.sensor)
    (response : list entry) (later : list (result (list entry))) :
  Sensor.skips s = false ->
  Forall Sensor.failed_4004 response ->
  Sensor._assumed_state
    (Sensor.run_updates later (snd (Sensor.async_update (Ok response) s))) = true.
Proof.
  intros Hs Hall.
  apply SensorFacts.run_updates_keeps_assumed_state.
  rewrite SensorFacts.assumed_state_after, Hs.
  rewrite bool_decide_eq_true_2 by assumption. apply orb_true_r.
Qed.

Lemma C10_witness :
  Sensor._assumed_state
    (Sensor.run_updates
       [Ok Sensor.example_response; Raise DeviceException; Ok Sensor.example_response]
       (snd (Sensor.async_update (Ok Sensor.example_all_4004)
               (Sensor.example_sensor (Some "temperature"))))) = true.
Proof.
  apply (C10_assumed_state_never_reset
           (Sensor.example_sensor (Some "temperature"))
           Sensor.example_all_4004 _ eq_refl).
  repeat constructor.
Defined.

(** ** The light *)

(** C1, as stated, fails: with value_range [[0, 254, 1]] one device step is
    one UI unit, and the UI value 14 goes to the device value 12
    ([round(14/255*100) = 5], [int(5/100*255/1) = 12]) and comes back as 12,
    two units away. *)
Lemma C1_counterexample :
  Light.convert_value binary64 (Light.brightness_params 0 254 1)
    (Some (NInt 14)) "brightness" true = Ok 12 /\
  Light.convert_value binary64 (Light.brightness_params 0 254 1)
    (Some (NInt 12)) "brightness" false = Ok 12 /\
  ~ Light.within_step 0 254 1 0 14 12.
Proof.
  split; [vm_compute; reflexivity|]. split; [vm_compute; reflexivity|].
  unfold Light.within_step. lia.
Qed.

(** C1, amended.  For every UI brightness value [b] in 0..255 and every
    value_range [[lo, hi, step]] with [step > 0] and [lo <= hi], converting
    [b] to the device range and the result back yields a value whose distance
    from [b] is at most the UI-scale equivalent of one device step,
    [255 * step / (hi - lo + 1)], plus 2 (the rounding to a percentage and
    the final rounding).  This is a theorem of IEEE 754 binary64, the float
    of CPython, for every range and step that the conversion to float does
    not overflow on: [4 * (hi - lo + 1)] and [125 * step] at most [2^1000]. *)
Theorem C1_brightness_round_trip (cp : Light.ctrl_params) (b lo hi step : Z) :
  0 <= b <= 255 ->
  0 < step ->
  lo <= hi ->
  Light.get_value_range cp "brightness" = Ok [lo; hi; step] ->
  4 * (hi - lo + 1) <= 2 ^ 1000 ->
  125 * step <= 2 ^ 1000 ->
  exists d back,
    Light.convert_value binary64 cp (Some (NInt b)) "brightness" true = Ok d /\
    Light.convert_value binary64 cp (Some (NInt d)) "brightness" false = Ok back /\
    Light.within_step lo hi step 2 b back.
Proof.
  intros Hb Hs Hlh Hvr HN Hst.
  apply (RoundTrip.round_trip_std binary64 b64_eps b64_omega
           Binary64Model.binary64_std_model); try assumption.
  - unfold b64_omega. rewrite <- Zle_Qle. exact HN.
  - unfold b64_omega. rewrite <- Zle_Qle. exact Hst.
Qed.

Lemma C1_witness :
  exists d back,
    Light.convert_value binary64 (Light.brightness_params 1 100 1)
      (Some (NInt 75)) "brightness" true = Ok d /\
    Light.convert_value binary64 (Light.brightness_params 1 100 1)
      (Some (NInt d)) "brightness" false = Ok back /\
    Light.within_step 1 100 1 2 75 back.
Proof.
  apply (C1_brightness_round_trip (Light.brightness_params 1 100 1) 75 1 100 1).
  - lia.
  - lia.
  - lia.
  - vm_compute. reflexivity.
  - vm_compute. discriminate.
  - vm_compute. discriminate.
Defined.

(** The amended bound on binary64 itself, over every UI value 0..255, for
    the ranges lights come with; with 1 in place of 2 it fails for
    [[1, 100, 1]] (75 goes to 28 and back to 71: [0.29 * 100] is just below
    29 in binary64). *)
Lemma binary64_round_trips_checked :
  Light.round_trips_within binary64 1 100 1 2 = true /\
  Light.round_trips_within binary64 0 100 1 2 = true /\
  Light.round_trips_within binary64 0 254 1 2 = true /\
  Light.round_trips_within binary64 1 255 1 2 = true /\
  Light.round_trips_within binary64 0 100 5 2 = true /\
  Light.round_trips_within binary64 1 1000 1 2 = true /\
  Light.round_trips_within binary64 1 65535 1 2 = true /\
  Light.round_trips_within binary64 1 100 1 1 = false /\
  Light.round_trip binary64 (Light.brightness_params 1 100 1) 75 = Ok 71.
Proof. vm_compute. repeat split. Qed.






(** C8, as stated, fails for 'switch_status': a response that does not
    answer the switch makes [async_update] raise KeyError. *)
Lemma C8_counterexample :
  Light.build_statedict Light.example_switch_missing !! "switch_status" = None /\
  fst (Light.async_update Light.HA.color_temperature_kelvin_to_mired
         (Ok Light.example_switch_missing)
         (Light.example_light (Light.example_params 1 100 1))) = Raise KeyError.
Proof. vm_compute. split; reflexivity. Qed.

(** C8, amended.  For every poll response that answers 'switch_status' (the
    on and off sentinels being configured), [MiotLight.async_update] does not
    raise on a missing 'brightness', 'color_temperature' or 'mode': it
    completes whenever the conversions of the properties that are present do
    not fail, the cached brightness and colour temperature of a missing
    property are left as they were, and the effect of a missing mode is
    cleared.  A response without 'switch_status' makes it raise KeyError,
    the entity unchanged. *)
Theorem C8_missing_keys_tolerated
    (kelvin_to_mired : pyval -> result pyval) (s : Light.light)
    (response : list entry) (state on off : pyval) :
  Light.skips s = false ->
  (Light.build_statedict response !! "switch_status" = None ->
     Light.async_update kelvin_to_mired (Ok response) s = (Raise KeyError, s)) /\
  (Light.build_statedict response !! "switch_status" = Some state ->
   Light.get_power_on (Light._ctrl_params s) = Ok on ->
   Light.get_power_off (Light._ctrl_params s) = Ok off ->
   (forall v, Light.build_statedict response !! "brightness" = Some v ->
      Light.tolerated
        (Light.convert_value binary64 (Light._ctrl_params s) (as_num v)
           "brightness" false)) ->
   (forall v, Light.build_statedict response !! "color_temperature" = Some v ->
      Light.tolerated (kelvin_to_mired v)) ->
   exists s',
     Light.async_update kelvin_to_mired (Ok response) s = (Ok tt, s') /\
     (Light.build_statedict response !! "brightness" = None ->
        Light._brightness s' = Light._brightness s) /\
     (Light.build_statedict response !! "color_temperature" = None ->
        Light._color_temp s' = Light._color_temp s) /\
     (Light.build_statedict response !! "mode" = None ->
        Light._effect s' = VNone)).
Proof.
  intros Hs. split.
  - intros Hsw. apply LightFacts.async_update_poll_raise; [exact Hs|discriminate|].
    apply LightFacts.poll_switch_missing, Hsw.
  - intros Hsw Hon Hoff Hb Hc.
    destruct (LightFacts.poll_Ok kelvin_to_mired response s state on off
                Hsw Hon Hoff Hb Hc) as [s' Hp].
    exists s'. split; [apply LightFacts.async_update_poll_Ok; assumption|].
    apply LightFacts.poll_Ok_inv in Hp
      as (state' & st & b & c & e & _ & -> & Hb' & Hc' & He').
    simpl. repeat split; assumption.
Qed.

Lemma C8_witness :
  exists s',
    Light.async_update Light.HA.color_temperature_kelvin_to_mired
      (Ok Light.example_switch_only)
      (Light.example_light (Light.example_params 1 100 1)) = (Ok tt, s') /\
    Light._brightness s' = VNone /\
    Light._color_temp s' = VNone /\
    Light._effect s' = VNone.
Proof.
  destruct (C8_missing_keys_tolerated
              Light.HA.color_temperature_kelvin_to_mired
              (Light.example_light (Light.example_params 1 100 1))
              Light.example_switch_only (VBool true) (VBool true) (VBool false)
              eq_refl) as [_ H].
  destruct H as (s' & Hu & Hb & Hc & He).
  - reflexivity.
  - reflexivity.
  - reflexivity.
  - intros v Hv. vm_compute in Hv. discriminate Hv.
  - intros v Hv. vm_compute in Hv. discriminate Hv.
  - exists s'. split; [exact Hu|]. split; [|split].
    + apply Hb. reflexivity.
    + apply Hc. reflexivity.
    + apply He. reflexivity.
Defined.

(** ** Both platforms *)

(** C3. A DeviceException raised while the device handle is constructed or
    the device info is read makes the platform set-up raise PlatformNotReady
    with no entity registered or added.  The same exception raised by the
    fetch of a poll is caught by [async_update]: the call returns normally,
    the availability flag is False afterwards, and the cached values are
    those of before: for the light the state, the brightness, the colour
    temperature, the effect and the extra attributes; for the sensor the
    extra attributes, the assumed-state flag and the state, which is
    re-derived from the unchanged attributes and so is the state that an
    earlier poll has stored.  That it is the stored one holds from the first
    call of [async_update] that completes, whatever the later calls fetch. *)
Theorem C3_device_errors
    (device device_info : Type)
    (MiotDevice : string -> string -> mapping -> result device)
    (info : device -> result device_info)
    (light_init : device -> config -> device_info -> result Light.light)
    (sensor_init : device -> config -> device_info -> result Sensor.sensor)
    (kelvin_to_mired : pyval -> result pyval)
    (cfg : config) (hl : hass Light.light) (hs : hass Sensor.sensor)
    (l : Light.light) (s : Sensor.sensor) :
  (MiotDevice (conf_host cfg) (conf_token cfg) (conf_mapping cfg)
     = Raise DeviceException
   \/ exists d,
        MiotDevice (conf_host cfg) (conf_token cfg) (conf_mapping cfg) = Ok d /\
        info d = Raise DeviceException) ->
  Light.skips l = false ->
  Sensor.skips s = false ->
  let setup_l :=
    Light.async_setup_platform device device_info MiotDevice info light_init cfg hl in
  let setup_s :=
    Sensor.async_setup_platform device device_info MiotDevice info sensor_init cfg hs in
  let polled_l := Light.async_update kelvin_to_mired (Raise DeviceException) l in
  let polled_s := Sensor.async_update (Raise DeviceException) s in
  (fst setup_l = Raise PlatformNotReady /\
   added (snd setup_l) = added hl /\
   default ∅ (data (snd setup_l)) = default ∅ (data hl)) /\
  (fst setup_s = Raise PlatformNotReady /\
   added (snd setup_s) = added hs /\
   default ∅ (data (snd setup_s)) = default ∅ (data hs)) /\
  (fst polled_l = Ok tt /\
   Light._available (snd polled_l) = false /\
   Light._state (snd polled_l) = Light._state l /\
   Light._brightness (snd polled_l) = Light._brightness l /\
   Light._color_temp (snd polled_l) = Light._color_temp l /\
   Light._effect (snd polled_l) = Light._effect l /\
   Light._state_attrs (snd polled_l) = Light._state_attrs l) /\
  (fst polled_s = Ok tt /\
   Sensor._available (snd polled_s) = false /\
   Sensor._state_attrs (snd polled_s) = Sensor._state_attrs s /\
   Sensor._assumed_state (snd polled_s) = Sensor._assumed_state s /\
   Sensor._state (snd polled_s) = Sensor.primary s /\
   (Sensor.state_cached s -> Sensor._state (snd polled_s) = Sensor._state s)) /\
  (forall prev fetch later,
     Sensor.skips prev = false ->
     fst (Sensor.async_update fetch prev) = Ok tt ->
     Sensor.state_cached
       (Sensor.run_updates later (snd (Sensor.async_update fetch prev)))).
Proof.
  intros Hdev Hl Hs setup_l setup_s polled_l polled_s.
  split; [|split; [|split; [|split]]].
  - subst setup_l.
    unfold Light.async_setup_platform, bind, modify, try_except, lift.
    destruct Hdev as [-> | (d & -> & Hi)]; simpl; [repeat split|].
    rewrite Hi. repeat split.
  - subst setup_s.
    unfold Sensor.async_setup_platform, bind, modify, try_except, lift.
    destruct Hdev as [-> | (d & -> & Hi)]; simpl; [repeat split|].
    rewrite Hi. repeat split.
  - apply LightSent.light_failed_poll_fields, Hl.
  - destruct (SensorValues.failed_poll_fields s Hs) as (H1 & H2 & H3 & H4 & H5).
    repeat split; try assumption.
    intros Hc. subst polled_s. rewrite H5. symmetry. exact Hc.
  - intros prev fetch later Hprev Hok.
    apply SensorValues.run_updates_state_cached.
    apply (SensorFacts.async_update_state_cached fetch prev); [exact Hprev|].
    destruct (Sensor.async_update fetch prev) as [r s1]. simpl in Hok.
    subst r. reflexivity.
Qed.

Lemma C3_witness :
  let k2m := Light.HA.color_temperature_kelvin_to_mired in
  let l := snd (Light.async_update k2m (Ok Light.example_response)
                  (Light.example_light (Light.example_params 1 100 1))) in
  let s := snd (Sensor.async_update (Ok Sensor.example_response)
                  (Sensor.example_sensor (Some "temperature"))) in
  let l' := snd (Light.async_update k2m (Raise DeviceException) l) in
  let s' := snd (Sensor.async_update (Raise DeviceException) s) in
  fst (Light.async_setup_platform unit unit
         (fun _ _ _ => Raise DeviceException) (fun _ => Ok tt)
         (fun _ _ _ => Ok (Light.example_light (Light.example_params 1 100 1)))
         Light.example_config {| data := None; added := [] |})
    = Raise PlatformNotReady /\
  (Light._available l = true /\ Light._available l' = false /\
   Light._brightness l = VInt 128 /\ Light._brightness l' = VInt 128) /\
  (Sensor._available s = true /\ Sensor._available s' = false /\
   Sensor._state s = VFloat 0x1.94ccccccccccdp+4 /\
   Sensor._state s' = VFloat 0x1.94ccccccccccdp+4).
Proof.
  intros k2m l s l' s'.
  destruct (C3_device_errors unit unit
              (fun _ _ _ => Raise DeviceException) (fun _ => Ok tt)
              (fun _ _ _ => Ok (Light.example_light (Light.example_params 1 100 1)))
              (fun _ _ _ => Ok (Sensor.example_sensor None))
              k2m Light.example_config
              {| data := None; added := [] |} {| data := None; added := [] |}
              l s)
    as ((Hsetup & _) & _ & Hlight & Hsensor & _).
  - left. reflexivity.
  - reflexivity.
  - reflexivity.
  - destruct Hlight as (_ & Hav & _ & Hbri & _).
    destruct Hsensor as (_ & Hav' & _ & _ & _ & Hst).
    assert (Hb : Light._brightness l = VInt 128) by (vm_compute; reflexivity).
    assert (Hs : Sensor._state s = VFloat 0x1.94ccccccccccdp+4)
      by (vm_compute; reflexivity).
    split; [exact Hsetup|]. split.
    + split; [reflexivity|]. split; [exact Hav|]. split; [exact Hb|].
      fold l' in Hbri. rewrite Hbri. exact Hb.
    + split; [reflexivity|]. split; [exact Hav'|]. split; [exact Hs|].
      fold s' in Hst. rewrite Hst; [exact Hs|]. reflexivity.
Defined.

(** C9, as stated, fails: [_state_attrs.update(...)] merges.  Light: the
    mode fetched by one poll stays under "effect" after a poll that completes
    without an answer for the mode.  Sensor: the humidity fetched by one poll
    stays after a poll that fetches the temperature only. *)
Lemma C9_counterexample :
  let k2m := Light.HA.color_temperature_kelvin_to_mired in
  let l1 := snd (Light.async_update k2m (Ok Light.example_response)
                   (Light.example_light (Light.example_params 1 100 1))) in
  let l2 := Light.async_update k2m (Ok Light.example_mode_missing) l1 in
  let s1 := snd (Sensor.async_update (Ok Sensor.example_response)
                   (Sensor.example_sensor None)) in
  let s2 := Sensor.async_update (Ok Sensor.example_temperature_only) s1 in
  (fst l2 = Ok tt /\
   Light._state_attrs (snd l2) !! "effect" = Some (VInt 1) /\
   ~ overwritten_wholesale (Light.written_keys Light.example_mode_missing)
       (Light._state_attrs (snd l2))) /\
  (fst s2 = Ok tt /\
   Sensor._state_attrs (snd s2) !! "humidity" = Some (VInt 40) /\
   ~ overwritten_wholesale (did <$> Sensor.example_temperature_only)
       (Sensor._state_attrs (snd s2))).
Proof.
  cbv zeta. split.
  - split; [vm_compute; reflexivity|]. split; [vm_compute; reflexivity|].
    intros H. specialize (H "effect").
    assert (Hin : "effect" ∈ Light.written_keys Light.example_mode_missing).
    { apply H. eexists. vm_compute. reflexivity. }
    vm_compute in Hin.
    repeat (apply elem_of_cons in Hin as [Hin|Hin]; [discriminate Hin|]).
    inversion Hin.
  - split; [vm_compute; reflexivity|]. split; [vm_compute; reflexivity|].
    intros H. specialize (H "humidity").
    assert (Hin : "humidity" ∈ did <$> Sensor.example_temperature_only).
    { apply H. eexists. vm_compute. reflexivity. }
    vm_compute in Hin.
    repeat (apply elem_of_cons in Hin as [Hin|Hin]; [discriminate Hin|]).
    inversion Hin.
Qed.

(** C9, amended.  On every successful poll the keys the poll writes are
    overwritten with the freshly fetched values and every other key of the
    extra-attribute dictionary keeps its earlier value (the update merges).
    The light writes "state_value" and, when they are fetched,
    "color_temperature" and "effect".  The sensor writes the identifier of
    every entry of the response, with the value of the last entry for that
    identifier: None when its result code is not 0, and otherwise its raw
    value, scaled by the ratio of the property and rounded to three places
    when there is one.  On a failed poll the call returns normally, the
    dictionary is left as it was and the availability flag is False. *)
Theorem C9_attributes_merged
    (kelvin_to_mired : pyval -> result pyval)
    (l l' : Light.light) (s : Sensor.sensor)
    (response_l response_s : list entry) :
  Light.skips l = false ->
  Sensor.skips s = false ->
  (Light.poll kelvin_to_mired (Ok response_l) l = (Ok tt, l') ->
     Light.async_update kelvin_to_mired (Ok response_l) l = (Ok tt, l') /\
     exists state,
       Light.build_statedict response_l !! "switch_status" = Some state /\
       Light._state_attrs l' =
         Light.present "effect" (Light.build_statedict response_l !! "mode") ∪
         (Light.present "color_temperature"
            (Light.build_statedict response_l !! "color_temperature") ∪
          ({[ "state_value" := state ]} ∪ Light._state_attrs l))) /\
  (fst (Sensor.async_update (Ok response_s) s) = Ok tt ->
     (forall before r after,
        response_s = before ++ r :: after ->
        did r ∉ did <$> after ->
        exists y,
          Sensor._state_attrs (snd (Sensor.async_update (Ok response_s) s))
            !! did r = Some y /\
          (code r <> 0 -> y = VNone) /\
          (code r = 0 ->
             exists v, value r = Some v /\
               match Sensor.value_ratio (Sensor._ctrl_params s) (did r) with
               | Some f => exists x, py_mul_val v f = Ok x /\ rounded_to_3 x y
               | None => y = v
               end)) /\
     (forall k, k ∉ did <$> response_s ->
        Sensor._state_attrs (snd (Sensor.async_update (Ok response_s) s)) !! k
          = Sensor._state_attrs s !! k)) /\
  (fst (Light.async_update kelvin_to_mired (Raise DeviceException) l) = Ok tt /\
   Light._available
     (snd (Light.async_update kelvin_to_mired (Raise DeviceException) l)) = false /\
   Light._state_attrs
     (snd (Light.async_update kelvin_to_mired (Raise DeviceException) l))
     = Light._state_attrs l) /\
  (fst (Sensor.async_update (Raise DeviceException) s) = Ok tt /\
   Sensor._available (snd (Sensor.async_update (Raise DeviceException) s)) = false /\
   Sensor._state_attrs (snd (Sensor.async_update (Raise DeviceException) s))
     = Sensor._state_attrs s).
Proof.
  intros Hl Hs. split; [|split; [|split]].
  - intros Hp. split; [apply LightFacts.async_update_poll_Ok; assumption|].
    apply LightFacts.poll_Ok_inv in Hp
      as (state & st & b & c & e & Hsw & -> & _).
    exists state. split; [exact Hsw|reflexivity].
  - intros Hok. split.
    + intros before r after -> Hfresh.
      apply SensorValues.stored_value; assumption.
    + intros k Hk. apply SensorValues.unreported_kept; assumption.
  - destruct (LightSent.light_failed_poll_fields kelvin_to_mired l Hl)
      as (H1 & H2 & _ & _ & _ & _ & H3).
    repeat split; assumption.
  - destruct (SensorValues.failed_poll_fields s Hs) as (H1 & H2 & H3 & _).
    repeat split; assumption.
Qed.

Lemma C9_witness :
  let k2m := Light.HA.color_temperature_kelvin_to_mired in
  let l := snd (Light.async_update k2m (Ok Light.example_response)
                  (Light.example_light (Light.example_params 1 100 1))) in
  let s := snd (Sensor.async_update (Ok Sensor.example_response)
                  (Sensor.example_sensor None)) in
  let l2 := snd (Light.poll k2m (Ok Light.example_mode_missing) l) in
  let s2 := snd (Sensor.async_update (Ok Sensor.example_temperature_only) s) in
  (Light._state_attrs l2 !! "effect" = Some (VInt 1) /\
   Light._state_attrs l2 !! "state_value" = Some (VBool true)) /\
  (Sensor._state_attrs s2 !! "temperature" =
     Some (VFloat 0x1.9666666666666p+4) /\
   Sensor._state_attrs s2 !! "humidity" = Some (VInt 40)) /\
  (Light._available l = true /\
   Light._available (snd (Light.async_update k2m (Raise DeviceException) l)) = false /\
   Light._state_attrs (snd (Light.async_update k2m (Raise DeviceException) l))
     = Light._state_attrs l).
Proof.
  intros k2m l s l2 s2.
  destruct (C9_attributes_merged k2m l l2 s
              Light.example_mode_missing Sensor.example_temperature_only)
    as (Hlight & Hsensor & Hfail & _).
  - reflexivity.
  - reflexivity.
  - split; [|split].
    + destruct Hlight as [_ (state & Hst & Hattrs)]; [vm_compute; reflexivity|].
      assert (state = VBool true) as ->
        by (vm_compute in Hst; congruence).
      rewrite Hattrs. split; vm_compute; reflexivity.
    + destruct Hsensor as [Hwritten Hkept]; [vm_compute; reflexivity|].
      split.
      * destruct (Hwritten [] (Entry "temperature" 0 (Some (VInt 254))) [] eq_refl)
          as (y & Hy & _ & H0).
        { intros Hin. inversion Hin. }
        pose proof Hy as Hy'. vm_compute in Hy'. injection Hy' as <-.
        exact Hy.
      * fold s2 in Hkept. rewrite Hkept; [vm_compute; reflexivity|].
        intros Hin. apply list_elem_of_singleton in Hin. discriminate Hin.
    + destruct Hfail as (_ & Hav & Hattrs).
      split; [reflexivity|]. split; [exact Hav|exact Hattrs].
Defined.

(** * Further properties of the code *)

(** ** The light *)



(** X2. [supported_features] advertises a feature exactly when its property
    is in the mapping: the three flags being distinct non-empty bit masks, the
    brightness flag is set if and only if [self._mapping['brightness']] can be
    read, the colour-temperature flag if and only if
    [self._mapping['color_temperature']] can, the effect flag if and only if
    [self._mapping['mode']] can, and no bit outside the three flags is set. *)
Theorem X2_supported_features_follow_mapping
    (SUPPORT_BRIGHTNESS SUPPORT_COLOR_TEMP SUPPORT_EFFECT : Z) (self : Light.light) :
  0 < SUPPORT_BRIGHTNESS -> 0 < SUPPORT_COLOR_TEMP -> 0 < SUPPORT_EFFECT ->
  Z.land SUPPORT_BRIGHTNESS SUPPORT_COLOR_TEMP = 0 ->
  Z.land SUPPORT_BRIGHTNESS SUPPORT_EFFECT = 0 ->
  Z.land SUPPORT_COLOR_TEMP SUPPORT_EFFECT = 0 ->
  let s := Light.supported_features
             SUPPORT_BRIGHTNESS SUPPORT_COLOR_TEMP SUPPORT_EFFECT self in
  (Z.land s SUPPORT_BRIGHTNESS = SUPPORT_BRIGHTNESS <->
     exists m, getitem (Light._mapping self) "brightness" = Ok m) /\
  (Z.land s SUPPORT_COLOR_TEMP = SUPPORT_COLOR_TEMP <->
     exists m, getitem (Light._mapping self) "color_temperature" = Ok m) /\
  (Z.land s SUPPORT_EFFECT = SUPPORT_EFFECT <->
     exists m, getitem (Light._mapping self) "mode" = Ok m) /\
  Z.land s (Z.lor SUPPORT_BRIGHTNESS (Z.lor SUPPORT_COLOR_TEMP SUPPORT_EFFECT)) = s.
Proof.
  intros HB HC HE HBC HBE HCE s. subst s. unfold Light.supported_features. cbv zeta.
  rewrite <- !LightMore.contains_getitem.
  assert (HCB := HBC). rewrite Z.land_comm in HCB.
  assert (HEB := HBE). rewrite Z.land_comm in HEB.
  assert (HEC := HCE). rewrite Z.land_comm in HEC.
  destruct (Light.contains _ "brightness"), (Light.contains _ "color_temperature"),
    (Light.contains _ "mode");
    rewrite ?Z.land_lor_distr_l, ?Z.land_lor_distr_r, ?Z.land_diag, ?Z.land_0_l,
      ?Z.land_0_r, ?HBC, ?HBE, ?HCE, ?HCB, ?HEB, ?HEC, ?Z.lor_0_l, ?Z.lor_0_r;
    repeat split; intros; try reflexivity; try discriminate; try lia.
Qed.

Lemma X2_witness :
  let s := Light.supported_features 1 2 4
             (Light.example_light (Light.example_params 1 100 1)) in
  (Z.land s 1 = 1 <->
     exists m, getitem (Light._mapping (Light.example_light (Light.example_params 1 100 1)))
                 "brightness" = Ok m) /\
  (Z.land s 2 = 2 <->
     exists m, getitem (Light._mapping (Light.example_light (Light.example_params 1 100 1)))
                 "color_temperature" = Ok m) /\
  (Z.land s 4 = 4 <->
     exists m, getitem (Light._mapping (Light.example_light (Light.example_params 1 100 1)))
                 "mode" = Ok m) /\
  Z.land s (Z.lor 1 (Z.lor 2 4)) = s.
Proof.
  apply (X2_supported_features_follow_mapping 1 2 4
           (Light.example_light (Light.example_params 1 100 1)));
    reflexivity.
Defined.

(** X3. [async_turn_on] with an effect that [effect_list] offers sends
    exactly two parameters: 'switch_status' with the power-on value and 'mode'
    with a code [k] that the mode table maps to the requested label.  A
    brightness or colour temperature requested in the same call is ignored,
    the cached effect is not changed, and the entity is marked on (state True,
    skip flag set) if and only if [_try_command] succeeds. *)
Theorem X3_turn_on_effect_of_effect_list
    (mired_to_kelvin : Z -> result Z) (kw : Light.kwargs)
    (try_command : list Light.parameter -> bool) (s : Light.light)
    (label : string) (labels : list string) (on : pyval)
    (m_switch m_mode : mapping_entry) :
  Light.ATTR_EFFECT kw = Some label ->
  Light.effect_list s = Ok labels ->
  label ∈ labels ->
  Light.get_power_on (Light._ctrl_params s) = Ok on ->
  getitem (Light._mapping s) "switch_status" = Ok m_switch ->
  getitem (Light._mapping s) "mode" = Ok m_mode ->
  exists k modes,
    Light.mode (Light._ctrl_params s) = Some modes /\
    (k, label) ∈ modes /\
    let parameters :=
      [Light.make_parameter "switch_status" on m_switch;
       Light.make_parameter "mode" (VInt k) m_mode] in
    Light.async_turn_on mired_to_kelvin kw try_command s =
      (Ok parameters, Light.after_command (try_command parameters) s).
Proof.
  intros He Hl Hin Hon Hsw Hmode.
  unfold Light.effect_list in Hl.
  destruct (Light.mode (Light._ctrl_params s)) as [modes|] eqn:Hm; [|discriminate].
  simpl in Hl. injection Hl as <-.
  destruct (LightFacts.effect_to_code_elem modes label Hin) as [k Hk].
  exists k, modes. split; [reflexivity|].
  split.
  { destruct (LightFacts.effect_to_code_lookup _ _ _ Hk) as [i Hi].
    eapply list_elem_of_lookup_2, Hi. }
  cbv zeta.
  rewrite (LightMore.async_turn_on_effect mired_to_kelvin kw try_command s label
             modes on m_switch He Hon Hsw Hm).
  rewrite Hk, Hmode. reflexivity.
Qed.

Lemma X3_witness :
  exists k modes,
    Light.mode (Light._ctrl_params (Light.example_light (Light.example_params 1 100 1)))
      = Some modes /\
    (k, "Night") ∈ modes /\
    let parameters :=
      [Light.make_parameter "switch_status" (VBool true) {| siid := 2; piid := 1 |};
       Light.make_parameter "mode" (VInt k) {| siid := 2; piid := 4 |}] in
    Light.async_turn_on Light.HA.color_temperature_mired_to_kelvin
      {| Light.ATTR_BRIGHTNESS := Some 128; Light.ATTR_COLOR_TEMP := None;
         Light.ATTR_EFFECT := Some "Night" |}
      (fun _ => true) (Light.example_light (Light.example_params 1 100 1)) =
      (Ok parameters,
       Light.after_command true (Light.example_light (Light.example_params 1 100 1))).
Proof.
  apply (X3_turn_on_effect_of_effect_list Light.HA.color_temperature_mired_to_kelvin
           {| Light.ATTR_BRIGHTNESS := Some 128; Light.ATTR_COLOR_TEMP := None;
              Light.ATTR_EFFECT := Some "Night" |}
           (fun _ => true) (Light.example_light (Light.example_params 1 100 1))
           "Night" ["Day"; "Night"] (VBool true)
           {| siid := 2; piid := 1 |} {| siid := 2; piid := 4 |});
    try reflexivity.
  compute_done.
Defined.

(** X4. [async_turn_on] with an effect that is not in [effect_list] raises
    ValueError (from [list.index]) before anything is sent, and leaves the
    entity as it was. *)
Theorem X4_turn_on_unknown_effect
    (mired_to_kelvin : Z -> result Z) (kw : Light.kwargs)
    (try_command : list Light.parameter -> bool) (s : Light.light)
    (label : string) (labels : list string) (on : pyval) (m_switch : mapping_entry) :
  Light.ATTR_EFFECT kw = Some label ->
  Light.effect_list s = Ok labels ->
  label ∉ labels ->
  Light.get_power_on (Light._ctrl_params s) = Ok on ->
  getitem (Light._mapping s) "switch_status" = Ok m_switch ->
  Light.async_turn_on mired_to_kelvin kw try_command s = (Raise ValueError, s).
Proof.
  intros He Hl Hin Hon Hsw.
  unfold Light.effect_list in Hl.
  destruct (Light.mode (Light._ctrl_params s)) as [modes|] eqn:Hm; [|discriminate].
  simpl in Hl. injection Hl as <-.
  rewrite (LightMore.async_turn_on_effect mired_to_kelvin kw try_command s label
             modes on m_switch He Hon Hsw Hm).
  rewrite (LightMore.effect_to_code_not_elem modes label Hin). reflexivity.
Qed.

Lemma X4_witness :
  Light.async_turn_on Light.HA.color_temperature_mired_to_kelvin
    {| Light.ATTR_BRIGHTNESS := None; Light.ATTR_COLOR_TEMP := None;
       Light.ATTR_EFFECT := Some "Party" |}
    (fun _ => true) (Light.example_light (Light.example_params 1 100 1))
  = (Raise ValueError, Light.example_light (Light.example_params 1 100 1)).
Proof.
  apply (X4_turn_on_unknown_effect Light.HA.color_temperature_mired_to_kelvin
           {| Light.ATTR_BRIGHTNESS := None; Light.ATTR_COLOR_TEMP := None;
              Light.ATTR_EFFECT := Some "Party" |}
           (fun _ => true) (Light.example_light (Light.example_params 1 100 1))
           "Party" ["Day"; "Night"] (VBool true) {| siid := 2; piid := 1 |});
    try reflexivity.
  compute_done.
Defined.

(** X5. Whenever [async_turn_on] gets as far as sending its parameters, the
    entity afterwards is the one before, with the cached effect cleared if and
    only if a brightness or a colour temperature was requested and no effect,
    and with the state True and the skip flag set if and only if
    [_try_command] answered true.  When the command fails, the state and the
    skip flag stay as they were. *)
Theorem X5_turn_on_outcome
    (mired_to_kelvin : Z -> result Z) (kw : Light.kwargs)
    (try_command : list Light.parameter -> bool) (s s' : Light.light)
    (parameters : list Light.parameter) :
  Light.async_turn_on mired_to_kelvin kw try_command s = (Ok parameters, s') ->
  s' = Light.after_command (try_command parameters)
         (if Light.clears_effect kw then Light.set_effect VNone s else s) /\
  (try_command parameters = true ->
     Light._state s' = VBool true /\ Light._skip_update s' = true) /\
  (try_command parameters = false ->
     Light._state s' = Light._state s /\
     Light._skip_update s' = Light._skip_update s) /\
  Light._effect s' = (if Light.clears_effect kw then VNone else Light._effect s).
Proof.
  intros H. apply LightMore.async_turn_on_outcome in H. subst s'.
  split; [reflexivity|].
  unfold Light.after_command.
  destruct (try_command parameters), (Light.clears_effect kw);
    repeat split; intros; try reflexivity; try discriminate.
Qed.

Lemma X5_witness :
  let s := Light.example_light (Light.example_params 1 100 1) in
  let kw := {| Light.ATTR_BRIGHTNESS := Some 128; Light.ATTR_COLOR_TEMP := None;
               Light.ATTR_EFFECT := None |} in
  let parameters :=
    [Light.make_parameter "switch_status" (VBool true) {| siid := 2; piid := 1 |};
     Light.make_parameter "brightness" (VInt 50) {| siid := 2; piid := 2 |}] in
  let s' := Light.set_skip_update true
              (Light.set_state (VBool true) (Light.set_effect VNone s)) in
  s' = Light.after_command true
         (if Light.clears_effect kw then Light.set_effect VNone s else s) /\
  (true = true -> Light._state s' = VBool true /\ Light._skip_update s' = true) /\
  (true = false ->
     Light._state s' = Light._state s /\
     Light._skip_update s' = Light._skip_update s) /\
  Light._effect s' = (if Light.clears_effect kw then VNone else Light._effect s).
Proof.
  apply (X5_turn_on_outcome Light.HA.color_temperature_mired_to_kelvin
           {| Light.ATTR_BRIGHTNESS := Some 128; Light.ATTR_COLOR_TEMP := None;
              Light.ATTR_EFFECT := None |}
           (fun _ => true) (Light.example_light (Light.example_params 1 100 1))
           (Light.set_skip_update true
              (Light.set_state (VBool true)
                 (Light.set_effect VNone
                    (Light.example_light (Light.example_params 1 100 1)))))
           [Light.make_parameter "switch_status" (VBool true) {| siid := 2; piid := 1 |};
            Light.make_parameter "brightness" (VInt 50) {| siid := 2; piid := 2 |}]).
  vm_compute. reflexivity.
Defined.

(** X6. Whatever its outcome (sent, failed or raised), [async_turn_on]
    never touches the configuration, the availability, the extra attributes,
    the cached brightness or the cached colour temperature. *)
Theorem X6_turn_on_leaves_cache
    (mired_to_kelvin : Z -> result Z) (kw : Light.kwargs)
    (try_command : list Light.parameter -> bool) (s : Light.light) :
  Light.untouched_by_turn_on s
    (snd (Light.async_turn_on mired_to_kelvin kw try_command s)).
Proof.
  apply (LightMore.async_turn_on_keeps mired_to_kelvin Light.untouched_by_turn_on).
  - apply LightMore.untouched_refl.
  - apply LightMore.untouched_trans.
  - intros b s0. repeat split.
  - intros v s0. repeat split.
  - intros v s0. repeat split.
Qed.

(** X7. With [update_instant] configured False, the first [async_update]
    after a successful [async_turn_on] does not poll: whatever the device would
    answer, it only resets the skip flag, and the state stays True.  The update
    after that one polls again. *)
Theorem X7_update_skipped_once_after_turn_on
    (mired_to_kelvin : Z -> result Z) (kelvin_to_mired : pyval -> result pyval)
    (kw : Light.kwargs) (try_command : list Light.parameter -> bool)
    (s s1 : Light.light) (parameters : list Light.parameter)
    (fetch fetch' : result (list entry)) :
  Light._update_instant s = Some false ->
  Light.async_turn_on mired_to_kelvin kw try_command s = (Ok parameters, s1) ->
  try_command parameters = true ->
  exists s2,
    Light.async_update kelvin_to_mired fetch s1 = (Ok tt, s2) /\
    s2 = Light.set_skip_update false s1 /\
    Light._state s2 = VBool true /\
    Light.async_update kelvin_to_mired fetch' s2 =
      try_except (Light.poll kelvin_to_mired fetch') is_DeviceException
        (modify (Light.set_available false)) s2.
Proof.
  intros Hu H Htc. apply LightMore.async_turn_on_outcome in H.
  rewrite Htc in H. subst s1. eexists. split; [|split; [reflexivity|]].
  - unfold Light.async_update, Light.skips. simpl.
    destruct (Light.clears_effect kw); simpl; rewrite Hu; reflexivity.
  - split; [reflexivity|].
    unfold Light.async_update, Light.skips. simpl.
    destruct (Light.clears_effect kw); simpl; rewrite Hu; reflexivity.
Qed.

Lemma X7_witness :
  let s := {| Light._mapping := Light.example_mapping;
              Light._ctrl_params := Light.example_params 1 100 1;
              Light._update_instant := Some false;
              Light._skip_update := false;
              Light._available := true;
              Light._state := VBool false;
              Light._state_attrs := ∅;
              Light._brightness := VNone;
              Light._color_temp := VNone;
              Light._effect := VNone |} in
  let s1 := Light.set_skip_update true (Light.set_state (VBool true) s) in
  exists s2,
    Light.async_update Light.HA.color_temperature_kelvin_to_mired
      (Ok Light.example_response) s1 = (Ok tt, s2) /\
    s2 = Light.set_skip_update false s1 /\
    Light._state s2 = VBool true /\
    Light.async_update Light.HA.color_temperature_kelvin_to_mired
      (Ok Light.example_response) s2 =
      try_except (Light.poll Light.HA.color_temperature_kelvin_to_mired
                    (Ok Light.example_response)) is_DeviceException
        (modify (Light.set_available false)) s2.
Proof.
  apply (X7_update_skipped_once_after_turn_on
           Light.HA.color_temperature_mired_to_kelvin
           Light.HA.color_temperature_kelvin_to_mired
           {| Light.ATTR_BRIGHTNESS := None; Light.ATTR_COLOR_TEMP := None;
              Light.ATTR_EFFECT := None |}
           (fun _ => true)
           {| Light._mapping := Light.example_mapping;
              Light._ctrl_params := Light.example_params 1 100 1;
              Light._update_instant := Some false;
              Light._skip_update := false;
              Light._available := true;
              Light._state := VBool false;
              Light._state_attrs := ∅;
              Light._brightness := VNone;
              Light._color_temp := VNone;
              Light._effect := VNone |}
           _
           [Light.make_parameter "switch_status" (VBool true) {| siid := 2; piid := 1 |}]
           (Ok Light.example_response) (Ok Light.example_response));
    reflexivity.
Defined.

(** X8. The dictionary [MiotLight.async_update] builds from a response
    holds, for each property, the value of the last entry that reports the
    property with a value; entries without a value are ignored, and a property
    that no entry reports with a value is absent. *)
Theorem X8_statedict_last_value (response : list entry) (k : string) :
  Light.build_statedict response !! k = Light.last_value k response.
Proof. apply LightMore.build_statedict_last_value. Qed.

(** X9. After a poll of the light that ran to its end, the entity is
    available; the response answered 'switch_status' with some value [state],
    which is stored under the attribute 'state_value'; and the state is True
    when [state] equals the configured power-on value (the power-off value is
    then not read), False when it equals the power-off value, None when it
    equals neither. *)
Theorem X9_poll_state
    (kelvin_to_mired : pyval -> result pyval) (s s' : Light.light)
    (response : list entry) :
  Light.poll kelvin_to_mired (Ok response) s = (Ok tt, s') ->
  exists state on,
    Light.build_statedict response !! "switch_status" = Some state /\
    Light.get_power_on (Light._ctrl_params s) = Ok on /\
    Light._available s' = true /\
    Light._state_attrs s' !! "state_value" = Some state /\
    (py_eq state on = true -> Light._state s' = VBool true) /\
    (py_eq state on = false ->
       exists off,
         Light.get_power_off (Light._ctrl_params s) = Ok off /\
         Light._state s' = if py_eq state off then VBool false else VNone).
Proof.
  intros H.
  destruct (LightMore.poll_Ok_fields _ _ _ _ H) as (state & st & b & c & e & Hsw & Hst & ->).
  destruct (LightMore.update_state_inv _ _ _ _ Hst) as (on & Hon & Ht & Hf).
  exists state, on. split; [exact Hsw|]. split; [exact Hon|].
  split; [reflexivity|]. split.
  { simpl.
    rewrite lookup_union_r by (apply LightMore.present_lookup_ne; discriminate).
    rewrite lookup_union_r by (apply LightMore.present_lookup_ne; discriminate).
    apply lookup_union_Some_l, lookup_singleton_eq. }
  split.
  - intros Heq. specialize (Ht Heq). simpl.
    apply (f_equal Light._state) in Ht. exact Ht.
  - intros Heq. destruct (Hf Heq) as (off & Hoff & Hs2). exists off.
    split; [exact Hoff|]. apply (f_equal Light._state) in Hs2. exact Hs2.
Qed.

Lemma X9_witness :
  exists state on,
    Light.build_statedict Light.example_response !! "switch_status" = Some state /\
    Light.get_power_on
      (Light._ctrl_params (Light.example_light (Light.example_params 1 100 1))) = Ok on /\
    Light._available
      (snd (Light.poll Light.HA.color_temperature_kelvin_to_mired
              (Ok Light.example_response)
              (Light.example_light (Light.example_params 1 100 1)))) = true /\
    Light._state_attrs
      (snd (Light.poll Light.HA.color_temperature_kelvin_to_mired
              (Ok Light.example_response)
              (Light.example_light (Light.example_params 1 100 1))))
      !! "state_value" = Some state /\
    (py_eq state on = true ->
       Light._state
         (snd (Light.poll Light.HA.color_temperature_kelvin_to_mired
                 (Ok Light.example_response)
                 (Light.example_light (Light.example_params 1 100 1)))) = VBool true) /\
    (py_eq state on = false ->
       exists off,
         Light.get_power_off
           (Light._ctrl_params (Light.example_light (Light.example_params 1 100 1)))
           = Ok off /\
         Light._state
           (snd (Light.poll Light.HA.color_temperature_kelvin_to_mired
                   (Ok Light.example_response)
                   (Light.example_light (Light.example_params 1 100 1))))
         = if py_eq state off then VBool false else VNone).
Proof.
  apply (X9_poll_state Light.HA.color_temperature_kelvin_to_mired
           (Light.example_light (Light.example_params 1 100 1))
           (snd (Light.poll Light.HA.color_temperature_kelvin_to_mired
                   (Ok Light.example_response)
                   (Light.example_light (Light.example_params 1 100 1))))
           Light.example_response).
  vm_compute. reflexivity.
Defined.

(** X10. After a poll of the light that ran to its end and fetched the mode
    code [k]: the raw code is stored under the attribute 'effect'; the cached
    effect is the label the mode table gives for [k], which is one of
    [effect_list]; and it is None when the table has no code [k]. *)
Theorem X10_poll_effect
    (kelvin_to_mired : pyval -> result pyval) (s s' : Light.light)
    (response : list entry) (modes : list (Z * string)) (k : Z) :
  Light.poll kelvin_to_mired (Ok response) s = (Ok tt, s') ->
  Light.mode (Light._ctrl_params s) = Some modes ->
  NoDup (modes.*1) ->
  Light.build_statedict response !! "mode" = Some (VInt k) ->
  Light._state_attrs s' !! "effect" = Some (VInt k) /\
  (forall label, (k, label) ∈ modes ->
     Light._effect s' = VStr label /\
     exists labels, Light.effect_list s' = Ok labels /\ label ∈ labels) /\
  (k ∉ modes.*1 -> Light._effect s' = VNone).
Proof.
  intros H Hm Hnd Hk.
  assert (Hcfg : Light.same_config s s').
  { pose proof (LightMore.poll_keeps kelvin_to_mired Light.same_config (Ok response)
                  LightMore.same_config_refl LightMore.same_config_trans) as Hkeep.
    specialize (Hkeep ltac:(repeat split) ltac:(repeat split) ltac:(repeat split)
                  ltac:(repeat split) ltac:(repeat split) ltac:(repeat split) s).
    rewrite H in Hkeep. exact Hkeep. }
  assert (Hel : Light.effect_list s' = Ok (modes.*2)).
  { unfold Light.effect_list. destruct Hcfg as (_ & -> & _). rewrite Hm. reflexivity. }
  clear Hcfg. revert Hel.
  apply LightMore.poll_Ok_steps in H as (state & s2 & s3 & s4 & _ & _ & _ & H4 & H5).
  rewrite (LightMore.update_effect_label _ _ _ modes (VInt k) Hm Hk) in H5.
  rewrite LightFacts.code_to_effect_int in H5.
  injection H5 as <-. intros Hel.
  split.
  { simpl. apply lookup_union_Some_l. rewrite Hk. apply lookup_singleton_eq. }
  split.
  - intros label Hin.
    rewrite (LightMore.getitem_elem modes k label Hnd Hin). split; [reflexivity|].
    exists (modes.*2). split.
    + rewrite (LightMore.getitem_elem modes k label Hnd Hin) in Hel. exact Hel.
    + apply list_elem_of_fmap. exists (k, label). split; [reflexivity|exact Hin].
  - intros Hnot. rewrite (LightMore.getitem_not_elem modes k Hnot). reflexivity.
Qed.

Lemma X10_witness :
  let s := Light.example_light (Light.example_params 1 100 1) in
  let s' := snd (Light.poll Light.HA.color_temperature_kelvin_to_mired
                   (Ok Light.example_response) s) in
  Light._state_attrs s' !! "effect" = Some (VInt 1) /\
  (forall label, (1, label) ∈ [(0, "Day"); (1, "Night")] ->
     Light._effect s' = VStr label /\
     exists labels, Light.effect_list s' = Ok labels /\ label ∈ labels) /\
  (1 ∉ [(0, "Day"); (1, "Night")].*1 -> Light._effect s' = VNone).
Proof.
  apply (X10_poll_effect Light.HA.color_temperature_kelvin_to_mired
           (Light.example_light (Light.example_params 1 100 1))
           (snd (Light.poll Light.HA.color_temperature_kelvin_to_mired
                   (Ok Light.example_response)
                   (Light.example_light (Light.example_params 1 100 1))))
           Light.example_response [(0, "Day"); (1, "Night")] 1).
  - vm_compute. reflexivity.
  - reflexivity.
  - compute_done.
  - vm_compute. reflexivity.
Defined.

(** X11. An error of the brightness conversion other than KeyError is not
    caught by [MiotLight.async_update]: with a three-element value range
    configured, a fetched brightness that is no number raises TypeError, and
    an integer one with [hi - lo + 1 = 0] raises ZeroDivisionError.  The
    exception leaves the entity half updated: the availability, the state and
    'state_value' are already written; the brightness, the colour temperature
    and the effect are not reached and keep their cached values. *)
Theorem X11_brightness_error_escapes
    (kelvin_to_mired : pyval -> result pyval) (s : Light.light)
    (response : list entry) (state on off v : pyval) (lo hi step : Z) :
  Light.skips s = false ->
  Light.build_statedict response !! "switch_status" = Some state ->
  Light.get_power_on (Light._ctrl_params s) = Ok on ->
  Light.get_power_off (Light._ctrl_params s) = Ok off ->
  Light.get_value_range (Light._ctrl_params s) "brightness" = Ok [lo; hi; step] ->
  Light.build_statedict response !! "brightness" = Some v ->
  let s1 := Light.update_state_attrs {[ "state_value" := state ]}
              (Light.set_state (Light.state_of state on off)
                 (Light.set_available true s)) in
  (as_num v = None ->
     Light.async_update kelvin_to_mired (Ok response) s = (Raise TypeError, s1)) /\
  (forall d, v = VInt d -> hi - lo + 1 = 0 ->
     Light.async_update kelvin_to_mired (Ok response) s
       = (Raise ZeroDivisionError, s1)) /\
  Light._brightness s1 = Light._brightness s /\
  Light._color_temp s1 = Light._color_temp s /\
  Light._effect s1 = Light._effect s.
Proof.
  intros Hsk Hsw Hon Hoff Hvr Hb s1. split; [|split].
  - intros Hv.
    apply (LightMore.async_update_brightness_raise kelvin_to_mired response s state
             on off v TypeError); try assumption; try discriminate.
    unfold Light.convert_value. rewrite Hvr, Hv. reflexivity.
  - intros d -> Hz.
    apply (LightMore.async_update_brightness_raise kelvin_to_mired response s state
             on off (VInt d) ZeroDivisionError); try assumption; try discriminate.
    unfold Light.convert_value. rewrite Hvr. simpl. rewrite Hz. reflexivity.
  - repeat split.
Qed.

Lemma X11_witness :
  let s := Light.example_light (Light.example_params 1 0 1) in
  let response := [Entry "switch_status" 0 (Some (VBool true));
                   Entry "brightness" 0 (Some (VInt 50))] in
  let s1 := Light.update_state_attrs {[ "state_value" := VBool true ]}
              (Light.set_state (Light.state_of (VBool true) (VBool true) (VBool false))
                 (Light.set_available true s)) in
  (as_num (VInt 50) = None ->
     Light.async_update Light.HA.color_temperature_kelvin_to_mired (Ok response) s
       = (Raise TypeError, s1)) /\
  (forall d, VInt 50 = VInt d -> 0 - 1 + 1 = 0 ->
     Light.async_update Light.HA.color_temperature_kelvin_to_mired (Ok response) s
       = (Raise ZeroDivisionError, s1)) /\
  Light._brightness s1 = Light._brightness s /\
  Light._color_temp s1 = Light._color_temp s /\
  Light._effect s1 = Light._effect s.
Proof.
  apply (X11_brightness_error_escapes Light.HA.color_temperature_kelvin_to_mired
           (Light.example_light (Light.example_params 1 0 1))
           [Entry "switch_status" 0 (Some (VBool true));
            Entry "brightness" 0 (Some (VInt 50))]
           (VBool true) (VBool true) (VBool false) (VInt 50) 1 0 1);
    reflexivity.
Defined.

(** X12. Whatever it fetches and whatever its outcome,
    [MiotLight.async_update] leaves the configuration (mapping, control
    parameters, update_instant) alone and removes no key from the extra
    attributes. *)
Theorem X12_update_keeps_configuration_and_keys
    (kelvin_to_mired : pyval -> result pyval) (fetch : result (list entry))
    (s : Light.light) :
  Light.kept_by_update s (snd (Light.async_update kelvin_to_mired fetch s)).
Proof.
  apply (LightMore.async_update_keeps kelvin_to_mired Light.kept_by_update).
  - apply LightMore.kept_by_update_refl.
  - apply LightMore.kept_by_update_trans.
  - intros b s0. split; [repeat split|intros k Hk; exact Hk].
  - intros b s0. split; [repeat split|intros k Hk; exact Hk].
  - intros b s0. split; [repeat split|intros k Hk; exact Hk].
  - intros b s0. split; [repeat split|intros k Hk; exact Hk].
  - intros b s0. split; [repeat split|intros k Hk; exact Hk].
  - intros b s0. split; [repeat split|intros k Hk; exact Hk].
  - apply LightMore.kept_by_update_attrs.
Qed.

(** X13. For a light without 'color_temperature' in its control
    parameters, [min_mireds] and [max_mireds] return None (the KeyError is
    caught), but [async_turn_on] with a colour temperature (and nothing else)
    raises KeyError: nothing is sent, and the cached effect has already been
    cleared. *)
Theorem X13_mireds_without_color_temperature
    (mired_to_kelvin : Z -> result Z) (kelvin_to_mired : pyval -> result pyval)
    (kw : Light.kwargs) (try_command : list Light.parameter -> bool)
    (s : Light.light) (mired : Z) (on : pyval) (m_switch : mapping_entry) :
  Light.ranged (Light._ctrl_params s) !! "color_temperature" = None ->
  Light.ATTR_EFFECT kw = None ->
  Light.ATTR_BRIGHTNESS kw = None ->
  Light.ATTR_COLOR_TEMP kw = Some mired ->
  Light.get_power_on (Light._ctrl_params s) = Ok on ->
  getitem (Light._mapping s) "switch_status" = Ok m_switch ->
  Light.min_mireds kelvin_to_mired s = Ok VNone /\
  Light.max_mireds kelvin_to_mired s = Ok VNone /\
  Light.async_turn_on mired_to_kelvin kw try_command s
    = (Raise KeyError, Light.set_effect VNone s).
Proof.
  intros Hr He Hb Hc Hon Hsw.
  unfold Light.min_mireds, Light.max_mireds, Light.async_turn_on, Light.get_value_range,
    getattr, bind, gets, lift, modify, ret.
  rewrite Hr, He, Hb, Hc, Hon, Hsw. simpl. repeat split.
Qed.

Lemma X13_witness :
  let s := Light.example_light
             {| Light.switch_status :=
                  Some {| Light.power_on := Some (VBool true);
                          Light.power_off := Some (VBool false) |};
                Light.ranged := ∅; Light.mode := None |} in
  Light.min_mireds Light.HA.color_temperature_kelvin_to_mired s = Ok VNone /\
  Light.max_mireds Light.HA.color_temperature_kelvin_to_mired s = Ok VNone /\
  Light.async_turn_on Light.HA.color_temperature_mired_to_kelvin
    {| Light.ATTR_BRIGHTNESS := None; Light.ATTR_COLOR_TEMP := Some 250;
       Light.ATTR_EFFECT := None |} (fun _ => true) s
    = (Raise KeyError, Light.set_effect VNone s).
Proof.
  apply (X13_mireds_without_color_temperature
           Light.HA.color_temperature_mired_to_kelvin
           Light.HA.color_temperature_kelvin_to_mired
           {| Light.ATTR_BRIGHTNESS := None; Light.ATTR_COLOR_TEMP := Some 250;
              Light.ATTR_EFFECT := None |} (fun _ => true)
           (Light.example_light
              {| Light.switch_status :=
                   Some {| Light.power_on := Some (VBool true);
                           Light.power_off := Some (VBool false) |};
                 Light.ranged := ∅; Light.mode := None |})
           250 (VBool true) {| siid := 2; piid := 1 |});
    reflexivity.
Defined.

(** X14. The device value [convert_value] computes from a UI brightness [b]
    in 0..255 is a non-negative multiple of the step that does not exceed
    [hi - lo + 1] (the number of values of the range: the lower end [lo] is
    not added), and it is 0 for [b = 0].  This is a theorem of IEEE 754
    binary64, for ranges of at most 100000 values and steps with [125 * step]
    at most [2^1000]. *)
Theorem X14_device_brightness_range
    (cp : Light.ctrl_params) (b lo hi step : Z) :
  0 <= b <= 255 ->
  0 < step ->
  lo <= hi ->
  hi - lo + 1 <= 100000 ->
  Light.get_value_range cp "brightness" = Ok [lo; hi; step] ->
  125 * step <= 2 ^ 1000 ->
  exists d,
    Light.convert_value binary64 cp (Some (NInt b)) "brightness" true = Ok d /\
    0 <= d <= hi - lo + 1 /\
    (step | d) /\
    (b = 0 -> d = 0).
Proof.
  intros Hb Hs Hlh Hmax Hvr Hsz.
  pose proof Binary64Model.binary64_std_model as Hstd.
  set (N := (hi - lo + 1)%Z) in *.
  assert (HN : (1 <= N)%Z) by (unfold N; lia).
  assert (HNw : (inject_Z (4 * N) <= b64_omega)%Q).
  { unfold b64_omega. rewrite <- Zle_Qle.
    transitivity (2 ^ 19)%Z; [lia|].
    apply Z.pow_le_mono_r; lia. }
  assert (Hsw : (inject_Z (125 * step) <= b64_omega)%Q).
  { unfold b64_omega. rewrite <- Zle_Qle. exact Hsz. }
  destruct (RoundTrip.slider_std binary64 b64_eps b64_omega Hstd b Hb)
    as (x1 & x2 & n & E1 & E2 & E3 & Hn & Hnb).
  destruct (RoundTrip.device_std binary64 b64_eps b64_omega Hstd n N step
              Hn HN ltac:(lia) HNw Hsw)
    as (y1 & y2 & y3 & t & F1 & F2 & F3 & F4 & Ht & Hd1 & Hd2).
  assert (HnN : (0 <= n * N <= 100 * N)%Z) by nia.
  assert (Hd : (0 <= t * step)%Z) by nia.
  assert (Hz : (100 * (t * step) * 999994 <= n * N * 1000000)%Z).
  { rewrite Zle_Qle.
    rewrite (inject_Z_mult (100 * (t * step)) 999994), (inject_Z_mult (n * N) 1000000).
    revert Hd1. rewrite !(inject_Z_mult 100).
    generalize (inject_Z (t * step)) (inject_Z (n * N)).
    intros xd xnN H. cbv [inject_Z] in *. lra. }
  exists (t * step)%Z. split; [|split; [|split]].
  - unfold Light.convert_value. rewrite Hvr.
    cbn [rbind Light.operand index lookup list_lookup].
    rewrite E1. cbn [rbind]. rewrite E2. cbn [rbind]. rewrite E3. cbn [rbind].
    rewrite F1. cbn [rbind]. fold N. rewrite F2. cbn [rbind].
    rewrite F3. cbn [rbind]. rewrite F4. reflexivity.
  - split; [exact Hd|]. nia.
  - exists t. reflexivity.
  - intros ->. assert (n = 0) by lia. subst n. nia.
Qed.

Lemma X14_witness :
  exists d,
    Light.convert_value binary64 (Light.brightness_params 1 100 1)
      (Some (NInt 128)) "brightness" true = Ok d /\
    0 <= d <= 100 - 1 + 1 /\
    (1 | d) /\
    (128 = 0 -> d = 0).
Proof.
  apply (X14_device_brightness_range
           (Light.brightness_params 1 100 1) 128 1 100 1).
  - lia.
  - lia.
  - lia.
  - lia.
  - vm_compute. reflexivity.
  - vm_compute. discriminate.
Defined.

(** X15. The UI brightness [convert_value] computes back from a device
    value between 0 and [hi - lo + 1] lies in 0..255; it is 0 for the device
    value 0 and 255 for the device value [hi - lo + 1].  This is a theorem of
    IEEE 754 binary64, for every range with [4 * (hi - lo + 1)] at most
    [2^1000]. *)
Theorem X15_reported_brightness_range
    (cp : Light.ctrl_params) (d lo hi step : Z) :
  lo <= hi ->
  0 <= d <= hi - lo + 1 ->
  Light.get_value_range cp "brightness" = Ok [lo; hi; step] ->
  4 * (hi - lo + 1) <= 2 ^ 1000 ->
  exists back,
    Light.convert_value binary64 cp (Some (NInt d)) "brightness" false = Ok back /\
    0 <= back <= 255 /\
    (d = 0 -> back = 0) /\
    (d = hi - lo + 1 -> back = 255).
Proof.
  intros Hlh Hd Hvr HNz.
  pose proof Binary64Model.binary64_std_model as Hstd.
  set (N := (hi - lo + 1)%Z) in *.
  assert (HN : (1 <= N)%Z) by (unfold N; lia).
  assert (HNw : (inject_Z (4 * N) <= b64_omega)%Q).
  { unfold b64_omega. rewrite <- Zle_Qle. exact HNz. }
  destruct (RoundTrip.back_std binary64 b64_eps b64_omega Hstd d N
              ltac:(lia) HN ltac:(lia) HNw)
    as (z1 & z2 & back & G1 & G2 & G3 & Hb1 & Hb2).
  assert (Hz1 : (2 * (back * N) * 1000000 <= 510 * d * 1000004 + N * 1000000)%Z).
  { rewrite Zle_Qle. rewrite inject_Z_plus.
    rewrite (inject_Z_mult (2 * (back * N)) 1000000),
      (inject_Z_mult (510 * d) 1000004), (inject_Z_mult N 1000000).
    revert Hb1.
    generalize (inject_Z (2 * (back * N))) (inject_Z (510 * d)) (inject_Z N).
    intros x y z H. cbv [inject_Z] in *. lra. }
  assert (Hz2 : (510 * d * 999996 <= 2 * (back * N) * 1000000 + N * 1000000)%Z).
  { rewrite Zle_Qle. rewrite inject_Z_plus.
    rewrite (inject_Z_mult (2 * (back * N)) 1000000),
      (inject_Z_mult (510 * d) 999996), (inject_Z_mult N 1000000).
    revert Hb2.
    generalize (inject_Z (2 * (back * N))) (inject_Z (510 * d)) (inject_Z N).
    intros x y z H. cbv [inject_Z] in *. lra. }
  exists back. split; [|split; [|split]].
  - unfold Light.convert_value. rewrite Hvr.
    cbn [rbind Light.operand index lookup list_lookup].
    fold N. rewrite G1. cbn [rbind]. rewrite G2. cbn [rbind]. exact G3.
  - split; nia.
  - intros ->. nia.
  - intros ->. nia.
Qed.

Lemma X15_witness :
  exists back,
    Light.convert_value binary64 (Light.brightness_params 1 100 1)
      (Some (NInt 50)) "brightness" false = Ok back /\
    0 <= back <= 255 /\
    (50 = 0 -> back = 0) /\
    (50 = 100 - 1 + 1 -> back = 255).
Proof.
  apply (X15_reported_brightness_range
           (Light.brightness_params 1 100 1) 50 1 100 1).
  - lia.
  - lia.
  - vm_compute. reflexivity.
  - vm_compute. discriminate.
Defined.

(** X24. Polling the light again with the same response changes nothing:
    when a poll runs to its end, [async_update] returns the entity it leaves,
    and a second [async_update] with that response leaves that entity as it
    is. *)
Theorem X24_light_update_idempotent
    (kelvin_to_mired : pyval -> result pyval) (response : list entry)
    (s s1 : Light.light) :
  Light.skips s = false ->
  Light.poll kelvin_to_mired (Ok response) s = (Ok tt, s1) ->
  Light.async_update kelvin_to_mired (Ok response) s = (Ok tt, s1) /\
  Light.async_update kelvin_to_mired (Ok response) s1 = (Ok tt, s1).
Proof.
  intros Hsk H.
  split; [apply LightFacts.async_update_poll_Ok; assumption|].
  destruct (LightMore.poll_uniform kelvin_to_mired response s s1 H)
    as (state & st & ob & oc & e & Hu).
  pose proof (Hu s eq_refl) as Hs. rewrite H in Hs. injection Hs as ->.
  destruct (LightMore.apply_poll_config state st ob oc e
              (Light.build_statedict response) s) as ((_ & Hcp & Hui) & Hskip).
  apply LightFacts.async_update_poll_Ok.
  - unfold Light.skips in *. rewrite Hui, Hskip. exact Hsk.
  - rewrite (Hu _ Hcp). rewrite LightMore.apply_poll_twice. reflexivity.
Qed.

Lemma X24_witness :
  let s := Light.example_light (Light.example_params 1 100 1) in
  let s1 := snd (Light.poll Light.HA.color_temperature_kelvin_to_mired
                   (Ok Light.example_response) s) in
  Light.async_update Light.HA.color_temperature_kelvin_to_mired
    (Ok Light.example_response) s = (Ok tt, s1) /\
  Light.async_update Light.HA.color_temperature_kelvin_to_mired
    (Ok Light.example_response) s1 = (Ok tt, s1).
Proof.
  apply (X24_light_update_idempotent Light.HA.color_temperature_kelvin_to_mired
           Light.example_response
           (Light.example_light (Light.example_params 1 100 1))).
  - reflexivity.
  - vm_compute. reflexivity.
Defined.

(** ** The sensor and the set-up *)

(** X16. When the device handle is constructed, the device info is read and
    the base class initialises the entity, [async_setup_platform] of the sensor
    returns normally: the new entity is stored in [hass.data[DATA_KEY]] under
    the configured host (every other host keeping its entry) and handed to
    [async_add_devices].  [MiotSensor.__init__] gives it the state None, the
    skip flag False and the configured [sensor_property]; and since nothing in
    the sensor ever sets the skip flag, no [async_update] of this entity is
    ever skipped, whatever [update_instant] says. *)
Theorem X16_sensor_setup_registers
    (device device_info : Type)
    (MiotDevice : string -> string -> mapping -> result device)
    (info : device -> result device_info)
    (init : device -> config -> device_info -> result Sensor.sensor)
    (cfg : config) (h : hass Sensor.sensor)
    (d : device) (di : device_info) (self : Sensor.sensor) :
  MiotDevice (conf_host cfg) (conf_token cfg) (conf_mapping cfg) = Ok d ->
  info d = Ok di ->
  init d cfg di = Ok self ->
  exists entity registry h',
    Sensor.async_setup_platform device device_info MiotDevice info init cfg h
      = (Ok tt, h') /\
    data h' = Some registry /\
    registry !! conf_host cfg = Some entity /\
    (forall host, host <> conf_host cfg ->
       registry !! host = default ∅ (data h) !! host) /\
    added h' = added h ++ [entity] /\
    Sensor._state entity = VNone /\
    Sensor._skip_update entity = false /\
    Sensor._sensor_property entity = conf_sensor_property cfg /\
    Sensor._state_attrs entity = Sensor._state_attrs self /\
    Sensor._available entity = Sensor._available self /\
    Sensor._assumed_state entity = Sensor._assumed_state self /\
    (forall fetches, Sensor.skips (Sensor.run_updates fetches entity) = false).
Proof.
  intros Hd Hi Hs.
  eexists _, _, _.
  unfold Sensor.async_setup_platform, Sensor.MiotSensor, bind, modify, try_except, lift.
  cbv zeta. rewrite Hd. simpl. rewrite Hi. simpl. rewrite Hs. simpl.
  split; [reflexivity|]. simpl.
  split; [reflexivity|].
  split; [apply lookup_insert_eq|].
  split; [intros host Hne; apply lookup_insert_ne; congruence|].
  repeat split.
  intros fetches. unfold Sensor.skips.
  rewrite SensorMore.run_updates_skip_update by reflexivity.
  destruct (Sensor._update_instant _) as [[|]|]; reflexivity.
Qed.

Lemma X16_witness :
  exists entity registry h',
    Sensor.async_setup_platform unit unit (fun _ _ _ => Ok tt) (fun _ => Ok tt)
      (fun _ _ _ => Ok (Sensor.example_sensor None))
      Light.example_config {| data := None; added := [] |} = (Ok tt, h') /\
    data h' = Some registry /\
    registry !! conf_host Light.example_config = Some entity /\
    (forall host, host <> conf_host Light.example_config ->
       registry !! host =
         default ∅ (data ({| data := None; added := [] |} : hass Sensor.sensor)) !! host) /\
    added h' = [] ++ [entity] /\
    Sensor._state entity = VNone /\
    Sensor._skip_update entity = false /\
    Sensor._sensor_property entity = conf_sensor_property Light.example_config /\
    Sensor._state_attrs entity = Sensor._state_attrs (Sensor.example_sensor None) /\
    Sensor._available entity = Sensor._available (Sensor.example_sensor None) /\
    Sensor._assumed_state entity = Sensor._assumed_state (Sensor.example_sensor None) /\
    (forall fetches, Sensor.skips (Sensor.run_updates fetches entity) = false).
Proof.
  apply (X16_sensor_setup_registers unit unit (fun _ _ _ => Ok tt) (fun _ => Ok tt)
           (fun _ _ _ => Ok (Sensor.example_sensor None))
           Light.example_config {| data := None; added := [] |} tt tt
           (Sensor.example_sensor None));
    reflexivity.
Defined.

(** X17. An exception raised by the construction of the device handle, by
    [info()] or by the constructor of the entity ends the set-up of either
    platform with that exception, a DeviceException being replaced by
    PlatformNotReady.  No entity is registered or added; [hass.data[DATA_KEY]]
    has been created, empty, if it was missing. *)
Theorem X17_setup_exceptions
    (device device_info : Type)
    (MiotDevice : string -> string -> mapping -> result device)
    (info : device -> result device_info)
    (light_init : device -> config -> device_info -> result Light.light)
    (sensor_init : device -> config -> device_info -> result Sensor.sensor)
    (cfg : config) (hl : hass Light.light) (hs : hass Sensor.sensor) (e : exn) :
  let connect := MiotDevice (conf_host cfg) (conf_token cfg) (conf_mapping cfg) in
  (connect = Raise e \/
   (exists d, connect = Ok d /\ info d = Raise e) \/
   (exists d di, connect = Ok d /\ info d = Ok di /\
      light_init d cfg di = Raise e /\ sensor_init d cfg di = Raise e)) ->
  let raised := if decide (e = DeviceException) then PlatformNotReady else e in
  Light.async_setup_platform device device_info MiotDevice info light_init cfg hl
    = (Raise raised, ensure_data hl) /\
  Sensor.async_setup_platform device device_info MiotDevice info sensor_init cfg hs
    = (Raise raised, ensure_data hs) /\
  added (ensure_data hl) = added hl /\
  added (ensure_data hs) = added hs /\
  data (ensure_data hl) = Some (default ∅ (data hl)) /\
  data (ensure_data hs) = Some (default ∅ (data hs)).
Proof.
  intros connect H raised. subst raised connect.
  assert (Hh : forall b : bool,
             (if decide (e = DeviceException) then PlatformNotReady else e) =
             (if is_DeviceException e then PlatformNotReady else e)).
  { intros _. unfold is_DeviceException.
    destruct (decide (e = DeviceException)) as [->|Hne]; [reflexivity|].
    rewrite bool_decide_eq_false_2 by exact Hne. reflexivity. }
  rewrite (Hh true). clear Hh.
  split; [|split; [|repeat split]].
  - unfold Light.async_setup_platform, Light.MiotLight, bind, modify, try_except, lift.
    cbv zeta.
    destruct H as [H|[(d & H1 & H2)|(d & di & H1 & H2 & H3 & _)]].
    + rewrite H. simpl. destruct (is_DeviceException e); reflexivity.
    + rewrite H1. simpl. rewrite H2. simpl. destruct (is_DeviceException e); reflexivity.
    + rewrite H1. simpl. rewrite H2. simpl. rewrite H3. simpl.
      destruct (is_DeviceException e); reflexivity.
  - unfold Sensor.async_setup_platform, Sensor.MiotSensor, bind, modify, try_except, lift.
    cbv zeta.
    destruct H as [H|[(d & H1 & H2)|(d & di & H1 & H2 & _ & H3)]].
    + rewrite H. simpl. destruct (is_DeviceException e); reflexivity.
    + rewrite H1. simpl. rewrite H2. simpl. destruct (is_DeviceException e); reflexivity.
    + rewrite H1. simpl. rewrite H2. simpl. rewrite H3. simpl.
      destruct (is_DeviceException e); reflexivity.
Qed.

Lemma X17_witness :
  let hl : hass Light.light := {| data := None; added := [] |} in
  let hs : hass Sensor.sensor := {| data := None; added := [] |} in
  Light.async_setup_platform unit unit (fun _ _ _ => Ok tt) (fun _ => Ok tt)
    (fun _ _ _ => Raise DeviceException) Light.example_config hl
    = (Raise PlatformNotReady, ensure_data hl) /\
  Sensor.async_setup_platform unit unit (fun _ _ _ => Ok tt) (fun _ => Ok tt)
    (fun _ _ _ => Raise DeviceException) Light.example_config hs
    = (Raise PlatformNotReady, ensure_data hs) /\
  added (ensure_data hl) = added hl /\
  added (ensure_data hs) = added hs /\
  data (ensure_data hl) = Some (default ∅ (data hl)) /\
  data (ensure_data hs) = Some (default ∅ (data hs)).
Proof.
  apply (X17_setup_exceptions unit unit (fun _ _ _ => Ok tt) (fun _ => Ok tt)
           (fun _ _ _ => Raise DeviceException) (fun _ _ _ => Raise DeviceException)
           Light.example_config {| data := None; added := [] |}
           {| data := None; added := [] |} DeviceException).
  right. right. exists tt, tt. repeat split.
Defined.

(** X18. [MiotSensor.async_update] on a fetched response runs to its end
    when every entry with code 0 can be scaled.  When one of them cannot, it
    raises KeyError, TypeError or OverflowError with only the availability
    set: no attribute is written, not even those of the entries before the
    failing one, and the primary state is not refreshed.  An entry with code 0
    and no value is such an entry (KeyError). *)
Theorem X18_sensor_poll_completes_or_raises
    (s : Sensor.sensor) (response : list entry) :
  Sensor.skips s = false ->
  (Forall (fun r => code r = 0 ->
             exists y, Sensor.scaled (Sensor._ctrl_params s) r = Ok y) response ->
   exists s', Sensor.async_update (Ok response) s = (Ok tt, s')) /\
  (forall r e,
     r ∈ response -> code r = 0 ->
     Sensor.scaled (Sensor._ctrl_params s) r = Raise e ->
     exists e',
       Sensor.async_update (Ok response) s = (Raise e', Sensor.set_available true s) /\
       (e' = KeyError \/ e' = TypeError \/ e' = OverflowError)) /\
  (forall r, code r = 0 -> value r = None ->
     Sensor.scaled (Sensor._ctrl_params s) r = Raise KeyError).
Proof.
  intros Hsk. rewrite (SensorFacts.async_update_response response s Hsk).
  split; [|split].
  - intros Hall.
    destruct (SensorMore.loop_Ok (Sensor._ctrl_params s) response (∅, 0) Hall)
      as [acc ->].
    eexists. reflexivity.
  - intros r e Hin Hc Hs.
    destruct (SensorMore.loop_Raise (Sensor._ctrl_params s) response r e (∅, 0)
                Hin Hc Hs) as (e' & -> & He').
    exists e'. split; [reflexivity|exact He'].
  - intros r _ Hv. unfold Sensor.scaled, getattr. rewrite Hv.
    destruct (Sensor._ctrl_params s !! did r) as [p|]; simpl; [|reflexivity].
    destruct (p !! "value_ratio") as [f|]; reflexivity.
Qed.

Lemma X18_witness :
  let s := Sensor.example_sensor None in
  let response := [Entry "temperature" 0 (Some (VStr "n/a"))] in
  (Forall (fun r => code r = 0 ->
             exists y, Sensor.scaled (Sensor._ctrl_params s) r = Ok y) response ->
   exists s', Sensor.async_update (Ok response) s = (Ok tt, s')) /\
  (forall r e,
     r ∈ response -> code r = 0 ->
     Sensor.scaled (Sensor._ctrl_params s) r = Raise e ->
     exists e',
       Sensor.async_update (Ok response) s = (Raise e', Sensor.set_available true s) /\
       (e' = KeyError \/ e' = TypeError \/ e' = OverflowError)) /\
  (forall r, code r = 0 -> value r = None ->
     Sensor.scaled (Sensor._ctrl_params s) r = Raise KeyError).
Proof.
  apply (X18_sensor_poll_completes_or_raises (Sensor.example_sensor None)
           [Entry "temperature" 0 (Some (VStr "n/a"))]).
  reflexivity.
Defined.

(** X19. After an update of the sensor that ran to its end, a property
    whose entry has a result code other than 0 has the attribute None,
    whatever value it held before (each property being reported once in the
    response). *)
Theorem X19_failed_property_is_None
    (s s' : Sensor.sensor) (response : list entry) (r : entry) :
  Sensor.skips s = false ->
  Sensor.async_update (Ok response) s = (Ok tt, s') ->
  NoDup (did <$> response) ->
  r ∈ response ->
  code r <> 0 ->
  Sensor._state_attrs s' !! did r = Some VNone /\
  Sensor.dict_get (Sensor._state_attrs s') (did r) = VNone.
Proof.
  intros Hsk H Hnd Hin Hc.
  rewrite (SensorFacts.async_update_response response s Hsk) in H.
  destruct (Sensor.loop (Sensor._ctrl_params s) (∅, 0) response) as [[sd c]|e] eqn:Hl;
    [|discriminate].
  cbv zeta in H. injection H as <-.
  destruct (SensorFacts.loop_lookup _ _ _ _ _ _ r Hl Hnd Hin) as [Hr _].
  apply Z.eqb_neq in Hc. rewrite Hc in Hr.
  assert (Ha : Sensor._state_attrs
                 (Sensor.set_state
                    (Sensor.primary (Sensor.after_loop response (sd, c) s))
                    (Sensor.after_loop response (sd, c) s)) !! did r = Some VNone).
  { rewrite SensorFacts.after_loop_state_attrs. simpl.
    apply lookup_union_Some_l. exact Hr. }
  split; [exact Ha|]. unfold Sensor.dict_get. rewrite Ha. reflexivity.
Qed.

Lemma X19_witness :
  let s' := snd (Sensor.async_update (Ok Sensor.example_partial)
                   (Sensor.example_sensor None)) in
  Sensor._state_attrs s' !! "temperature" = Some VNone /\
  Sensor.dict_get (Sensor._state_attrs s') "temperature" = VNone.
Proof.
  apply (X19_failed_property_is_None (Sensor.example_sensor None)
           (snd (Sensor.async_update (Ok Sensor.example_partial)
                   (Sensor.example_sensor None)))
           Sensor.example_partial (Entry "temperature" (-4004) None)).
  - reflexivity.
  - vm_compute. reflexivity.
  - compute_done.
  - apply list_elem_of_here.
  - discriminate.
Defined.

(** X20. After every update of the sensor that polled and returned (also
    one whose fetch raised DeviceException), the primary state is the
    attribute of the configured [sensor_property], None when that attribute is
    missing; it is None when no [sensor_property] is configured. *)
Theorem X20_sensor_state_follows_attributes
    (fetch : result (list entry)) (s s' : Sensor.sensor) :
  Sensor.skips s = false ->
  Sensor.async_update fetch s = (Ok tt, s') ->
  Sensor._state s' =
    match Sensor._sensor_property s with
    | Some p => Sensor.dict_get (Sensor._state_attrs s') p
    | None => VNone
    end.
Proof.
  intros Hsk H.
  destruct (Sensor._sensor_property s) as [p|] eqn:Hp.
  - eapply SensorFacts.async_update_state_configured; eassumption.
  - eapply SensorFacts.async_update_state_unconfigured; eassumption.
Qed.

Lemma X20_witness :
  let s := Sensor.example_sensor (Some "humidity") in
  let s' := snd (Sensor.async_update (Ok Sensor.example_response) s) in
  Sensor._state s' =
    match Sensor._sensor_property s with
    | Some p => Sensor.dict_get (Sensor._state_attrs s') p
    | None => VNone
    end.
Proof.
  apply (X20_sensor_state_follows_attributes (Ok Sensor.example_response)
           (Sensor.example_sensor (Some "humidity"))
           (snd (Sensor.async_update (Ok Sensor.example_response)
                   (Sensor.example_sensor (Some "humidity"))))).
  - reflexivity.
  - vm_compute. reflexivity.
Defined.

(** X21. The availability of the sensor after a poll depends on the fetch
    alone: it is True when the device answered (even if the update then raises
    on an entry), False when the fetch raised DeviceException, and unchanged
    when the fetch raised anything else. *)
Theorem X21_sensor_availability
    (fetch : result (list entry)) (s : Sensor.sensor) :
  Sensor.skips s = false ->
  Sensor._available (snd (Sensor.async_update fetch s)) =
    match fetch with
    | Ok _ => true
    | Raise DeviceException => false
    | Raise _ => Sensor._available s
    end.
Proof.
  intros Hsk. destruct fetch as [response|e].
  - rewrite (SensorFacts.async_update_response response s Hsk).
    destruct (Sensor.loop _ _ _) as [[sd c]|e]; [|reflexivity].
    cbv zeta. unfold Sensor.after_loop. simpl.
    destruct (c =? _); reflexivity.
  - destruct (decide (e = DeviceException)) as [->|Hne].
    + rewrite (SensorFacts.async_update_DeviceException s Hsk). reflexivity.
    + rewrite (SensorFacts.async_update_raise e s Hsk Hne).
      destruct e; try reflexivity. contradiction.
Qed.

Lemma X21_witness :
  Sensor._available
    (snd (Sensor.async_update (Raise DeviceException)
            (snd (Sensor.async_update (Ok Sensor.example_response)
                    (Sensor.example_sensor None))))) = false.
Proof.
  apply (X21_sensor_availability (Raise DeviceException)
           (snd (Sensor.async_update (Ok Sensor.example_response)
                   (Sensor.example_sensor None)))).
  reflexivity.
Defined.

(** X22. Whatever it fetches and whatever its outcome,
    [MiotSensor.async_update] leaves the configuration (mapping, control
    parameters, update_instant, sensor_property) alone and removes no key from
    the extra attributes. *)
Theorem X22_sensor_update_keeps_configuration_and_keys
    (fetch : result (list entry)) (s : Sensor.sensor) :
  Sensor.kept_by_update s (snd (Sensor.async_update fetch s)).
Proof.
  apply (SensorMore.sensor_async_update_keeps Sensor.kept_by_update).
  - apply SensorMore.sensor_kept_refl.
  - apply SensorMore.sensor_kept_trans.
  - intros s0. split; [repeat split|intros k Hk; exact Hk].
  - intros b s0. split; [repeat split|intros k Hk; exact Hk].
  - intros s0. split; [repeat split|intros k Hk; exact Hk].
  - intros v s0. split; [repeat split|intros k Hk; exact Hk].
  - apply SensorMore.sensor_kept_attrs.
Qed.

(** X23. Polling the sensor again with the same response changes nothing:
    the entity a completed update leaves is left as it is by a second update
    with that response. *)
Theorem X23_sensor_update_idempotent
    (response : list entry) (s s1 : Sensor.sensor) :
  Sensor.skips s = false ->
  Sensor.async_update (Ok response) s = (Ok tt, s1) ->
  Sensor.async_update (Ok response) s1 = (Ok tt, s1).
Proof.
  intros Hsk H.
  assert (Hsk1 : Sensor.skips s1 = false).
  { pose proof (SensorFacts.async_update_skips (Ok response) s Hsk) as Hs.
    rewrite H in Hs. exact Hs. }
  rewrite (SensorFacts.async_update_response response s1 Hsk1).
  rewrite (SensorFacts.async_update_response response s Hsk) in H.
  destruct (Sensor.loop (Sensor._ctrl_params s) (∅, 0) response) as [[sd c]|e] eqn:Hl;
    [|discriminate].
  cbv zeta in H. injection H as <-.
  assert (Hcp : Sensor._ctrl_params
                  (Sensor.set_state
                     (Sensor.primary (Sensor.after_loop response (sd, c) s))
                     (Sensor.after_loop response (sd, c) s)) = Sensor._ctrl_params s).
  { change (Sensor._ctrl_params (Sensor.set_state ?v ?x)) with (Sensor._ctrl_params x).
    apply SensorMore.after_loop_ctrl_params. }
  rewrite Hcp, Hl. cbv zeta. f_equal.
  apply SensorMore.after_loop_twice.
Qed.

Lemma X23_witness :
  let s1 := snd (Sensor.async_update (Ok Sensor.example_response)
                   (Sensor.example_sensor (Some "humidity"))) in
  Sensor.async_update (Ok Sensor.example_response) s1 = (Ok tt, s1).
Proof.
  apply (X23_sensor_update_idempotent Sensor.example_response
           (Sensor.example_sensor (Some "humidity"))).
  - reflexivity.
  - vm_compute. reflexivity.
Defined.
